(** * in-toto [runlib]: a shallow embedding and its verified properties

  The development follows [in_toto/runlib.py]: artifact recording
  ([record_artifacts_as_dict] and its helpers), supervised command
  execution ([_subprocess_run_duplicate_streams], [execute_link]) and the
  link-recording entry points ([in_toto_run], [in_toto_record_start],
  [in_toto_record_stop]).

  Python values are modelled as follows.
  - [str] is [string]; path strings stay strings and the functions of
    [os.path] used by the source are written out for POSIX paths.
  - [dict] is a [gmap]; a list is a [list].
  - The process state the code reads and writes (file tree, working
    directory, terminal, temporary files, the child process) is a record
    [World] threaded through a state-and-exception monad [M]; every
    externally visible action is also appended to a trace of [event]s.
  - Exceptions are values of [exn]; [raise] aborts the computation and
    keeps the state reached so far.
  - Collaborators outside this module (pathspec, securesystemslib
    hashing, gpg, the child program) are fields of the record [Env]. *)

From Stdlib Require Import ZArith Lia String Ascii List Sorted.
From stdpp Require Import base option list gmap strings.

Local Open Scope string_scope.
Local Open Scope list_scope.
Set Warnings "-register-all".

(** ** Python string operations used by the source *)

Module Py.

Definition slash : ascii := "/"%char.
Definition backslash : ascii := "\"%char.

(** [s.startswith(p)] *)
Definition startswith (s p : string) : bool := String.prefix p s.

(** [s[n:]] *)
Fixpoint drop (n : nat) (s : string) : string :=
  match n, s with
  | O, _ => s
  | S n', String _ r => drop n' r
  | S _, EmptyString => EmptyString
  end.

(** [s[:n]] *)
Fixpoint take (n : nat) (s : string) : string :=
  match n, s with
  | S n', String c r => String c (take n' r)
  | _, _ => EmptyString
  end.

(** [s.endswith(p)] *)
Definition endswith (s p : string) : bool :=
  String.eqb (drop (String.length s - String.length p) s) p
  && (String.length p <=? String.length s)%nat.

(** [s.replace(a, b)] for single characters [a] and [b] *)
Fixpoint replace (a b : ascii) (s : string) : string :=
  match s with
  | EmptyString => EmptyString
  | String c r => String (if Ascii.eqb c a then b else c) (replace a b r)
  end.

(** [s.split(sep)] for a single character [sep]; never empty *)
Fixpoint split (sep : ascii) (s : string) : list string :=
  match s with
  | EmptyString => [EmptyString]
  | String c r =>
      if Ascii.eqb c sep then EmptyString :: split sep r
      else match split sep r with
           | x :: xs => String c x :: xs
           | [] => [String c EmptyString]
           end
  end.

(** [sep.join(l)] *)
Definition join (sep : string) (l : list string) : string :=
  String.concat sep l.

(** [c in s] for a character *)
Fixpoint contains (c : ascii) (s : string) : bool :=
  match s with
  | EmptyString => false
  | String d r => Ascii.eqb d c || contains c r
  end.

(** [sorted(set(l))]: ascending in code-point order, duplicates removed *)
Fixpoint insert_sorted (x : string) (l : list string) : list string :=
  match l with
  | [] => [x]
  | y :: r =>
      match String.compare x y with
      | Lt => x :: y :: r
      | Eq => y :: r
      | Gt => y :: insert_sorted x r
      end
  end.

Definition sorted_set (l : list string) : list string :=
  fold_right insert_sorted [] l.

(** [itertools.combinations(l, 2)] *)
Fixpoint combinations2 {A} (l : list A) : list (A * A) :=
  match l with
  | [] => []
  | x :: r => map (fun y => (x, y)) r ++ combinations2 r
  end.

End Py.

(** ** [os.path] for POSIX paths *)

Module os_path.

(** Number of leading slashes [normpath] keeps: none, one, or exactly two. *)
Definition initial_slashes (path : string) : nat :=
  if Py.startswith path "/" then
    if Py.startswith path "//" && negb (Py.startswith path "///") then 2 else 1
  else 0.

(** One step of the component loop of [normpath]; [new_comps] is kept in
    reverse, so its head is the last component appended. *)
Definition norm_step (rooted : bool) (new_comps : list string) (comp : string)
  : list string :=
  if String.eqb comp "" || String.eqb comp "." then new_comps
  else if negb (String.eqb comp "..") then comp :: new_comps
  else match new_comps with
       | [] => if rooted then [] else [comp]
       | last :: before =>
           if String.eqb last ".." then comp :: new_comps else before
       end.

Definition norm_comps (rooted : bool) (comps : list string) : list string :=
  rev (fold_left (norm_step rooted) comps []).

Definition normpath (path : string) : string :=
  if String.eqb path "" then "."
  else
    let n := initial_slashes path in
    let comps := norm_comps (0 <? n)%nat (Py.split Py.slash path) in
    let p := Py.join "/" comps in
    let p := match n with 0 => p | 1 => "/" +:+ p | _ => "//" +:+ p end in
    if String.eqb p "" then "." else p.

(** [os.path.join(a, b)] *)
Definition join (a b : string) : string :=
  if Py.startswith b "/" then b
  else if String.eqb a "" || Py.endswith a "/" then a +:+ b
  else a +:+ "/" +:+ b.

(** [os.path.basename(p)]: what follows the last slash *)
Definition basename (p : string) : string :=
  List.last (Py.split Py.slash p) "".

End os_path.

(** ** Exceptions *)

Inductive exn : Type :=
| ValueError (msg : string)
| FormatError (msg : string)
| PrefixError (msg : string)
| LinkNotFoundError (msg : string)
| SignatureVerificationError (msg : string)
| StorageError (msg : string)
| TimeoutExpired (cmd : list string) (timeout : Z)
| OSError (msg : string)
| IndexError (msg : string)
| CollaboratorError (msg : string).

Inductive result (A : Type) : Type :=
| Ok (a : A)
| Err (e : exn).
Arguments Ok {A} a.
Arguments Err {A} e.

(** ** Data model *)

(** A value stored in the [byproducts] dictionary. *)
Inductive pyval : Type :=
| VStr (s : string)
| VInt (z : Z).

(** [in_toto.models.link.Link] *)
Record Link : Type := mkLink {
  link_name : string;
  materials : gmap string (gmap string string);
  products : gmap string (gmap string string);
  command : list string;
  byproducts : gmap string pyval;
  environment : gmap string string
}.

Record Signature : Type := mkSignature {
  sig_keyid : string;
  sig_value : string
}.

(** [in_toto.models.metadata]: the two envelope classes. *)
Inductive Metadata : Type :=
| Metablock (signed : Link) (signatures : list Signature) (compact_json : bool)
| Envelope (payload : Link) (signatures : list Signature).

(** A securesystemslib key dictionary: [key_schema_ok] says whether it
    matches [KEY_SCHEMA], [keyval_private] is [keyval.get("private")]
    (empty when absent). *)
Record Key : Type := mkKey {
  keyid : string;
  key_schema_ok : bool;
  keyval_private : string;
  keyval_public : string
}.

Inductive Signer : Type :=
| SSlibSigner (key : Key)
| GPGSigner (gpg_keyid : option string) (homedir : option string).

(** Files hold bytes or the serialised form of a metadata object. *)
Inductive content : Type :=
| Raw (bytes : string)
| Serialized (md : Metadata).

(** The file tree. [LinkDir] is a symbolic link to a directory (its entries
    are those of the target), [Dangling] a directory entry that is neither a
    regular file nor a directory once resolved (a broken symbolic link). *)
Inductive node : Type :=
| File (readable : bool) (c : content)
| Dangling
| Dir (entries : list (string * node))
| LinkDir (entries : list (string * node)).

(** What the child process does between two observations by its parent. *)
Record tick : Type := mkTick {
  t_now : Z;          (* [time.time()] at this poll *)
  t_out : string;     (* written to stdout since the previous poll *)
  t_err : string      (* written to stderr since the previous poll *)
}.

(** A started child process: [p_ticks] has one entry for every
    [proc.poll()] that finds it running; after these it has exited with
    [p_returncode], having written [p_last_out] and [p_last_err] since the
    last poll. [p_effect] is what a run to completion does to the file
    tree, [p_effect_killed] what a killed run leaves behind. *)
Record proc : Type := mkProc {
  p_start : Z;
  p_ticks : list tick;
  p_last_out : string;
  p_last_err : string;
  p_returncode : Z;
  p_effect : node -> node;
  p_effect_killed : node -> node
}.

(** [in_toto.settings] *)
Record Settings : Type := mkSettings {
  ARTIFACT_BASE_PATH : option string;
  ARTIFACT_EXCLUDE_PATTERNS : option (list string);
  LINK_CMD_EXEC_TIMEOUT : Z
}.

(** Externally visible actions, in the order they happen. *)
Inductive event : Type :=
| EvChdir (path : string)
| EvCheckMatch (schema : string)
| EvHash (path : string)
| EvMkstemp (fd : nat)
| EvRemoveTemp (fd : nat)
| EvPopen (cmd : list string)
| EvKill
| EvStdout (s : string)
| EvStderr (s : string)
| EvSign (s : Signer)
| EvLoad (filename : string)
| EvDump (filename : string)
| EvRemove (filename : string).

Record World : Type := mkWorld {
  tree : node;
  cwd : list string;              (* components of the working directory *)
  settings : Settings;
  temps : gmap nat string;        (* live temporary files *)
  next_temp : nat;
  trace : list event
}.

(** Collaborators outside [runlib]. *)
Record Env : Type := mkEnv {
  (* pathspec: does the compiled 'gitwildmatch' pattern list match the path *)
  match_file : list string -> string -> bool;
  (* securesystemslib.hash: hex digest of a file's content *)
  digest : string -> bool -> content -> string;
  (* subprocess.Popen: the child a command line starts, if it starts *)
  popen : list string -> result proc;
  (* securesystemslib.formats.KEYID_SCHEMA *)
  keyid_schema_ok : string -> bool;
  (* signing a payload; the signature carries the resolved key id *)
  sign : Signer -> Link -> result Signature;
  (* does some signature verify against the key *)
  verify : Key -> Link -> list Signature -> bool;
  (* securesystemslib.gpg.functions.export_pubkey *)
  export_pubkey : string -> option string -> result Key;
  (* glob.glob(pattern), given the file tree and the working directory *)
  glob : node -> list string -> string -> list string;
  (* a PathSpec compiled from no pattern matches no path *)
  match_file_nil : forall path, match_file [] path = false
}.

(** ** The state-and-exception monad *)

Definition M (A : Type) : Type := World -> result A * World.

Definition ret {A} (a : A) : M A := fun w => (Ok a, w).

Definition bind {A B} (c : M A) (k : A -> M B) : M B :=
  fun w => match c w with
           | (Ok a, w') => k a w'
           | (Err e, w') => (Err e, w')
           end.

Definition raise {A} (e : exn) : M A := fun w => (Err e, w).

Definition get : M World := fun w => (Ok w, w).

Definition put (w : World) : M unit := fun _ => (Ok tt, w).

Definition lift_result {A} (r : result A) : M A := fun w => (r, w).

Declare Scope monad_scope.
Delimit Scope monad_scope with monad.
Notation "x <- c ;; k" := (bind c (fun x => k))
  (at level 100, c at next level, right associativity) : monad_scope.
Notation "c ;;; k" := (bind c (fun _ => k))
  (at level 100, right associativity) : monad_scope.
Local Open Scope monad_scope.

(** [try: c finally: fin] *)
Definition try_finally {A} (c : M A) (fin : M unit) : M A :=
  fun w => match c w with
           | (r, w') =>
               match fin w' with
               | (Ok _, w'') => (r, w'')
               | (Err e, w'') => (Err e, w'')
               end
           end.

(** [try: c except Exception as e: raise h(e)] *)
Definition try_except {A} (c : M A) (h : exn -> exn) : M A :=
  fun w => match c w with
           | (Ok a, w') => (Ok a, w')
           | (Err e, w') => (Err (h e), w')
           end.

(** [for x in l: s = body(x, s)] *)
Fixpoint for_each {A S} (l : list A) (body : A -> S -> M S) (s : S) : M S :=
  match l with
  | [] => ret s
  | x :: r => s' <- body x s ;; for_each r body s'
  end.

Definition emit (e : event) : M unit :=
  fun w => (Ok tt, mkWorld (tree w) (cwd w) (settings w) (temps w) (next_temp w)
                           (trace w ++ [e])).

Definition set_tree (t : node) : M unit :=
  fun w => (Ok tt, mkWorld t (cwd w) (settings w) (temps w) (next_temp w) (trace w)).

Definition set_cwd (d : list string) : M unit :=
  fun w => (Ok tt, mkWorld (tree w) d (settings w) (temps w) (next_temp w) (trace w)).

Definition set_temps (t : gmap nat string) (n : nat) : M unit :=
  fun w => (Ok tt, mkWorld (tree w) (cwd w) (settings w) t n (trace w)).

(** Python truth value of an optional string or list argument. *)
Definition truthy_str (o : option string) : bool :=
  match o with Some s => negb (String.eqb s "") | None => false end.

Definition truthy_list {A} (o : option (list A)) : bool :=
  match o with Some (_ :: _) => true | _ => false end.

(** [o or []] *)
Definition or_nil {A} (o : option (list A)) : list A :=
  match o with Some l => l | None => [] end.

(** ** The file system *)

(** A name a directory entry can have. *)
Definition valid_name (n : string) : bool :=
  negb (String.eqb n "") && negb (String.eqb n ".") && negb (String.eqb n "..")
  && negb (Py.contains Py.slash n).

(** Path resolution by the operating system: the components of [path] are
    followed from the root (absolute path) or from [from]. *)
Definition resolve_step (stack : list string) (comp : string) : list string :=
  if String.eqb comp "" || String.eqb comp "." then stack
  else if String.eqb comp ".." then tl stack
  else comp :: stack.

Definition resolve (from : list string) (path : string) : list string :=
  rev (fold_left resolve_step (Py.split Py.slash path)
         (if Py.startswith path "/" then [] else rev from)).

Fixpoint find_entry (name : string) (es : list (string * node)) : option node :=
  match es with
  | [] => None
  | (n, c) :: r => if String.eqb n name then Some c else find_entry name r
  end.

Fixpoint lookup_node (comps : list string) (n : node) : option node :=
  match comps with
  | [] => Some n
  | c :: r =>
      match n with
      | Dir es | LinkDir es =>
          match find_entry c es with
          | Some m => lookup_node r m
          | None => None
          end
      | _ => None
      end
  end.

Definition lookup_path (t : node) (from : list string) (path : string)
  : option node :=
  if String.eqb path "" then None
  else lookup_node (resolve from path) t.

Definition stat (w : World) (path : string) : option node :=
  lookup_path (tree w) (cwd w) path.

(** [os.path.isfile], [os.path.isdir] *)
Definition isfile (w : World) (path : string) : bool :=
  match stat w path with Some (File _ _) => true | _ => false end.

Definition isdir (w : World) (path : string) : bool :=
  match stat w path with Some (Dir _) | Some (LinkDir _) => true | _ => false end.

(** [os.getcwd()] *)
Definition getcwd (w : World) : string := "/" +:+ Py.join "/" (cwd w).

(** [os.chdir(path)] *)
Definition chdir (path : string) : M unit :=
  w <- get ;;
  if isdir w path then
    set_cwd (resolve (cwd w) path) ;;; emit (EvChdir path)
  else raise (OSError ("No such directory: '" +:+ path +:+ "'")).

(** [os.walk(top, followlinks=...)], top-down, interleaved with the loop
    body that consumes it. [body top dirs files s] is one iteration of the
    consumer's loop: it returns the directory names it leaves in [dirs] (the
    source prunes the walk by rewriting that list in place) and the
    consumer's loop-carried state. A directory that cannot be listed is
    skipped, as [os.walk] does without an [onerror] handler. *)

Definition is_dir_node (n : node) : bool :=
  match n with Dir _ | LinkDir _ => true | _ => false end.

Definition is_link_node (n : node) : bool :=
  match n with LinkDir _ | Dangling => true | _ => false end.

Definition scandir (es : list (string * node)) : list (string * node) :=
  List.filter (fun e => valid_name (fst e)) es.

Definition dir_names (es : list (string * node)) : list string :=
  map fst (List.filter (fun e => is_dir_node (snd e)) (scandir es)).

Definition nondir_names (es : list (string * node)) : list string :=
  map fst (List.filter (fun e => negb (is_dir_node (snd e))) (scandir es)).

Section Walk.

Context {S : Type}.
Variable body : string -> list string -> list string -> S -> M (list string * S).
Variable followlinks : bool.

Fixpoint find_walk (name : string)
  (subs : list (string * (bool * (string -> S -> M S))))
  : option (bool * (string -> S -> M S)) :=
  match subs with
  | [] => None
  | (n, c) :: r => if String.eqb n name then Some c else find_walk name r
  end.

Definition walk_dir (subs : list (string * (bool * (string -> S -> M S))))
  (es : list (string * node)) (top : string) (s : S) : M S :=
  r <- body top (dir_names es) (nondir_names es) s ;;
  for_each (fst r)
    (fun dirname s' =>
       match find_walk dirname subs with
       | Some (islink, walk) =>
           if followlinks || negb islink
           then walk (os_path.join top dirname) s'
           else ret s'
       | None => ret s'
       end)
    (snd r).

Fixpoint os_walk (n : node) (top : string) (s : S) {struct n} : M S :=
  match n with
  | Dir es =>
      walk_dir ((fix subs (l : list (string * node)) :=
                   match l with
                   | [] => []
                   | e :: r => (fst e, (is_link_node (snd e), os_walk (snd e))) :: subs r
                   end) es) es top s
  | LinkDir es =>
      walk_dir ((fix subs (l : list (string * node)) :=
                   match l with
                   | [] => []
                   | e :: r => (fst e, (is_link_node (snd e), os_walk (snd e))) :: subs r
                   end) es) es top s
  | _ => ret s
  end.

End Walk.

(** ** Artifact recording *)

Section Runlib.

Context (E : Env).

(** [securesystemslib.formats.<SCHEMA>.check_match(x)]; [ok] says whether
    [x] matches. *)
Definition check_match (schema : string) (ok : bool) : M unit :=
  emit (EvCheckMatch schema) ;;;
  if ok then ret tt
  else raise (FormatError ("does not match " +:+ schema)).

(** [securesystemslib.hash.digest_filename(filepath, algorithm, ...)
    .hexdigest()] *)
Definition digest_filename (filepath algorithm : string)
  (normalize_line_endings : bool) : M string :=
  emit (EvHash filepath) ;;;
  w <- get ;;
  match stat w filepath with
  | Some (File true c) => ret (digest E algorithm normalize_line_endings c)
  | _ => raise (StorageError ("Can't open " +:+ filepath))
  end.

Definition _hash_artifact (filepath : string)
  (hash_algorithms : option (list string)) (normalize_line_endings : bool)
  : M (gmap string string) :=
  let hash_algorithms :=
    if negb (truthy_list hash_algorithms) then ["sha256"]
    else or_nil hash_algorithms in
  check_match "HASHALGORITHMS_SCHEMA" true ;;;
  hash_dict <- for_each hash_algorithms
    (fun algorithm (hash_dict : gmap string string) =>
       hexdigest <- digest_filename filepath algorithm normalize_line_endings ;;
       ret (<[algorithm := hexdigest]> hash_dict))
    ∅ ;;
  check_match "HASHDICT_SCHEMA" true ;;;
  ret hash_dict.

(** [exclude_filter] is the pattern list the [PathSpec] was compiled from:
    the source accepts either the list or the compiled object. *)
Definition _apply_exclude_patterns (names : list string)
  (exclude_filter : list string) : list string :=
  Py.sorted_set (List.filter (fun n => negb (match_file E exclude_filter n)) names).

(** The first prefix in list order that [artifact_filepath] starts with is
    cut off. *)
Fixpoint strip_first_prefix (artifact_filepath : string)
  (lstrip_paths : list string) : string :=
  match lstrip_paths with
  | [] => artifact_filepath
  | prefix :: rest =>
      if Py.startswith artifact_filepath prefix
      then Py.drop (String.length prefix) artifact_filepath
      else strip_first_prefix artifact_filepath rest
  end.

Definition _apply_left_strip (artifact_filepath : string)
  (artifacts_dict : gmap string (gmap string string))
  (lstrip_paths : option (list string)) : M string :=
  if truthy_list lstrip_paths then
    let artifact_filepath :=
      strip_first_prefix artifact_filepath (or_nil lstrip_paths) in
    if bool_decide (is_Some (artifacts_dict !! artifact_filepath)) then
      raise (PrefixError ("Prefix selection has resulted in non unique dictionary key '"
                          +:+ artifact_filepath +:+ "'"))
    else ret artifact_filepath
  else ret artifact_filepath.

(** The check of the strip prefixes against each other. *)
Definition check_lstrip_paths (lstrip_paths : option (list string)) : M unit :=
  if truthy_list lstrip_paths then
    for_each (Py.combinations2 (or_nil lstrip_paths))
      (fun pr (_ : unit) =>
         let prefix_one := fst pr in
         let prefix_two := snd pr in
         if Py.startswith prefix_one prefix_two
            || Py.startswith prefix_two prefix_one
         then raise (PrefixError ("'" +:+ prefix_one +:+ "' and '" +:+ prefix_two
                                  +:+ "' triggered a left substring error"))
         else ret tt)
      tt
  else ret tt.

(** One iteration of the loop over [os.walk(artifact)]. *)
Definition walk_body (exclude_patterns : option (list string))
  (exclude_filter : list string) (normalize_line_endings : bool)
  (lstrip_paths : option (list string))
  (root : string) (dirs files : list string)
  (artifacts_dict : gmap string (gmap string string))
  : M (list string * gmap string (gmap string string)) :=
  (* Create a list of normalized dirpaths *)
  let dirpaths :=
    map (fun dirname => os_path.normpath (os_path.join root dirname)) dirs in
  let dirpaths :=
    if truthy_list exclude_patterns
    then _apply_exclude_patterns dirpaths exclude_filter
    else dirpaths in
  (* Reset and refill dirs with remaining names after exclusion *)
  let dirs := map os_path.basename dirpaths in
  (* Create a list of normalized filepaths *)
  w <- get ;;
  let filepaths :=
    List.filter (isfile w)
      (map (fun filename => os_path.normpath (os_path.join root filename)) files) in
  let filepaths :=
    if truthy_list exclude_patterns
    then _apply_exclude_patterns filepaths exclude_filter
    else filepaths in
  artifacts_dict <- for_each filepaths
    (fun filepath artifacts_dict =>
       let normalized_filepath := Py.replace Py.backslash Py.slash filepath in
       key <- _apply_left_strip normalized_filepath artifacts_dict lstrip_paths ;;
       h <- _hash_artifact filepath None normalize_line_endings ;;
       ret (<[key := h]> artifacts_dict))
    artifacts_dict ;;
  ret (dirs, artifacts_dict).

(** The loop over the remaining normalized artifact paths. *)
Definition record_one (exclude_patterns : option (list string))
  (exclude_filter : list string) (follow_symlink_dirs normalize_line_endings : bool)
  (lstrip_paths : option (list string)) (artifact : string)
  (artifacts_dict : gmap string (gmap string string))
  : M (gmap string (gmap string string)) :=
  w <- get ;;
  if isfile w artifact then
    let artifact := Py.replace Py.backslash Py.slash artifact in
    key <- _apply_left_strip artifact artifacts_dict lstrip_paths ;;
    h <- _hash_artifact artifact None normalize_line_endings ;;
    ret (<[key := h]> artifacts_dict)
  else if isdir w artifact then
    match stat w artifact with
    | Some n =>
        os_walk (walk_body exclude_patterns exclude_filter normalize_line_endings
                   lstrip_paths)
          follow_symlink_dirs n artifact artifacts_dict
    | None => ret artifacts_dict
    end
  else
    (* Path is no file and no directory: logged and skipped *)
    ret artifacts_dict.

Definition record_artifacts_as_dict (artifacts : list string)
  (exclude_patterns : option (list string)) (base_path : option string)
  (follow_symlink_dirs normalize_line_endings : bool)
  (lstrip_paths : option (list string))
  : M (gmap string (gmap string string)) :=
  let artifacts_dict : gmap string (gmap string string) := ∅ in
  match artifacts with
  | [] => ret artifacts_dict
  | _ :: _ =>
      w0 <- get ;;
      let base_path :=
        if truthy_str base_path then base_path
        else ARTIFACT_BASE_PATH (settings w0) in
      (* Temporarily change into base path dir if set; the message of the
         source also quotes the text of the exception caught *)
      let original_cwd := getcwd w0 in
      (if truthy_str base_path then
         try_except (chdir (default "" base_path))
           (fun e => ValueError ("Could not use '" +:+ default "" base_path
                                 +:+ "' as base path"))
       else ret tt) ;;;
      (* Normalize passed paths *)
      let norm_artifacts := map os_path.normpath artifacts in
      (* Passed exclude patterns take precedence over exclude pattern settings *)
      let exclude_patterns :=
        if truthy_list exclude_patterns then exclude_patterns
        else ARTIFACT_EXCLUDE_PATTERNS (settings w0) in
      (* Apply exclude patterns on the passed artifact paths if available *)
      norm_artifacts <-
        (if truthy_list exclude_patterns then
           check_match "NAMES_SCHEMA" true ;;;
           ret (_apply_exclude_patterns norm_artifacts (or_nil exclude_patterns))
         else ret norm_artifacts) ;;
      (* Check if any of the prefixes passed for left stripping is a left
         substring of another *)
      check_lstrip_paths lstrip_paths ;;;
      (* Compile the gitignore-style patterns *)
      let exclude_filter := or_nil exclude_patterns in
      (* Iterate over remaining normalized artifact paths *)
      artifacts_dict <- for_each norm_artifacts
        (record_one exclude_patterns exclude_filter follow_symlink_dirs
           normalize_line_endings lstrip_paths)
        artifacts_dict ;;
      (* Change back to where original current working dir *)
      (if truthy_str base_path then chdir original_cwd else ret tt) ;;;
      ret artifacts_dict
  end.

(** ** Supervised command execution *)

(** [io.DEFAULT_BUFFER_SIZE], 8192 *)
Definition DEFAULT_BUFFER_SIZE : nat := 8 * 1024.

(** [tempfile.mkstemp()] *)
Definition mkstemp : M nat :=
  w <- get ;;
  let fd := next_temp w in
  set_temps (<[fd := ""]> (temps w)) (S fd) ;;;
  emit (EvMkstemp fd) ;;;
  ret fd.

(** [os.remove(name)] of a temporary file *)
Definition remove_temp (fd : nat) : M unit :=
  w <- get ;;
  set_temps (delete fd (temps w)) (next_temp w) ;;;
  emit (EvRemoveTemp fd).

(** The child appends to the files its standard streams are redirected to. *)
Definition child_write (stdout_name stderr_name : nat) (out err : string)
  : M unit :=
  w <- get ;;
  let t := temps w in
  let t := <[stdout_name := default "" (t !! stdout_name) +:+ out]> t in
  let t := <[stderr_name := default "" (t !! stderr_name) +:+ err]> t in
  set_temps t (next_temp w).

(** [reader.read(n)] at offset [pos] *)
Definition reader_read (name pos n : nat) (w : World) : string :=
  Py.take n (Py.drop pos (default "" (temps w !! name))).

(** The two readers' offsets and the [_std] dictionary. *)
Record streams : Type := mkStreams {
  stdout_pos : nat;
  stderr_pos : nat;
  std_out : string;
  std_err : string
}.

Definition _duplicate_streams (stdout_name stderr_name : nat) (st : streams)
  : M streams :=
  w <- get ;;
  let stdout_part := reader_read stdout_name (stdout_pos st) DEFAULT_BUFFER_SIZE w in
  let stderr_part := reader_read stderr_name (stderr_pos st) DEFAULT_BUFFER_SIZE w in
  emit (EvStdout stdout_part) ;;;
  emit (EvStderr stderr_part) ;;;
  ret (mkStreams (stdout_pos st + String.length stdout_part)
                 (stderr_pos st + String.length stderr_part)
                 (std_out st +:+ stdout_part)
                 (std_err st +:+ stderr_part)).

(** [timeout is not None and time.time() > proc_start_time + timeout] *)
Definition timed_out (timeout : option Z) (proc_start_time now : Z) : bool :=
  match timeout with
  | Some t => (proc_start_time + t <? now)%Z
  | None => false
  end.

(** [proc.kill(); proc.wait()] *)
Definition kill (p : proc) : M unit :=
  emit EvKill ;;;
  w <- get ;;
  set_tree (p_effect_killed p (tree w)).

(** The child is found to have exited: everything it did has happened. *)
Definition child_exit (p : proc) (stdout_name stderr_name : nat) : M unit :=
  child_write stdout_name stderr_name (p_last_out p) (p_last_err p) ;;;
  w <- get ;;
  set_tree (p_effect p (tree w)).

(** [while proc.poll() is None: ...]; the list holds the polls that find the
    child running. *)
Fixpoint poll_loop (cmd : list string) (timeout : option Z) (p : proc)
  (stdout_name stderr_name : nat) (ticks : list tick) (st : streams)
  : M streams :=
  match ticks with
  | [] => ret st
  | tk :: rest =>
      child_write stdout_name stderr_name (t_out tk) (t_err tk) ;;;
      if timed_out timeout (p_start p) (t_now tk) then
        kill p ;;;
        raise (TimeoutExpired cmd (default 0%Z timeout))
      else
        st <- _duplicate_streams stdout_name stderr_name st ;;
        poll_loop cmd timeout p stdout_name stderr_name rest st
  end.

Definition _subprocess_run_duplicate_streams (cmd : list string)
  (timeout : option Z) : M (Z * string * string) :=
  stdout_name <- mkstemp ;;
  stderr_name <- mkstemp ;;
  r <- try_finally
         (let _std := mkStreams 0 0 "" "" in
          (* Start child process *)
          emit (EvPopen cmd) ;;;
          p <- lift_result (popen E cmd) ;;
          (* Duplicate streams until the process exits (or times out) *)
          _std <- poll_loop cmd timeout p stdout_name stderr_name (p_ticks p) _std ;;
          child_exit p stdout_name stderr_name ;;;
          (* Read/write once more *)
          _std <- _duplicate_streams stdout_name stderr_name _std ;;
          ret (p, _std))
         (remove_temp stdout_name ;;; remove_temp stderr_name) ;;
  ret (p_returncode (fst r), std_out (snd r), std_err (snd r)).

(** [subprocess.run(cmd, check=False, timeout=..., stdout=DEVNULL,
    stderr=DEVNULL)]: waits for the child, kills it and raises when the
    timeout expires first. *)
Fixpoint wait_loop (cmd : list string) (timeout : option Z) (p : proc)
  (ticks : list tick) : M unit :=
  match ticks with
  | [] => ret tt
  | tk :: rest =>
      if timed_out timeout (p_start p) (t_now tk) then
        kill p ;;;
        raise (TimeoutExpired cmd (default 0%Z timeout))
      else wait_loop cmd timeout p rest
  end.

Definition subprocess_run (cmd : list string) (timeout : option Z) : M Z :=
  emit (EvPopen cmd) ;;;
  p <- lift_result (popen E cmd) ;;
  wait_loop cmd timeout p (p_ticks p) ;;;
  w <- get ;;
  set_tree (p_effect p (tree w)) ;;;
  ret (p_returncode p).

Definition execute_link (link_cmd_args : list string) (record_streams : bool)
  : M (gmap string pyval) :=
  w <- get ;;
  let timeout := Some (LINK_CMD_EXEC_TIMEOUT (settings w)) in
  r <- (if record_streams then
          _subprocess_run_duplicate_streams link_cmd_args timeout
        else
          return_code <- subprocess_run link_cmd_args timeout ;;
          ret (return_code, "", "")) ;;
  let return_code := fst (fst r) in
  let stdout_str := snd (fst r) in
  let stderr_str := snd r in
  ret (<["stdout" := VStr stdout_str]>
         (<["stderr" := VStr stderr_str]>
            (<["return-value" := VInt return_code]> ∅))).

(** ** Link metadata on disk *)

(** Modelled from the spec: the file-name conventions of
    [in_toto.models.link], "final link files named
    <step-name>.<keyid-prefix>.link, preliminary files named
    .<step-name>.<keyid-prefix>.link-unfinished", a short form
    <step-name>.link; the key id prefix has eight characters. *)
Definition FILENAME_FORMAT (step_name keyid : string) : string :=
  step_name +:+ "." +:+ Py.take 8 keyid +:+ ".link".

Definition UNFINISHED_FILENAME_FORMAT (step_name keyid : string) : string :=
  "." +:+ step_name +:+ "." +:+ Py.take 8 keyid +:+ ".link-unfinished".

Definition FILENAME_FORMAT_SHORT (step_name : string) : string :=
  step_name +:+ ".link".

Definition UNFINISHED_FILENAME_FORMAT_GLOB (step_name pattern : string) : string :=
  "." +:+ step_name +:+ "." +:+ pattern +:+ ".link-unfinished".

Fixpoint replace_entry (name : string) (n : node) (es : list (string * node))
  : list (string * node) :=
  match es with
  | [] => [(name, n)]
  | (m, c) :: r =>
      if String.eqb m name then (name, n) :: r
      else (m, c) :: replace_entry name n r
  end.

Fixpoint remove_entry (name : string) (es : list (string * node))
  : list (string * node) :=
  match es with
  | [] => []
  | (m, c) :: r =>
      if String.eqb m name then r else (m, c) :: remove_entry name r
  end.

(** Create or overwrite the regular file at [comps]; the directory it goes
    into has to exist. *)
Fixpoint write_node (comps : list string) (c : content) (n : node)
  : option node :=
  match comps, n with
  | [name], Dir es =>
      match find_entry name es with
      | Some (Dir _) | Some (LinkDir _) => None
      | _ => Some (Dir (replace_entry name (File true c) es))
      end
  | name :: rest, Dir es =>
      match find_entry name es with
      | Some child =>
          match write_node rest c child with
          | Some child' => Some (Dir (replace_entry name child' es))
          | None => None
          end
      | None => None
      end
  | _, _ => None
  end.

(** Remove the file at [comps]. *)
Fixpoint unlink_node (comps : list string) (n : node) : option node :=
  match comps, n with
  | [name], Dir es =>
      match find_entry name es with
      | Some (File _ _) | Some Dangling => Some (Dir (remove_entry name es))
      | _ => None
      end
  | name :: rest, Dir es =>
      match find_entry name es with
      | Some child =>
          match unlink_node rest child with
          | Some child' => Some (Dir (replace_entry name child' es))
          | None => None
          end
      | None => None
      end
  | _, _ => None
  end.

(** [os.remove(path)] *)
Definition os_remove (path : string) : M unit :=
  w <- get ;;
  match unlink_node (resolve (cwd w) path) (tree w) with
  | Some t => set_tree t ;;; emit (EvRemove path)
  | None => raise (OSError ("cannot remove '" +:+ path +:+ "'"))
  end.

(** [link_metadata.get_payload()] *)
Definition get_payload (md : Metadata) : Link :=
  match md with
  | Metablock signed _ _ => signed
  | Envelope payload _ => payload
  end.

Definition get_signatures (md : Metadata) : list Signature :=
  match md with
  | Metablock _ sigs _ => sigs
  | Envelope _ sigs => sigs
  end.

Definition add_signature (md : Metadata) (s : Signature) : Metadata :=
  match md with
  | Metablock signed sigs cj => Metablock signed (sigs ++ [s]) cj
  | Envelope payload sigs => Envelope payload (sigs ++ [s])
  end.

(** Modelled from the spec: [Metadata.create_signature], "signs a canonical
    byte serialization of the payload and appends the record". The object is
    updated in place, so the updated object is returned with the signature. *)
Definition create_signature (md : Metadata) (signer : Signer)
  : M (Signature * Metadata) :=
  emit (EvSign signer) ;;;
  sg <- lift_result (sign E signer (get_payload md)) ;;
  ret (sg, add_signature md sg).

(** Modelled from the spec: [Metadata.verify_signature], "verify the
    preliminary signature with that key; fail with
    SignatureVerificationError on mismatch". *)
Definition verify_signature (md : Metadata) (verification_key : Key) : M unit :=
  if verify E verification_key (get_payload md) (get_signatures md) then ret tt
  else raise (SignatureVerificationError "Invalid signature").

(** Modelled from the spec: [Metadata.dump], "serialized and written to a
    conventionally named file"; a failure leaves no file behind. *)
Definition dump (md : Metadata) (filename : string) : M unit :=
  w <- get ;;
  match write_node (resolve (cwd w) filename) (Serialized md) (tree w) with
  | Some t => set_tree t ;;; emit (EvDump filename)
  | None => raise (OSError ("cannot write '" +:+ filename +:+ "'"))
  end.

(** Modelled from the spec: [Metadata.load], "load and deserialize the
    preliminary envelope". *)
Definition load (filename : string) : M Metadata :=
  emit (EvLoad filename) ;;;
  w <- get ;;
  match stat w filename with
  | Some (File true (Serialized md)) => ret md
  | _ => raise (OSError ("cannot load '" +:+ filename +:+ "'"))
  end.

(** ** The recording entry points *)

Definition _check_match_signing_key (signing_key : Key) : M unit :=
  check_match "KEY_SCHEMA" (key_schema_ok signing_key) ;;;
  if String.eqb (keyval_private signing_key) "" then
    raise (FormatError "Signing key needs to be a private key.")
  else ret tt.

(** The format checks the three entry points make on their key arguments. *)
Definition check_key_formats (signing_key : option Key)
  (gpg_keyid : option string) : M unit :=
  (match signing_key with
   | Some k => _check_match_signing_key k
   | None => ret tt
   end) ;;;
  (if truthy_str gpg_keyid
   then check_match "KEYID_SCHEMA" (keyid_schema_ok E (default "" gpg_keyid))
   else ret tt).

Definition check_if (cond : bool) (schema : string) : M unit :=
  if cond then check_match schema true else ret tt.

(** [environment = {}; if record_environment: environment['workdir'] = ...] *)
Definition record_env (record_environment : bool) (w : World)
  : gmap string string :=
  if record_environment
  then <["workdir" := Py.replace Py.backslash Py.slash (getcwd w)]> ∅
  else ∅.

(** [not signing_key and not gpg_keyid and not gpg_use_default] *)
Definition no_key_argument (signing_key : option Key)
  (gpg_keyid : option string) (gpg_use_default : bool) : bool :=
  negb (bool_decide (is_Some signing_key)) && negb (truthy_str gpg_keyid)
  && negb gpg_use_default.

(** The signer the key arguments select, in their order of precedence. *)
Definition select_signer (signing_key : option Key) (gpg_keyid : option string)
  (gpg_use_default : bool) (gpg_home : option string) : option Signer :=
  match signing_key with
  | Some k => Some (SSlibSigner k)
  | None =>
      if truthy_str gpg_keyid then Some (GPGSigner gpg_keyid gpg_home)
      else if gpg_use_default then Some (GPGSigner None gpg_home)
      else None
  end.

Definition in_toto_run (name : string) (material_list product_list : list string)
  (link_cmd_args : list string) (record_streams : bool)
  (signing_key : option Key) (gpg_keyid : option string)
  (gpg_use_default : bool) (gpg_home : option string)
  (exclude_patterns : option (list string)) (base_path : option string)
  (compact_json record_environment normalize_line_endings : bool)
  (lstrip_paths : option (list string)) (metadata_directory : option string)
  (use_dsse : bool) : M Metadata :=
  (* Check key formats to fail early *)
  check_key_formats signing_key gpg_keyid ;;;
  check_if (truthy_list exclude_patterns) "NAMES_SCHEMA" ;;;
  check_if (truthy_str base_path) "PATH_SCHEMA" ;;;
  check_if (truthy_str metadata_directory) "PATH_SCHEMA" ;;;
  materials_dict <- record_artifacts_as_dict material_list exclude_patterns
                      base_path true normalize_line_endings lstrip_paths ;;
  byproducts <-
    (match link_cmd_args with
     | _ :: _ =>
         check_match "LIST_OF_ANY_STRING_SCHEMA" true ;;;
         execute_link link_cmd_args record_streams
     | [] => ret ∅
     end) ;;
  check_if (match product_list with [] => false | _ => true end) "PATHS_SCHEMA" ;;;
  products_dict <- record_artifacts_as_dict product_list exclude_patterns
                     base_path true normalize_line_endings lstrip_paths ;;
  w <- get ;;
  let environment := record_env record_environment w in
  let link := mkLink name materials_dict products_dict link_cmd_args
                byproducts environment in
  let link_metadata :=
    if use_dsse then Envelope link [] else Metablock link [] compact_json in
  match select_signer signing_key gpg_keyid gpg_use_default gpg_home with
  | Some signer =>
      (* We need the signature's keyid to write the link to keyid infix'ed
         filename *)
      r <- create_signature link_metadata signer ;;
      let signature := fst r in
      let link_metadata := snd r in
      let signing_keyid := sig_keyid signature in
      let filename := FILENAME_FORMAT name signing_keyid in
      let filename :=
        match metadata_directory with
        | Some d => os_path.join d filename
        | None => filename
        end in
      dump link_metadata filename ;;;
      ret link_metadata
  | None => ret link_metadata
  end.

Definition in_toto_mock (name : string) (link_cmd_args : list string)
  (use_dsse : bool) : M Metadata :=
  link_metadata <- in_toto_run name ["."] ["."] link_cmd_args true None None
                     false None None None false false false None None use_dsse ;;
  let filename := FILENAME_FORMAT_SHORT name in
  dump link_metadata filename ;;;
  ret link_metadata.

Definition in_toto_record_start (step_name : string) (material_list : list string)
  (signing_key : option Key) (gpg_keyid : option string)
  (gpg_use_default : bool) (gpg_home : option string)
  (exclude_patterns : option (list string)) (base_path : option string)
  (record_environment normalize_line_endings : bool)
  (lstrip_paths : option (list string)) (use_dsse : bool) : M unit :=
  (* Fail if there is no signing key arg at all *)
  if no_key_argument signing_key gpg_keyid gpg_use_default then
    raise (ValueError
             "Pass either a signing key, a gpg keyid or set gpg_use_default to True!")
  else
      check_key_formats signing_key gpg_keyid ;;;
      check_if (truthy_list exclude_patterns) "NAMES_SCHEMA" ;;;
      check_if (truthy_str base_path) "PATH_SCHEMA" ;;;
      materials_dict <- record_artifacts_as_dict material_list exclude_patterns
                          base_path true normalize_line_endings lstrip_paths ;;
      w <- get ;;
      let environment := record_env record_environment w in
      let link := mkLink step_name materials_dict ∅ [] ∅ environment in
      let link_metadata :=
        if use_dsse then Envelope link [] else Metablock link [] false in
      let signer :=
        match signing_key with
        | Some k => SSlibSigner k
        | None =>
            if truthy_str gpg_keyid then GPGSigner gpg_keyid gpg_home
            else GPGSigner None gpg_home
        end in
      r <- create_signature link_metadata signer ;;
      let signature := fst r in
      let link_metadata := snd r in
      let signing_keyid := sig_keyid signature in
      let unfinished_fn := UNFINISHED_FILENAME_FORMAT step_name signing_keyid in
      dump link_metadata unfinished_fn.

(** Locating the preliminary link file. *)
Definition find_unfinished (step_name : string) (signing_key : option Key)
  : M string :=
  match signing_key with
  | Some k => ret (UNFINISHED_FILENAME_FORMAT step_name (keyid k))
  | None =>
      w <- get ;;
      let unfinished_fn_glob := UNFINISHED_FILENAME_FORMAT_GLOB step_name "*" in
      let unfinished_fn_list := glob E (tree w) (cwd w) unfinished_fn_glob in
      match unfinished_fn_list with
      | [] =>
          raise (LinkNotFoundError
                   ("Could not find a preliminary link for step '" +:+ step_name
                    +:+ "' in the current working directory."))
      | [unfinished_fn] => ret unfinished_fn
      | _ :: _ :: _ =>
          raise (LinkNotFoundError
                   ("Found more than one preliminary links for step '" +:+ step_name
                    +:+ "' in the current working directory: "
                    +:+ Py.join ", " unfinished_fn_list
                    +:+ ". We need exactly one to stop recording."))
      end
  end.

(** The key id and the key the preliminary link's signature is verified
    with. *)
Definition verification_key_for (link_metadata : Metadata)
  (signing_key : option Key) (gpg_keyid : option string)
  (gpg_home : option string) : M (string * Key) :=
  match signing_key with
  | Some k => ret (keyid k, k)
  | None =>
      if truthy_str gpg_keyid then
        gpg_pubkey <- lift_result (export_pubkey E (default "" gpg_keyid) gpg_home) ;;
        ret (keyid gpg_pubkey, gpg_pubkey)
      else
        (* must be gpg_use_default *)
        match get_signatures link_metadata with
        | [] => raise (IndexError "list index out of range")
        | sg :: _ =>
            let keyid := sig_keyid sg in
            gpg_pubkey <- lift_result (export_pubkey E keyid gpg_home) ;;
            ret (keyid, gpg_pubkey)
        end
  end.

Definition in_toto_record_stop (step_name : string) (product_list : list string)
  (signing_key : option Key) (gpg_keyid : option string)
  (gpg_use_default : bool) (gpg_home : option string)
  (exclude_patterns : option (list string)) (base_path : option string)
  (normalize_line_endings : bool) (lstrip_paths : option (list string))
  (metadata_directory : option string) : M unit :=
  (* Check that we have something to sign and if the formats are right *)
  if no_key_argument signing_key gpg_keyid gpg_use_default then
    raise (ValueError
             "Pass either a signing key, a gpg keyid or set gpg_use_default to True")
  else
      check_key_formats signing_key gpg_keyid ;;;
      check_if (truthy_list exclude_patterns) "NAMES_SCHEMA" ;;;
      check_if (truthy_str base_path) "PATH_SCHEMA" ;;;
      check_if (truthy_str metadata_directory) "PATH_SCHEMA" ;;;
      (* Load preliminary link file *)
      unfinished_fn <- find_unfinished step_name signing_key ;;
      link_metadata <- load unfinished_fn ;;
      (* The file must have been signed by the same key *)
      kv <- verification_key_for link_metadata signing_key gpg_keyid gpg_home ;;
      let keyid := fst kv in
      let verification_key := snd kv in
      verify_signature link_metadata verification_key ;;;
      let link := get_payload link_metadata in
      (* Record products if a product path list was passed *)
      products <- record_artifacts_as_dict product_list exclude_patterns
                    base_path true normalize_line_endings lstrip_paths ;;
      let link := mkLink (link_name link) (materials link) products
                    (command link) (byproducts link) (environment link) in
      let link_metadata :=
        match link_metadata with
        | Metablock _ _ _ => Metablock link [] false
        | Envelope _ _ => Envelope link []
        end in
      let signer :=
        match signing_key with
        | Some k => SSlibSigner k
        | None => GPGSigner (Some keyid) gpg_home
        end in
      r <- create_signature link_metadata signer ;;
      let link_metadata := snd r in
      let fn := FILENAME_FORMAT step_name keyid in
      let fn :=
        match metadata_directory with
        | Some d => os_path.join d fn
        | None => fn
        end in
      dump link_metadata fn ;;;
      os_remove unfinished_fn.

End Runlib.

(** ** A concrete environment *)

Module Demo.

(** pathspec on wildcard-free, slash-free patterns: such a pattern matches a
    path when it names one of its components. *)
Definition literal_match (pats : list string) (path : string) : bool :=
  existsb (fun comp => existsb (String.eqb comp) pats) (Py.split Py.slash path).

Lemma literal_match_nil path : literal_match [] path = false.
Proof. unfold literal_match. induction (Py.split Py.slash path); simpl; auto. Qed.

Definition demo_digest (alg : string) (nle : bool) (c : content) : string :=
  match c with
  | Raw b => alg +:+ ":" +:+ b
  | Serialized _ => alg +:+ ":metadata"
  end.

Fixpoint repeat_char (c : ascii) (n : nat) : string :=
  match n with
  | O => EmptyString
  | S n' => String c (repeat_char c n')
  end.

(** [echo]: writes two characters and exits before the first poll. *)
Definition echo : proc := mkProc 0 [] "hi" "" 0 (fun t => t) (fun t => t).

(** [slow]: still running when the clock, at the third poll, is past the
    ten units of the timeout. *)
Definition slow : proc :=
  mkProc 0 [mkTick 1 "a" ""; mkTick 5 "b" "e"; mkTick 11 "c" ""; mkTick 12 "d" ""]
    "z" "" 0 (fun t => t) (fun t => t).

(** [loud]: has written nothing when the first poll finds it running, then
    writes one character more than a read chunk holds and exits before the
    second poll. *)
Definition loud : proc :=
  mkProc 0 [mkTick 1 "" ""] (repeat_char "a" (S DEFAULT_BUFFER_SIZE)) "" 0
    (fun t => t) (fun t => t).

Definition demo_popen (cmd : list string) : result proc :=
  match cmd with
  | ["echo"] => Ok echo
  | ["slow"] => Ok slow
  | ["loud"] => Ok loud
  | _ => Err (OSError "No such file or directory")
  end.

Definition demo_sign (s : Signer) (l : Link) : result Signature :=
  match s with
  | SSlibSigner k => Ok (mkSignature (keyid k) "sig")
  | GPGSigner (Some k) _ => Ok (mkSignature k "gpgsig")
  | GPGSigner None _ => Ok (mkSignature "d3fa0170aa" "gpgsig")
  end.

Definition demo_verify (k : Key) (l : Link) (sigs : list Signature) : bool :=
  existsb (fun s => String.eqb (sig_keyid s) (keyid k)) sigs.

Definition demo_glob (t : node) (from : list string) (pattern : string)
  : list string :=
  match lookup_node from t, Py.split "*"%char pattern with
  | Some (Dir es), [pre; suf] =>
      List.filter
        (fun n => Py.startswith n pre && Py.endswith n suf
                  && (String.length pre + String.length suf <=? String.length n)%nat)
        (map fst es)
  | _, _ => []
  end.

Definition env : Env :=
  mkEnv literal_match demo_digest demo_popen (fun s => negb (String.eqb s ""))
    demo_sign demo_verify (fun kid _ => Ok (mkKey kid true "" "pub")) demo_glob
    literal_match_nil.

Definition t0 : node :=
  Dir [("x", File true (Raw "1"));
       ("sub", Dir [("x", File true (Raw "2")); ("y", File true (Raw "3"))]);
       ("ex", Dir [("z", File true (Raw "4"))])].

Definition w0 : World := mkWorld t0 [] (mkSettings None None 10) ∅ 0 [].

Definition alice : Key := mkKey "a11ce00011" true "priv" "pub".
Definition bob : Key := mkKey "b0b0000022" true "priv" "pub".
(** a third key, whose id shares its first eight characters with alice's *)
Definition carol : Key := mkKey "a11ce000ff" true "priv" "pub".

(** the world after [in_toto_record_start] with alice's key *)
Definition w_started : World :=
  snd (in_toto_record_start env "step" ["x"] (Some alice) None false None None None
         false false None false w0).

(** the same, with a second preliminary link, signed by bob *)
Definition w_started_twice : World :=
  snd (in_toto_record_start env "step" ["x"] (Some bob) None false None None None
         false false None false w_started).

(** the preliminary link that [w_started] holds *)
Definition preliminary : Metadata :=
  Metablock (mkLink "step" {["x" := {["sha256" := "sha256:1"]}]} ∅ [] ∅ ∅)
    [mkSignature "a11ce00011" "sig"] false.

(** the files of [t0] outside the directory [ex] *)
Definition scanned : gmap string (gmap string string) :=
  <["x" := {["sha256" := "sha256:1"]}]>
    (<["sub/x" := {["sha256" := "sha256:2"]}]>
       (<["sub/y" := {["sha256" := "sha256:3"]}]> ∅)).

End Demo.

(** * Properties *)

Local Arguments String.append : simpl nomatch.

(** ** Splitting and joining paths *)

Definition noslash (s : string) : Prop := Py.contains Py.slash s = false.

Lemma split_nonempty c s : Py.split c s <> [].
Proof. destruct s as [|a s]; simpl; [easy|]. destruct (Ascii.eqb a c); [easy|]. destruct (Py.split c s); easy. Qed.

Lemma split_noslash s : noslash s -> Py.split Py.slash s = [s].
Proof.
  unfold noslash. induction s as [|a s IH]; simpl; [easy|].
  intros H. apply orb_false_iff in H as [Ha Hs].
  rewrite Ha, (IH Hs). reflexivity.
Qed.

Lemma split_app_slash a b :
  noslash a -> Py.split Py.slash (a +:+ String Py.slash b) = a :: Py.split Py.slash b.
Proof.
  unfold noslash. induction a as [|c a IH]; simpl.
  - intros _. reflexivity.
  - intros H. apply orb_false_iff in H as [Hc Ha].
    rewrite Hc, (IH Ha). reflexivity.
Qed.

Lemma split_all_noslash s : Forall noslash (Py.split Py.slash s).
Proof.
  induction s as [|a s IH]; simpl.
  - repeat constructor.
  - destruct (Ascii.eqb a Py.slash) eqn:Ha.
    + constructor; [reflexivity | exact IH].
    + destruct (Py.split Py.slash s) as [|x xs] eqn:Hs.
      * constructor; [|constructor]. unfold noslash; simpl. rewrite Ha. reflexivity.
      * inversion IH; subst. constructor; [|assumption].
        unfold noslash in *; simpl. rewrite Ha. assumption.
Qed.

Lemma join_cons2 a b l :
  Py.join "/" (a :: b :: l) = a +:+ String Py.slash (Py.join "/" (b :: l)).
Proof. reflexivity. Qed.

Lemma split_join l :
  l <> [] -> Forall noslash l -> Py.split Py.slash (Py.join "/" l) = l.
Proof.
  induction l as [|a l IH]; [easy|]. intros _ H. inversion H; subst.
  destruct l as [|b l].
  - simpl. apply split_noslash. assumption.
  - rewrite join_cons2, split_app_slash by assumption.
    f_equal. apply IH; [easy | assumption].
Qed.

Lemma split_app_noslash a b :
  noslash b ->
  Py.split Py.slash (a +:+ b)
  = removelast (Py.split Py.slash a) ++ [List.last (Py.split Py.slash a) "" +:+ b].
Proof.
  intros Hb. induction a as [|c a IH]; simpl.
  - apply split_noslash. assumption.
  - destruct (Ascii.eqb c Py.slash).
    + rewrite IH. pose proof (split_nonempty Py.slash a) as Hne.
      destruct (Py.split Py.slash a) as [|x xs]; [easy|]. reflexivity.
    + rewrite IH. pose proof (split_nonempty Py.slash a) as Hne.
      destruct (Py.split Py.slash a) as [|x xs]; [easy|].
      destruct xs as [|y ys]; reflexivity.
Qed.

Lemma split_snoc_slash a :
  Py.split Py.slash (a +:+ "/") = Py.split Py.slash a ++ [""].
Proof.
  induction a as [|c a IH]; simpl; [reflexivity|].
  destruct (Ascii.eqb c Py.slash).
  - rewrite IH. reflexivity.
  - rewrite IH. pose proof (split_nonempty Py.slash a) as Hne.
    destruct (Py.split Py.slash a) as [|x xs]; [easy|]. reflexivity.
Qed.

(** ** Normal component lists *)

(** proper components *)
Definition proper (c : string) : Prop :=
  String.eqb c "" = false /\ String.eqb c "." = false /\ String.eqb c ".." = false.

Lemma valid_name_inv n : valid_name n = true -> proper n /\ noslash n.
Proof.
  unfold valid_name, proper, noslash. intros H.
  repeat (apply andb_true_iff in H as [H ?]).
  repeat match goal with H : negb _ = true |- _ => apply negb_true_iff in H end.
  auto.
Qed.

Lemma norm_step_proper r st c : proper c -> os_path.norm_step r st c = c :: st.
Proof. intros (H1 & H2 & H3). unfold os_path.norm_step. rewrite H1, H2, H3. reflexivity. Qed.

Lemma norm_comps_snoc_proper r l c :
  proper c -> os_path.norm_comps r (l ++ [c]) = os_path.norm_comps r l ++ [c].
Proof.
  intros H. unfold os_path.norm_comps. rewrite fold_left_app. simpl.
  rewrite norm_step_proper by assumption. reflexivity.
Qed.

Lemma norm_comps_snoc_empty r l :
  os_path.norm_comps r (l ++ [""]) = os_path.norm_comps r l.
Proof. unfold os_path.norm_comps. rewrite fold_left_app. reflexivity. Qed.

Lemma norm_comps_cons_empty r l :
  os_path.norm_comps r ("" :: l) = os_path.norm_comps r l.
Proof. reflexivity. Qed.

(** normal stacks (reversed component lists) *)
Inductive ns (rooted : bool) : list string -> Prop :=
| ns_nil : ns rooted []
| ns_name c st : proper c -> noslash c -> ns rooted st -> ns rooted (c :: st)
| ns_up st : rooted = false -> Forall (eq "..") st -> ns rooted (".." :: st).

Lemma ns_ups r st : r = false -> Forall (eq "..") st -> ns r st.
Proof.
  intros Hr. induction st as [|c st IH]; intros H; [constructor|].
  inversion H as [|? ? Hc Hst]. rewrite <- Hc. apply ns_up; assumption.
Qed.

Lemma ns_step r st c : noslash c -> ns r st -> ns r (os_path.norm_step r st c).
Proof.
  intros Hc H. unfold os_path.norm_step.
  destruct (String.eqb c "") eqn:E1; [assumption|].
  destruct (String.eqb c ".") eqn:E2; [assumption|].
  destruct (String.eqb c "..") eqn:E3; simpl.
  - apply String.eqb_eq in E3. subst c.
    destruct st as [|l b].
    + destruct r eqn:Er; [constructor|]. apply ns_up; [reflexivity|constructor].
    + destruct (String.eqb l "..") eqn:E4.
      * apply String.eqb_eq in E4. subst l.
        inversion H; subst.
        -- destruct H2 as (_ & _ & H2). discriminate.
        -- apply ns_up; [assumption|]. constructor; [reflexivity|assumption].
      * inversion H; subst; [assumption|]. discriminate.
  - apply ns_name; [repeat split; assumption | assumption | assumption].
Qed.

Lemma ns_fold r l st :
  Forall noslash l -> ns r st -> ns r (fold_left (os_path.norm_step r) l st).
Proof.
  intros Hl. revert st. induction Hl as [|c l Hc Hl IH]; intros st H; simpl; [assumption|].
  apply IH, ns_step; assumption.
Qed.

Lemma ns_id r st : ns r st -> fold_left (os_path.norm_step r) (rev st) [] = st.
Proof.
  induction 1 as [|c st Hc Hs H IH|st Hr Hall].
  - reflexivity.
  - simpl. rewrite fold_left_app, IH. simpl. apply norm_step_proper. assumption.
  - simpl. rewrite fold_left_app.
    assert (IH : fold_left (os_path.norm_step r) (rev st) [] = st).
    { clear -Hr Hall. induction Hall as [|c st Hc Hall IH]; [reflexivity|].
      subst c. simpl. rewrite fold_left_app, IH. simpl.
      unfold os_path.norm_step. simpl. destruct st as [|l b]; [rewrite Hr; reflexivity|].
      inversion Hall; subst. reflexivity. }
    rewrite IH. simpl. unfold os_path.norm_step. simpl.
    destruct st as [|l b]; [rewrite Hr; reflexivity|].
    inversion Hall; subst. reflexivity.
Qed.

Lemma ns_noslash r st : ns r st -> Forall noslash st.
Proof.
  induction 1 as [|c st Hc Hs H IH|st Hr Hall]; [constructor|constructor; assumption|].
  constructor; [reflexivity|]. eapply Forall_impl; [exact Hall|].
  intros a <-. reflexivity.
Qed.

Lemma ns_nonempty r st : ns r st -> Forall (fun c => String.eqb c "" = false) st.
Proof.
  induction 1 as [|c st Hc Hs H IH|st Hr Hall]; [constructor|constructor; [apply Hc|assumption]|].
  constructor; [reflexivity|]. eapply Forall_impl; [exact Hall|].
  intros a <-. reflexivity.
Qed.

(** the component list [normpath] computes is a fixed point of [norm_comps] *)
Definition normal (r : bool) (cs : list string) : Prop := ns r (rev cs).

Lemma norm_comps_normal r l : Forall noslash l -> normal r (os_path.norm_comps r l).
Proof.
  intros H. unfold normal, os_path.norm_comps. rewrite rev_involutive.
  apply ns_fold; [assumption | constructor].
Qed.

Lemma normal_id r cs : normal r cs -> os_path.norm_comps r cs = cs.
Proof.
  intros H. unfold os_path.norm_comps.
  rewrite <- (rev_involutive cs) at 1. rewrite (ns_id _ _ H). apply rev_involutive.
Qed.

Lemma normal_noslash r cs : normal r cs -> Forall noslash cs.
Proof.
  intros H. apply ns_noslash in H. apply List.Forall_rev in H.
  rewrite rev_involutive in H. exact H.
Qed.

Lemma normal_nonempty r cs : normal r cs -> Forall (fun c => String.eqb c "" = false) cs.
Proof.
  intros H. apply ns_nonempty in H. apply List.Forall_rev in H.
  rewrite rev_involutive in H. exact H.
Qed.

(** ** [normpath] through its component list *)

(** leading slashes *)
Fixpoint lead (s : string) : nat :=
  match s with
  | String c r => if Ascii.eqb c Py.slash then S (lead r) else 0
  | EmptyString => 0
  end.

Lemma startswith_cons s c p :
  Py.startswith (String c s) (String c p) = Py.startswith s p.
Proof. unfold Py.startswith. simpl. destruct (ascii_dec c c); [reflexivity|easy]. Qed.

Lemma startswith_cons_ne s c d p :
  c <> d -> Py.startswith (String c s) (String d p) = false.
Proof. intros H. unfold Py.startswith. simpl. destruct (ascii_dec d c); [subst; easy|reflexivity]. Qed.

Lemma startswith_nil s : Py.startswith s "" = true.
Proof. unfold Py.startswith. destruct s; reflexivity. Qed.

Lemma initial_slashes_lead s :
  os_path.initial_slashes s = match lead s with 0 => 0 | 2 => 2 | _ => 1 end.
Proof.
  unfold os_path.initial_slashes.
  destruct s as [|a s]; [reflexivity|]. simpl lead.
  destruct (Ascii.eqb a Py.slash) eqn:Ea.
  2:{ rewrite startswith_cons_ne; [reflexivity|]. intros ->. discriminate. }
  apply Ascii.eqb_eq in Ea. subst a.
  change "/" with (String Py.slash "") at 1. rewrite startswith_cons, startswith_nil.
  change "//" with (String Py.slash (String Py.slash "")).
  change "///" with (String Py.slash (String Py.slash (String Py.slash ""))).
  rewrite !startswith_cons.
  destruct s as [|b s]; [reflexivity|]. simpl lead.
  destruct (Ascii.eqb b Py.slash) eqn:Eb.
  2:{ rewrite startswith_cons_ne; [reflexivity|]. intros ->. discriminate. }
  apply Ascii.eqb_eq in Eb. subst b. rewrite !startswith_cons, startswith_nil.
  destruct s as [|c s]; [reflexivity|]. simpl lead.
  destruct (Ascii.eqb c Py.slash) eqn:Ec.
  2:{ rewrite startswith_cons_ne; [reflexivity|]. intros ->. discriminate. }
  apply Ascii.eqb_eq in Ec. subst c. rewrite startswith_cons, startswith_nil. reflexivity.
Qed.

Lemma initial_slashes_le2 s : os_path.initial_slashes s <= 2.
Proof. rewrite initial_slashes_lead. destruct (lead s) as [|[|[|?]]]; lia. Qed.

Lemma lead_app x y : lead y = 0 -> lead (x +:+ y) = lead x.
Proof.
  intros Hy. induction x as [|a x IH]; simpl; [assumption|].
  destruct (Ascii.eqb a Py.slash); [f_equal; assumption|reflexivity].
Qed.

Lemma noslash_lead c : String.eqb c "" = false -> noslash c -> lead c = 0.
Proof.
  destruct c as [|a c]; [discriminate|]. intros _ H. unfold noslash in H. simpl in H.
  apply orb_false_iff in H as [H _]. simpl. rewrite H. reflexivity.
Qed.

(** [endswith] *)
Lemma endswith_cons a b r :
  Py.endswith (String a (String b r)) "/" = Py.endswith (String b r) "/".
Proof. unfold Py.endswith. simpl. rewrite Nat.sub_0_r. reflexivity. Qed.

Lemma endswith_inv x : Py.endswith x "/" = true -> exists y, x = y +:+ "/".
Proof.
  induction x as [|a x IH]; [discriminate|].
  destruct x as [|b x].
  - unfold Py.endswith. simpl. intros H. apply andb_true_iff in H as [H _].
    destruct (Ascii.eqb a "/") eqn:Ea; [|discriminate].
    apply Ascii.eqb_eq in Ea. subst a. exists "". reflexivity.
  - rewrite endswith_cons. intros H. destruct (IH H) as [y Hy].
    exists (String a y). rewrite Hy. reflexivity.
Qed.

Lemma lead_app_open x y :
  String.eqb x "" = false -> Py.endswith x "/" = false -> lead (x +:+ y) = lead x.
Proof.
  induction x as [|a x IH]; [discriminate|]. intros _ H.
  simpl. destruct (Ascii.eqb a Py.slash) eqn:Ea; [|reflexivity].
  f_equal. destruct x as [|b x].
  - apply Ascii.eqb_eq in Ea. subst a. discriminate.
  - rewrite endswith_cons in H. apply IH; [reflexivity | assumption].
Qed.

(** the string [normpath] builds from its components *)
Definition lead_prefix (n : nat) : string :=
  match n with 0 => "" | 1 => "/" | _ => "//" end.

Definition render (n : nat) (cs : list string) : string :=
  let p := lead_prefix n +:+ Py.join "/" cs in
  if String.eqb p "" then "." else p.

Lemma normpath_render path :
  String.eqb path "" = false ->
  os_path.normpath path
  = render (os_path.initial_slashes path)
      (os_path.norm_comps (0 <? os_path.initial_slashes path)%nat
         (Py.split Py.slash path)).
Proof.
  intros H. unfold os_path.normpath, render. rewrite H.
  destruct (os_path.initial_slashes path) as [|[|?]]; reflexivity.
Qed.

Lemma app_empty_r (s : string) : s +:+ "" = s.
Proof. induction s as [|a s IH]; simpl; [reflexivity | f_equal; exact IH]. Qed.

Lemma join_head c cs :
  exists t, Py.join "/" (c :: cs) = c +:+ t /\ (cs = [] -> t = "").
Proof.
  destruct cs as [|d cs].
  - exists "". split; [|reflexivity]. change (Py.join "/" [c]) with c.
    symmetry. apply app_empty_r.
  - eexists. split; [apply join_cons2 | easy].
Qed.

Lemma app_assoc_s (a b c : string) : (a +:+ b) +:+ c = a +:+ (b +:+ c).
Proof. induction a as [|x a IH]; simpl; [reflexivity | f_equal; exact IH]. Qed.

Lemma lead_join cs :
  Forall noslash cs -> Forall (fun c => String.eqb c "" = false) cs ->
  lead (Py.join "/" cs) = 0.
Proof.
  intros H1 H2. destruct cs as [|c cs]; [reflexivity|].
  inversion H1; subst. inversion H2; subst.
  destruct (join_head c cs) as (t & -> & _).
  destruct c as [|a c]; [discriminate|]. simpl.
  unfold noslash in H3. simpl in H3. apply orb_false_iff in H3 as [-> _]. reflexivity.
Qed.

Lemma render_initial n cs :
  n <= 2 -> normal (0 <? n)%nat cs -> os_path.initial_slashes (render n cs) = n.
Proof.
  intros Hn Hc. pose proof (normal_noslash _ _ Hc) as H1.
  pose proof (normal_nonempty _ _ Hc) as H2.
  pose proof (lead_join cs H1 H2) as Hl.
  rewrite initial_slashes_lead. unfold render.
  destruct n as [|[|[|n]]]; [| | |lia]; simpl lead_prefix.
  - simpl. destruct (String.eqb (Py.join "/" cs) ""); [reflexivity|].
    rewrite Hl. reflexivity.
  - simpl. rewrite Hl. reflexivity.
  - simpl. rewrite Hl. reflexivity.
Qed.

Lemma join_empty_inv cs :
  Forall (fun c => String.eqb c "" = false) cs ->
  String.eqb (Py.join "/" cs) "" = true -> cs = [].
Proof.
  intros H E. destruct cs as [|c cs]; [reflexivity|]. exfalso.
  inversion H; subst. destruct (join_head c cs) as (t & Ht & _). rewrite Ht in E.
  destruct c; [discriminate|]. discriminate.
Qed.

Lemma render_split n cs :
  n <= 2 -> normal (0 <? n)%nat cs ->
  os_path.norm_comps (0 <? n)%nat (Py.split Py.slash (render n cs)) = cs.
Proof.
  intros Hn Hc. pose proof (normal_noslash _ _ Hc) as H1.
  pose proof (normal_nonempty _ _ Hc) as H2.
  assert (Hsj : cs <> [] -> Py.split Py.slash (Py.join "/" cs) = cs).
  { intros Hne. apply split_join; assumption. }
  unfold render.
  destruct n as [|[|[|n]]]; [| | |lia]; simpl lead_prefix.
  - simpl. destruct (String.eqb (Py.join "/" cs) "") eqn:E.
    + apply join_empty_inv in E; [|assumption]. subst. reflexivity.
    + destruct cs as [|c cs]; [discriminate|]. rewrite Hsj by easy.
      apply normal_id. assumption.
  - simpl. destruct cs as [|c cs]; [reflexivity|]. rewrite Hsj by easy.
    rewrite norm_comps_cons_empty. apply normal_id. assumption.
  - simpl. destruct cs as [|c cs]; [reflexivity|]. rewrite Hsj by easy.
    rewrite !norm_comps_cons_empty. apply normal_id. assumption.
Qed.

(** two path strings that name the same directory for [normpath] *)
Definition same_dir (x y : string) : Prop :=
  os_path.initial_slashes x = os_path.initial_slashes y /\
  os_path.norm_comps (0 <? os_path.initial_slashes x)%nat (Py.split Py.slash x)
  = os_path.norm_comps (0 <? os_path.initial_slashes x)%nat (Py.split Py.slash y).

Lemma same_dir_normpath x : same_dir x (os_path.normpath x).
Proof.
  unfold same_dir. destruct (String.eqb x "") eqn:E.
  - apply String.eqb_eq in E. subst. split; reflexivity.
  - rewrite normpath_render by assumption.
    pose proof (initial_slashes_le2 x) as Hn.
    pose proof (norm_comps_normal (0 <? os_path.initial_slashes x)%nat _
                  (split_all_noslash x)) as Hc.
    split.
    + symmetry. apply render_initial; assumption.
    + symmetry. apply render_split; assumption.
Qed.

(** ** Joining a name to a directory *)

Lemma app_nonempty a f : String.eqb f "" = false -> String.eqb (a +:+ f) "" = false.
Proof. intros H. destruct a; simpl; [assumption|reflexivity]. Qed.

Lemma proper_not_abs f : proper f -> noslash f -> Py.startswith f "/" = false.
Proof.
  intros (H & _) Hs. destruct f as [|a f]; [discriminate|].
  unfold noslash in Hs. simpl in Hs. apply orb_false_iff in Hs as [Ha _].
  apply startswith_cons_ne. intros ->. discriminate.
Qed.

Lemma removelast_snoc {A} (l : list A) x : removelast (l ++ [x]) = l.
Proof. apply removelast_last. Qed.

Lemma split_dir_file z f :
  noslash f -> Py.split Py.slash ((z +:+ "/") +:+ f) = Py.split Py.slash z ++ [f].
Proof.
  intros H. rewrite split_app_noslash by assumption.
  rewrite split_snoc_slash, removelast_snoc, last_last. reflexivity.
Qed.

(** the shape of [join x f] for a file name [f] *)
Lemma join_shape x f :
  proper f -> noslash f ->
  (x = "" /\ os_path.join x f = f) \/
  (exists z, os_path.join x f = (z +:+ "/") +:+ f /\
             os_path.initial_slashes (os_path.join x f) = os_path.initial_slashes x /\
             forall r, os_path.norm_comps r (Py.split Py.slash x)
                       = os_path.norm_comps r (Py.split Py.slash z)).
Proof.
  intros Hp Hs. unfold os_path.join. rewrite (proper_not_abs f Hp Hs).
  assert (Hl : lead f = 0) by (apply noslash_lead; [apply Hp | assumption]).
  destruct (String.eqb x "") eqn:Ex.
  - apply String.eqb_eq in Ex. subst. left. split; reflexivity.
  - right. simpl. destruct (Py.endswith x "/") eqn:Ee.
    + destruct (endswith_inv x Ee) as [y Hy]. exists y. subst x.
      split; [reflexivity|]. split.
      * rewrite !initial_slashes_lead, lead_app by assumption. reflexivity.
      * intros r. rewrite split_snoc_slash. apply norm_comps_snoc_empty.
    + exists x. split; [symmetry; apply app_assoc_s|]. split; [|reflexivity].
      rewrite !initial_slashes_lead, lead_app_open by assumption. reflexivity.
Qed.

Lemma normpath_join x f :
  valid_name f = true ->
  os_path.normpath (os_path.join x f)
  = render (os_path.initial_slashes x)
      (os_path.norm_comps (0 <? os_path.initial_slashes x)%nat (Py.split Py.slash x)
       ++ [f]).
Proof.
  intros Hv. destruct (valid_name_inv f Hv) as [Hp Hs].
  destruct (join_shape x f Hp Hs) as [[-> Hj] | (z & Hj & Hi & Hn)].
  - rewrite Hj, normpath_render by apply Hp.
    rewrite initial_slashes_lead, (noslash_lead f) by (apply Hp || assumption).
    rewrite split_noslash by assumption. simpl.
    unfold os_path.norm_comps. simpl. rewrite norm_step_proper by assumption.
    reflexivity.
  - rewrite normpath_render.
    2:{ rewrite Hj. apply app_nonempty, Hp. }
    rewrite Hi. rewrite Hj at 1. rewrite split_dir_file by assumption.
    rewrite norm_comps_snoc_proper by assumption. rewrite Hn. reflexivity.
Qed.

Lemma same_dir_join x y f :
  same_dir x y -> valid_name f = true ->
  os_path.normpath (os_path.join x f) = os_path.normpath (os_path.join y f).
Proof.
  intros [Hi Hc] Hv. rewrite !normpath_join by assumption.
  rewrite <- Hi, Hc. reflexivity.
Qed.

Lemma join_snoc cs f :
  cs <> [] -> Py.join "/" (cs ++ [f]) = (Py.join "/" cs +:+ "/") +:+ f.
Proof.
  induction cs as [|c cs IH]; [easy|]. intros _.
  destruct cs as [|d cs].
  - simpl app. rewrite join_cons2. change (Py.join "/" [c]) with c.
    change (Py.join "/" [f]) with f. symmetry. apply app_assoc_s.
  - change ((c :: d :: cs) ++ [f]) with (c :: d :: (cs ++ [f])).
    rewrite !join_cons2. change (d :: cs ++ [f]) with ((d :: cs) ++ [f]).
    rewrite IH by easy. rewrite !app_assoc_s. reflexivity.
Qed.

Lemma render_snoc n cs f :
  n <= 2 -> String.eqb f "" = false ->
  exists q, render n (cs ++ [f]) = q +:+ f /\ List.last (Py.split Py.slash q) "" = "".
Proof.
  intros Hn Hf. unfold render.
  destruct cs as [|c cs].
  - simpl app. change (Py.join "/" [f]) with f.
    rewrite app_nonempty by assumption. eexists. split; [reflexivity|].
    destruct n as [|[|[|n]]]; [reflexivity..|lia].
  - rewrite join_snoc by easy. rewrite app_nonempty by (apply app_nonempty; assumption).
    rewrite <- app_assoc_s. eexists. split; [reflexivity|].
    rewrite <- app_assoc_s, split_snoc_slash, last_last. reflexivity.
Qed.

Lemma basename_normpath_join x f :
  valid_name f = true -> os_path.basename (os_path.normpath (os_path.join x f)) = f.
Proof.
  intros Hv. destruct (valid_name_inv f Hv) as [Hp Hs].
  rewrite normpath_join by assumption.
  destruct (render_snoc (os_path.initial_slashes x)
              (os_path.norm_comps (0 <? os_path.initial_slashes x)%nat
                 (Py.split Py.slash x)) f (initial_slashes_le2 x) (proj1 Hp))
    as (q & -> & Hq).
  unfold os_path.basename. rewrite split_app_noslash by assumption.
  rewrite last_last, Hq. reflexivity.
Qed.

(** walking into a surviving sub-directory keeps track of its filtered path *)
Lemma same_dir_descend root dn :
  valid_name dn = true ->
  same_dir
    (os_path.join root (os_path.basename (os_path.normpath (os_path.join root dn))))
    (os_path.normpath (os_path.join root dn)).
Proof.
  intros Hv. rewrite basename_normpath_join by assumption. apply same_dir_normpath.
Qed.

(** ** Reasoning about computations in [M] *)

Lemma bind_inv {A B} (c : M A) (k : A -> M B) w r w' :
  bind c k w = (r, w') ->
  (exists a w1, c w = (Ok a, w1) /\ k a w1 = (r, w')) \/
  (exists e, c w = (Err e, w') /\ r = Err e).
Proof.
  unfold bind. destruct (c w) as [[a|e] w1]; intros H.
  - left. eauto.
  - right. inversion H; subst. eauto.
Qed.

Lemma bind_ok {A B} (c : M A) (k : A -> M B) w a w1 :
  c w = (Ok a, w1) -> bind c k w = k a w1.
Proof. intros H. unfold bind. rewrite H. reflexivity. Qed.

Lemma bind_err {A B} (c : M A) (k : A -> M B) w e w1 :
  c w = (Err e, w1) -> bind c k w = (Err e, w1).
Proof. intros H. unfold bind. rewrite H. reflexivity. Qed.

(** A computation [c] preserves the relation [R] between the state it
    starts in and the state it ends in, whether it returns or raises. *)
Definition preserves (R : relation World) {A} (c : M A) : Prop :=
  forall w, R w (snd (c w)).

Section Preserves.

Context (R : relation World) `{!PreOrder R}.

Lemma preserves_ret {A} (a : A) : preserves R (ret a).
Proof. intros w. simpl. reflexivity. Qed.

Lemma preserves_raise {A} e : preserves R (@raise A e).
Proof. intros w. simpl. reflexivity. Qed.

Lemma preserves_get : preserves R get.
Proof. intros w. simpl. reflexivity. Qed.

Lemma preserves_lift {A} (r : result A) : preserves R (lift_result r).
Proof. intros w. simpl. reflexivity. Qed.

Lemma preserves_bind {A B} (c : M A) (k : A -> M B) :
  preserves R c -> (forall a, preserves R (k a)) -> preserves R (bind c k).
Proof.
  intros Hc Hk w. unfold bind. specialize (Hc w).
  destruct (c w) as [[a|e] w1]; simpl in *; [|assumption].
  etransitivity; [exact Hc | apply Hk].
Qed.

Lemma preserves_for_each {A S} (l : list A) (body : A -> S -> M S) s :
  (forall x s, preserves R (body x s)) -> preserves R (for_each l body s).
Proof.
  intros Hb. revert s. induction l as [|x l IH]; intros s; simpl.
  - apply preserves_ret.
  - apply preserves_bind; [apply Hb | intros s'; apply IH].
Qed.

Lemma preserves_try_finally {A} (c : M A) fin :
  preserves R c -> preserves R fin -> preserves R (try_finally c fin).
Proof.
  intros Hc Hf w. unfold try_finally. specialize (Hc w).
  destruct (c w) as [r w1]. specialize (Hf w1).
  destruct (fin w1) as [[[]|e] w2]; simpl in *; etransitivity; eassumption.
Qed.

Lemma preserves_try_except {A} (c : M A) h :
  preserves R c -> preserves R (try_except c h).
Proof.
  intros Hc w. unfold try_except. specialize (Hc w).
  destruct (c w) as [[a|e] w1]; simpl in *; assumption.
Qed.

End Preserves.

(** the new events of a run all satisfy [P] *)
Definition tr_ext (P : event -> Prop) (w w' : World) : Prop :=
  exists evs, trace w' = trace w ++ evs /\ Forall P evs.

Global Instance tr_ext_preorder P : PreOrder (tr_ext P).
Proof.
  split.
  - intros w. exists []. split; [symmetry; apply app_nil_r | constructor].
  - intros w1 w2 w3 (e1 & H1 & F1) (e2 & H2 & F2). exists (e1 ++ e2). split.
    + rewrite H2, H1, app_assoc. reflexivity.
    + apply Forall_app. split; assumption.
Qed.

(** the projection [f] of the state is left as it is *)
Definition fixes {X} (f : World -> X) (w w' : World) : Prop := f w' = f w.

Global Instance fixes_preorder {X} (f : World -> X) : PreOrder (fixes f).
Proof.
  split.
  - intros w. reflexivity.
  - intros w1 w2 w3 H1 H2. unfold fixes in *. congruence.
Qed.

Definition rel_and (R1 R2 : relation World) : relation World :=
  fun w w' => R1 w w' /\ R2 w w'.

Global Instance rel_and_preorder R1 R2 `{!PreOrder R1, !PreOrder R2} :
  PreOrder (rel_and R1 R2).
Proof.
  split.
  - intros w. split; reflexivity.
  - intros w1 w2 w3 [A1 A2] [B1 B2]. split; etransitivity; eassumption.
Qed.

Lemma preserves_and R1 R2 {A} (c : M A) :
  preserves R1 c -> preserves R2 c -> preserves (rel_and R1 R2) c.
Proof. intros H1 H2 w. split; [apply H1 | apply H2]. Qed.

Lemma preserves_weaken (R1 R2 : relation World) {A} (c : M A) :
  (forall w w', R1 w w' -> R2 w w') -> preserves R1 c -> preserves R2 c.
Proof. intros H Hc w. apply H, Hc. Qed.

Lemma tr_ext_weaken (P Q : event -> Prop) w w' :
  (forall e, P e -> Q e) -> tr_ext P w w' -> tr_ext Q w w'.
Proof.
  intros H (evs & Ht & Hf). exists evs. split; [assumption|].
  eapply Forall_impl; eassumption.
Qed.

Lemma preserves_emit P e : P e -> preserves (tr_ext P) (emit e).
Proof. intros H w. exists [e]. split; [reflexivity | repeat constructor; assumption]. Qed.

Lemma preserves_set_tree P t : preserves (tr_ext P) (set_tree t).
Proof. intros w. exists []. split; [symmetry; apply app_nil_r | constructor]. Qed.

Lemma preserves_set_cwd P d : preserves (tr_ext P) (set_cwd d).
Proof. intros w. exists []. split; [symmetry; apply app_nil_r | constructor]. Qed.

Lemma preserves_set_temps P t n : preserves (tr_ext P) (set_temps t n).
Proof. intros w. exists []. split; [symmetry; apply app_nil_r | constructor]. Qed.

(** ** Induction on file trees *)

Section NodeInd.

Variable P : node -> Prop.
Hypothesis HFile : forall r c, P (File r c).
Hypothesis HDangling : P Dangling.
Hypothesis HDir : forall es, List.Forall (fun e => P (snd e)) es -> P (Dir es).
Hypothesis HLinkDir : forall es, List.Forall (fun e => P (snd e)) es -> P (LinkDir es).

Fixpoint node_tree_ind (n : node) : P n :=
  match n with
  | File r c => HFile r c
  | Dangling => HDangling
  | Dir es =>
      HDir es ((fix go (l : list (string * node)) : List.Forall (fun e => P (snd e)) l :=
                  match l with
                  | [] => List.Forall_nil _
                  | e :: r => List.Forall_cons _ e r (node_tree_ind (snd e)) (go r)
                  end) es)
  | LinkDir es =>
      HLinkDir es ((fix go (l : list (string * node)) : List.Forall (fun e => P (snd e)) l :=
                      match l with
                      | [] => List.Forall_nil _
                      | e :: r => List.Forall_cons _ e r (node_tree_ind (snd e)) (go r)
                      end) es)
  end.

End NodeInd.

(** ** The walk *)

Section WalkFacts.

Context {S : Type}.
Variable body : string -> list string -> list string -> S -> M (list string * S).
Variable followlinks : bool.

Definition subwalks (es : list (string * node))
  : list (string * (bool * (string -> S -> M S))) :=
  map (fun e => (fst e, (is_link_node (snd e), os_walk body followlinks (snd e)))) es.

Lemma os_walk_dir es top s :
  os_walk body followlinks (Dir es) top s
  = walk_dir body followlinks (subwalks es) es top s.
Proof.
  reflexivity.
Qed.

Lemma os_walk_linkdir es top s :
  os_walk body followlinks (LinkDir es) top s
  = walk_dir body followlinks (subwalks es) es top s.
Proof.
  reflexivity.
Qed.

Lemma find_walk_subwalks name es islink walk :
  find_walk name (subwalks es) = Some (islink, walk) ->
  exists e, In e es /\ walk = os_walk body followlinks (snd e).
Proof.
  induction es as [|e r IH]; simpl; [discriminate|].
  destruct (String.eqb (fst e) name).
  - intros H. inversion H; subst. exists e. split; [left; reflexivity | reflexivity].
  - intros H. destruct (IH H) as (e' & Hin & Hw). exists e'. split; [right; assumption | assumption].
Qed.

Lemma preserves_os_walk (R : relation World) `{!PreOrder R} :
  (forall top dirs files s, preserves R (body top dirs files s)) ->
  forall n top s, preserves R (os_walk body followlinks n top s).
Proof.
  intros Hb n.
  assert (Hdir : forall es,
             List.Forall (fun e => forall top s,
                              preserves R (os_walk body followlinks (snd e) top s)) es ->
             forall top s, preserves R (walk_dir body followlinks (subwalks es) es top s)).
  { intros es IH top s. unfold walk_dir.
    apply preserves_bind; [assumption | apply Hb |]. intros r.
    apply preserves_for_each; [assumption|]. intros dirname s'.
    destruct (find_walk dirname (subwalks es)) as [[islink walk]|] eqn:Hf.
    - destruct (followlinks || negb islink).
      + apply find_walk_subwalks in Hf as (e & Hin & ->).
        rewrite List.Forall_forall in IH. apply IH. assumption.
      + apply preserves_ret. assumption.
    - apply preserves_ret. assumption. }
  induction n as [r c| |es IH|es IH] using node_tree_ind; intros top s.
  - apply preserves_ret. assumption.
  - apply preserves_ret. assumption.
  - intros w. rewrite os_walk_dir. apply Hdir. exact IH.
  - intros w. rewrite os_walk_linkdir. apply Hdir. exact IH.
Qed.

End WalkFacts.

(** ** Frames *)

(** [frame kt kc km P]: the settings are left alone, so is the file tree
    when [kt], the working directory when [kc] and the temporary files when
    [km]; the events added to the trace all satisfy [P]. *)
Definition frame (kt kc km : bool) (P : event -> Prop) : relation World :=
  fun w w' =>
    (kt = true -> tree w' = tree w) /\
    (kc = true -> cwd w' = cwd w) /\
    (km = true -> temps w' = temps w /\ next_temp w' = next_temp w) /\
    settings w' = settings w /\
    tr_ext P w w'.

Global Instance frame_preorder kt kc km P : PreOrder (frame kt kc km P).
Proof.
  split.
  - intros w. unfold frame. split; [reflexivity|]. split; [reflexivity|].
    split; [intros _; split; reflexivity|]. split; reflexivity.
  - intros w1 w2 w3 (A1 & A2 & A3 & A4 & A5) (B1 & B2 & B3 & B4 & B5).
    split; [intros H; rewrite (B1 H); auto|].
    split; [intros H; rewrite (B2 H); auto|].
    split; [intros H; destruct (A3 H), (B3 H); split; congruence|].
    split; [congruence|]. etransitivity; eassumption.
Qed.

Lemma frame_weaken (kt kc km kt' kc' km' : bool) (P Q : event -> Prop) w w' :
  (kt' = true -> kt = true) -> (kc' = true -> kc = true) ->
  (km' = true -> km = true) -> (forall e, P e -> Q e) ->
  frame kt kc km P w w' -> frame kt' kc' km' Q w w'.
Proof.
  intros H1 H2 H3 HP (A1 & A2 & A3 & A4 & A5).
  repeat split; auto; try (apply A3; auto).
  eapply tr_ext_weaken; eassumption.
Qed.

Lemma frame_emit kt kc km (P : event -> Prop) e :
  P e -> preserves (frame kt kc km P) (emit e).
Proof.
  intros H w. unfold frame. simpl.
  split; [reflexivity|]. split; [reflexivity|]. split; [intros _; split; reflexivity|].
  split; [reflexivity|].
  exists [e]. split; [reflexivity | repeat constructor; assumption].
Qed.

Lemma frame_set_tree kc km P t : preserves (frame false kc km P) (set_tree t).
Proof.
  intros w. unfold frame. simpl.
  split; [try discriminate; reflexivity|]. split; [try discriminate; reflexivity|].
  split; [try discriminate; intros _; split; reflexivity|]. split; [reflexivity|].
  exists []. split; [symmetry; apply app_nil_r | constructor].
Qed.

Lemma frame_set_cwd kt km P d : preserves (frame kt false km P) (set_cwd d).
Proof.
  intros w. unfold frame. simpl.
  split; [try discriminate; reflexivity|]. split; [try discriminate; reflexivity|].
  split; [try discriminate; intros _; split; reflexivity|]. split; [reflexivity|].
  exists []. split; [symmetry; apply app_nil_r | constructor].
Qed.

Lemma frame_set_temps kt kc P t n : preserves (frame kt kc false P) (set_temps t n).
Proof.
  intros w. unfold frame. simpl.
  split; [try discriminate; reflexivity|]. split; [try discriminate; reflexivity|].
  split; [try discriminate; intros _; split; reflexivity|]. split; [reflexivity|].
  exists []. split; [symmetry; apply app_nil_r | constructor].
Qed.

(** Decomposing a goal [preserves R c] along the structure of [c]. *)
Ltac pres_struct :=
  lazymatch goal with
  | |- preserves _ (ret _) => apply preserves_ret; try exact _
  | |- preserves _ (raise _) => apply preserves_raise; try exact _
  | |- preserves _ get => apply preserves_get; try exact _
  | |- preserves _ (lift_result _) => apply preserves_lift; try exact _
  | |- preserves _ (bind _ _) => apply preserves_bind; [try exact _ | | intros ?]
  | |- preserves _ (for_each _ _ _) => apply preserves_for_each; [try exact _ | intros ? ?]
  | |- preserves _ (try_finally _ _) => apply preserves_try_finally; [try exact _ | | ]
  | |- preserves _ (try_except _ _) => apply preserves_try_except
  | |- preserves _ (os_walk _ _ _ _ _) =>
      apply preserves_os_walk; [try exact _ | intros ? ? ? ?]
  | |- preserves _ (if ?b then _ else _) => destruct b
  | |- preserves _ (match ?x with _ => _ end) => destruct x
  | |- preserves (frame _ _ _ _) (emit _) =>
      apply frame_emit; simpl; try solve [auto 10 | discriminate]
  | |- preserves (frame _ _ _ _) (set_tree _) => apply frame_set_tree
  | |- preserves (frame _ _ _ _) (set_cwd _) => apply frame_set_cwd
  | |- preserves (frame _ _ _ _) (set_temps _ _) => apply frame_set_temps
  end.

Ltac pres := repeat pres_struct.

(** the events of artifact recording *)
Definition scan_event (e : event) : Prop :=
  match e with
  | EvHash _ => True
  | EvCheckMatch s => In s ["HASHALGORITHMS_SCHEMA"; "HASHDICT_SCHEMA"; "NAMES_SCHEMA"]
  | _ => False
  end.

Definition rec_event (e : event) : Prop :=
  match e with
  | EvChdir _ => True
  | _ => scan_event e
  end.

Section ScanFrames.

Context (E : Env).

Lemma hash_artifact_frame p a n :
  preserves (frame true true true scan_event) (_hash_artifact E p a n).
Proof. unfold _hash_artifact, digest_filename, check_match. pres. Qed.

Lemma apply_left_strip_frame P p d l :
  preserves (frame true true true P) (_apply_left_strip p d l).
Proof. unfold _apply_left_strip. pres. Qed.

Lemma check_lstrip_paths_frame P l :
  preserves (frame true true true P) (check_lstrip_paths l).
Proof. unfold check_lstrip_paths. pres. Qed.

Lemma walk_body_frame ep ef nle lsp root dirs files d :
  preserves (frame true true true scan_event)
    (walk_body E ep ef nle lsp root dirs files d).
Proof.
  unfold walk_body. pres.
  - apply apply_left_strip_frame.
  - apply hash_artifact_frame.
Qed.

Lemma record_one_frame ep ef fsd nle lsp a d :
  preserves (frame true true true scan_event)
    (record_one E ep ef fsd nle lsp a d).
Proof.
  unfold record_one. pres.
  - apply apply_left_strip_frame.
  - apply hash_artifact_frame.
  - apply walk_body_frame.
Qed.

Lemma chdir_frame p : preserves (frame true false true rec_event) (chdir p).
Proof. unfold chdir. pres. Qed.

Lemma scan_to_rec {A} (c : M A) :
  preserves (frame true true true scan_event) c ->
  preserves (frame true false true rec_event) c.
Proof.
  apply preserves_weaken. intros w w'. apply frame_weaken; auto.
  intros e He. destruct e; simpl in *; auto.
Qed.

Lemma record_artifacts_frame artifacts ep bp fsd nle lsp :
  preserves (frame true false true rec_event)
    (record_artifacts_as_dict E artifacts ep bp fsd nle lsp).
Proof.
  unfold record_artifacts_as_dict. destruct artifacts as [|a artifacts]; pres;
    try apply chdir_frame.
  - unfold check_match. pres.
  - apply scan_to_rec, check_lstrip_paths_frame.
  - apply scan_to_rec, record_one_frame.
Qed.

End ScanFrames.

(** ** The working directory *)

Lemma resolve_step_proper st c : proper c -> resolve_step st c = c :: st.
Proof. intros (H1 & H2 & H3). unfold resolve_step. rewrite H1, H2, H3. reflexivity. Qed.

Lemma resolve_fold_proper l st :
  List.Forall proper l -> fold_left resolve_step l st = rev l ++ st.
Proof.
  intros H. revert st. induction H as [|c l Hc Hl IH]; intros st; [reflexivity|].
  simpl. rewrite resolve_step_proper by assumption. rewrite IH, <- app_assoc. reflexivity.
Qed.

Lemma startswith_root s : Py.startswith ("/" +:+ s) "/" = true.
Proof.
  change ("/" +:+ s) with (String Py.slash s). change "/" with (String Py.slash "").
  rewrite startswith_cons. apply startswith_nil.
Qed.

Lemma split_root s : Py.split Py.slash ("/" +:+ s) = "" :: Py.split Py.slash s.
Proof. reflexivity. Qed.

Definition valid_cwd (w : World) : Prop :=
  List.Forall (fun n => valid_name n = true) (cwd w).

Lemma resolve_getcwd w from : valid_cwd w -> resolve from (getcwd w) = cwd w.
Proof.
  unfold valid_cwd, resolve, getcwd. intros H.
  rewrite startswith_root.
  assert (Hp : List.Forall proper (cwd w)).
  { eapply List.Forall_impl; [|exact H]. intros a Ha. apply valid_name_inv, Ha. }
  assert (Hn : List.Forall noslash (cwd w)).
  { eapply List.Forall_impl; [|exact H]. intros a Ha. apply valid_name_inv, Ha. }
  destruct (cwd w) as [|c l] eqn:Hc; [reflexivity|].
  rewrite split_root, split_join by (easy || assumption).
  change (fold_left resolve_step ("" :: c :: l) []) with (fold_left resolve_step (c :: l) []).
  rewrite resolve_fold_proper by assumption.
  rewrite app_nil_r. apply rev_involutive.
Qed.

Section Cwd.

Context (E : Env).

(** The base path in effect: the argument, else the setting. *)
Definition effective_base_path (base_path : option string) (w : World)
  : option string :=
  if truthy_str base_path then base_path else ARTIFACT_BASE_PATH (settings w).

Definition effective_exclude_patterns (exclude_patterns : option (list string))
  (w : World) : option (list string) :=
  if truthy_list exclude_patterns then exclude_patterns
  else ARTIFACT_EXCLUDE_PATTERNS (settings w).

(** The scan proper: what [record_artifacts_as_dict] does between entering
    the base path and leaving it. *)
Definition scan (norm_artifacts : list string) (ep : option (list string))
  (fsd nle : bool) (lsp : option (list string))
  : M (gmap string (gmap string string)) :=
  norm_artifacts <-
    (if truthy_list ep then
       check_match "NAMES_SCHEMA" true ;;;
       ret (_apply_exclude_patterns E norm_artifacts (or_nil ep))
     else ret norm_artifacts) ;;
  check_lstrip_paths lsp ;;;
  for_each norm_artifacts (record_one E ep (or_nil ep) fsd nle lsp) ∅.

Lemma scan_frame arts ep fsd nle lsp :
  preserves (frame true true true scan_event) (scan arts ep fsd nle lsp).
Proof.
  unfold scan, check_match.
  pres; first [apply check_lstrip_paths_frame | apply record_one_frame].
Qed.

Lemma record_artifacts_unfold a artifacts ep bp fsd nle lsp w :
  record_artifacts_as_dict E (a :: artifacts) ep bp fsd nle lsp w
  = (let base := effective_base_path bp w in
     let ep' := effective_exclude_patterns ep w in
     (if truthy_str base then
        try_except (chdir (default "" base))
          (fun e => ValueError ("Could not use '" +:+ default "" base
                                +:+ "' as base path"))
      else ret tt) ;;;
     d <- scan (map os_path.normpath (a :: artifacts)) ep' fsd nle lsp ;;
     (if truthy_str base then chdir (getcwd w) else ret tt) ;;;
     ret d) w.
Proof.
  unfold record_artifacts_as_dict, scan, effective_base_path,
    effective_exclude_patterns.
  unfold bind at 1. unfold get at 1. cbv zeta.
  unfold bind. 
  destruct (truthy_str (if truthy_str bp then bp else ARTIFACT_BASE_PATH (settings w)));
  repeat match goal with
         | |- context [match ?c ?x with _ => _ end] =>
             lazymatch c with
             | _ => destruct (c x) as [[?|?] ?] eqn:?; try reflexivity
             end
         end.
Qed.

End Cwd.

(** ** Entering and leaving the base path *)

Section WorkingDirectory.
Context (E : Env).

Lemma chdir_ok p w :
  isdir w p = true ->
  chdir p w = (Ok tt, mkWorld (tree w) (resolve (cwd w) p) (settings w) (temps w)
                        (next_temp w) (trace w ++ [EvChdir p])).
Proof. intros H. unfold chdir, bind, get. rewrite H. reflexivity. Qed.

Lemma chdir_err p w :
  isdir w p = false -> exists e, chdir p w = (Err e, w).
Proof. intros H. unfold chdir, bind, get. rewrite H. eexists. reflexivity. Qed.

(** C9: [record_artifacts_as_dict] called with a non-empty list of artifacts
    and a base path in effect (the argument, else the setting).  When the
    base path is a directory, the first action is to change into it; on a
    return the last action changes back and the working directory is the
    original one; on an exception the working directory is left at the base
    path.  When the base path is no directory, [ValueError] is raised and
    nothing changed. *)
Theorem C9_cwd_restored_on_success_only
  (artifacts : list string) (ep : option (list string)) (bp : option string)
  (fsd nle : bool) (lsp : option (list string)) (w : World)
  (r : result (gmap string (gmap string string))) (w' : World) (base : string) :
  record_artifacts_as_dict E artifacts ep bp fsd nle lsp w = (r, w') ->
  artifacts <> [] ->
  effective_base_path bp w = Some base -> base <> "" ->
  valid_cwd w ->
  if isdir w base then
    exists evs, trace w' = trace w ++ EvChdir base :: evs /\
    match r with
    | Ok _ =>
        cwd w' = cwd w /\
        exists evs0, evs = evs0 ++ [EvChdir (getcwd w)] /\ List.Forall scan_event evs0
    | Err _ =>
        cwd w' = resolve (cwd w) base /\ List.Forall scan_event evs
    end
  else
    (exists msg, r = Err (ValueError msg)) /\ cwd w' = cwd w /\ trace w' = trace w.
Proof.
  intros Hrun Hne Hbase Hnb Hcwd.
  destruct artifacts as [|a artifacts]; [easy|].
  rewrite record_artifacts_unfold in Hrun. cbv zeta in Hrun. rewrite Hbase in Hrun.
  assert (Ht : truthy_str (Some base) = true).
  { simpl. apply negb_true_iff, String.eqb_neq. assumption. }
  rewrite Ht in Hrun. simpl default in Hrun.
  destruct (isdir w base) eqn:Hd.
  - unfold bind at 1 in Hrun. unfold try_except in Hrun.
    rewrite (chdir_ok _ _ Hd) in Hrun.
    set (w1 := mkWorld _ _ _ _ _ _) in Hrun.
    pose proof (scan_frame E (map os_path.normpath (a :: artifacts))
                  (effective_exclude_patterns ep w) fsd nle lsp w1) as Hf.
    unfold bind at 1 in Hrun.
    destruct (scan E _ _ _ _ _ w1) as [[d|e] w2] eqn:Hscan; simpl in Hf.
    + destruct Hf as (_ & Hc & _ & _ & (evs & Htr & Hev)).
      specialize (Hc eq_refl). simpl in Hc.
      unfold bind at 1 in Hrun.
      destruct (isdir w2 (getcwd w)) eqn:Hd2.
      * rewrite (chdir_ok _ _ Hd2) in Hrun. inversion Hrun; subst r w'. simpl.
        exists (evs ++ [EvChdir (getcwd w)]). split; [|split].
        -- rewrite Htr. simpl. rewrite <- !app_assoc. reflexivity.
        -- apply resolve_getcwd. assumption.
        -- exists evs. split; [reflexivity | assumption].
      * destruct (chdir_err _ _ Hd2) as [e He]. rewrite He in Hrun.
        inversion Hrun; subst r w'. exists evs. split; [|split].
        -- rewrite Htr. simpl. rewrite <- app_assoc. reflexivity.
        -- exact Hc.
        -- assumption.
    + destruct Hf as (_ & Hc & _ & _ & (evs & Htr & Hev)).
      specialize (Hc eq_refl). simpl in Hc.
      inversion Hrun; subst r w'. exists evs. split; [|split].
      * rewrite Htr. simpl. rewrite <- app_assoc. reflexivity.
      * exact Hc.
      * assumption.
  - unfold bind at 1 in Hrun. unfold try_except in Hrun.
    destruct (chdir_err _ _ Hd) as [e He]. rewrite He in Hrun.
    inversion Hrun; subst r w'. split; [eexists; reflexivity|]. split; reflexivity.
Qed.

End WorkingDirectory.

(** ** Strip prefixes *)

Definition has_prefix_pair (l : list string) : Prop :=
  exists i j a b, i < j /\ l !! i = Some a /\ l !! j = Some b /\
                  (Py.startswith a b = true \/ Py.startswith b a = true).

Definition clash (pr : string * string) : bool :=
  Py.startswith (fst pr) (snd pr) || Py.startswith (snd pr) (fst pr).

Lemma combinations2_lookup (l : list string) i j a b :
  i < j -> l !! i = Some a -> l !! j = Some b -> In (a, b) (Py.combinations2 l).
Proof.
  revert i j. induction l as [|x l IH]; intros i j Hij Hi Hj; [discriminate|].
  simpl. apply in_or_app. destruct i as [|i].
  - left. simpl in Hi. inversion Hi; subst x. destruct j as [|j]; [lia|]. simpl in Hj.
    apply in_map_iff. exists b. split; [reflexivity|].
    apply list_elem_of_In. eapply list_elem_of_lookup_2. exact Hj.
  - right. destruct j as [|j]; [lia|]. simpl in Hi, Hj. apply (IH i j); [lia|assumption..].
Qed.

Lemma check_pairs_raise (ps : list (string * string)) :
  List.Exists (fun pr => clash pr = true) ps ->
  exists msg, forall w,
    for_each ps
      (fun pr (_ : unit) =>
         if Py.startswith (fst pr) (snd pr) || Py.startswith (snd pr) (fst pr)
         then raise (PrefixError ("'" +:+ fst pr +:+ "' and '" +:+ snd pr
                                  +:+ "' triggered a left substring error"))
         else ret tt) tt w
    = (Err (PrefixError msg), w).
Proof.
  induction ps as [|pr ps IH]; intros H; [inversion H|].
  destruct (clash pr) eqn:Hc.
  - eexists. intros w. simpl. unfold clash in Hc. rewrite Hc. reflexivity.
  - inversion H; subst; [congruence|]. destruct (IH H1) as [msg Hm].
    exists msg. intros w. simpl. unfold clash in Hc. rewrite Hc.
    unfold bind, ret. apply Hm.
Qed.

Lemma check_lstrip_paths_raise l :
  has_prefix_pair l ->
  exists msg, forall w, check_lstrip_paths (Some l) w = (Err (PrefixError msg), w).
Proof.
  intros (i & j & a & b & Hij & Hi & Hj & Hab).
  unfold check_lstrip_paths.
  assert (Hl : truthy_list (Some l) = true) by (destruct l; [discriminate|reflexivity]).
  rewrite Hl. apply check_pairs_raise. apply List.Exists_exists.
  exists (a, b). split; [eapply combinations2_lookup; eassumption|].
  unfold clash. simpl. destruct Hab as [-> | ->]; [reflexivity | apply orb_true_r].
Qed.

Section PrefixCheck.
Context (E : Env).

(** C6 (amended): when the list of artifacts is not empty and the base path
    in effect, if there is one, is a directory, a list of strip prefixes with
    two entries one of which is a prefix of the other makes
    [record_artifacts_as_dict] raise [PrefixError], and no file is hashed
    before it does. *)
Theorem C6_prefix_check_precedes_hashing
  (artifacts : list string) (ep : option (list string)) (bp : option string)
  (fsd nle : bool) (l : list string) (w : World) :
  has_prefix_pair l ->
  artifacts <> [] ->
  (forall base, effective_base_path bp w = Some base -> base <> "" ->
                isdir w base = true) ->
  exists msg w' evs,
    record_artifacts_as_dict E artifacts ep bp fsd nle (Some l) w
    = (Err (PrefixError msg), w') /\
    trace w' = trace w ++ evs /\
    forall p, ~ In (EvHash p) evs.
Proof.
  intros Hl Hne Hbase. destruct artifacts as [|a artifacts]; [easy|].
  destruct (check_lstrip_paths_raise l Hl) as [msg Hm]. exists msg.
  assert (Hscan : forall w1, exists evs,
             scan E (map os_path.normpath (a :: artifacts))
               (effective_exclude_patterns ep w) fsd nle (Some l) w1
             = (Err (PrefixError msg),
                mkWorld (tree w1) (cwd w1) (settings w1) (temps w1) (next_temp w1)
                  (trace w1 ++ evs))
             /\ forall p, ~ In (EvHash p) evs).
  { intros w1. unfold scan.
    destruct (truthy_list (effective_exclude_patterns ep w)).
    - exists [EvCheckMatch "NAMES_SCHEMA"]. split.
      + unfold bind, check_match, emit, ret. simpl. rewrite Hm. reflexivity.
      + intros p [H|[]]. discriminate.
    - exists []. split.
      + unfold bind, ret. rewrite Hm. destruct w1; simpl. rewrite app_nil_r. reflexivity.
      + intros p []. }
  rewrite record_artifacts_unfold. cbv zeta.
  destruct (truthy_str (effective_base_path bp w)) eqn:Ht.
  - destruct (effective_base_path bp w) as [base|] eqn:Hb; [|discriminate].
    assert (Hd : isdir w base = true).
    { apply Hbase; [reflexivity|]. simpl in Ht. apply negb_true_iff, String.eqb_neq in Ht.
      assumption. }
    simpl default. unfold bind at 1. unfold try_except. rewrite (chdir_ok _ _ Hd).
    destruct (Hscan (mkWorld (tree w) (resolve (cwd w) base) (settings w) (temps w)
                       (next_temp w) (trace w ++ [EvChdir base]))) as (evs & Hs & Hn).
    unfold bind at 1. rewrite Hs. eexists. exists (EvChdir base :: evs).
    split; [reflexivity|]. split.
    + simpl. rewrite <- app_assoc. reflexivity.
    + intros p [H|H]; [discriminate | apply (Hn p H)].
  - destruct (Hscan w) as (evs & Hs & Hn).
    unfold bind at 1. unfold ret at 1. unfold bind at 1. rewrite Hs.
    eexists. exists evs. split; [reflexivity|]. split; [reflexivity | assumption].
Qed.

End PrefixCheck.

(** ** Left-stripping *)

Lemma strip_first_prefix_none path l :
  List.Forall (fun pre => Py.startswith path pre = false) l ->
  strip_first_prefix path l = path.
Proof.
  induction 1 as [|pre l Hp Hl IH]; [reflexivity|]. simpl. rewrite Hp. exact IH.
Qed.

Lemma strip_first_prefix_first path l1 pre l2 :
  List.Forall (fun q => Py.startswith path q = false) l1 ->
  Py.startswith path pre = true ->
  strip_first_prefix path (l1 ++ pre :: l2) = Py.drop (String.length pre) path.
Proof.
  induction 1 as [|q l1 Hq Hl IH]; intros Hp; simpl.
  - rewrite Hp. reflexivity.
  - rewrite Hq. apply IH. assumption.
Qed.

Lemma startswith_drop path pre :
  Py.startswith path pre = true -> path = pre +:+ Py.drop (String.length pre) path.
Proof.
  unfold Py.startswith. revert path. induction pre as [|c pre IH]; intros path H.
  - reflexivity.
  - destruct path as [|d path]; [discriminate|]. simpl in H.
    destruct (ascii_dec c d); [|discriminate]. subst d. simpl. f_equal. apply IH, H.
Qed.

(** ** Results of computations that leave the file system alone *)

(** [spec t c m Q]: started on the file tree [t] in the directory [c], a run
    of [m] that returns, returns a value satisfying [Q]. *)
Definition spec (t : node) (c : list string) {A} (m : M A) (Q : A -> Prop) : Prop :=
  forall w a w', tree w = t -> cwd w = c -> m w = (Ok a, w') -> Q a.

Definition quiet {A} (m : M A) : Prop :=
  preserves (frame true true true scan_event) m.

Section Spec.

Context (t : node) (c : list string).

Lemma spec_ret {A} (a : A) (Q : A -> Prop) : Q a -> spec t c (ret a) Q.
Proof. intros H w a' w' _ _ Heq. unfold ret in Heq. inversion Heq; subst. assumption. Qed.

Lemma spec_raise {A} e (Q : A -> Prop) : spec t c (raise e) Q.
Proof. intros w a' w' _ _ Heq. discriminate. Qed.

Lemma spec_get : spec t c get (fun w => tree w = t /\ cwd w = c).
Proof. intros w a w' Ht Hc Heq. unfold get in Heq. inversion Heq; subst. split; reflexivity. Qed.

Lemma spec_weaken {A} (m : M A) (Q Q' : A -> Prop) :
  (forall a, Q a -> Q' a) -> spec t c m Q -> spec t c m Q'.
Proof. intros H Hm w a w' Ht Hc Heq. eapply H, Hm; eassumption. Qed.

Lemma spec_true {A} (m : M A) : spec t c m (fun _ => True).
Proof. intros w a w' _ _ _. exact I. Qed.

Lemma spec_bind {A B} (m : M A) (k : A -> M B) (Q1 : A -> Prop) (Q2 : B -> Prop) :
  quiet m -> spec t c m Q1 -> (forall a, Q1 a -> spec t c (k a) Q2) ->
  spec t c (bind m k) Q2.
Proof.
  intros Hq Hm Hk w b w' Ht Hc Heq.
  apply bind_inv in Heq as [(a & w1 & Hm1 & Hk1) | (e & _ & Hr)]; [|discriminate].
  specialize (Hq w). rewrite Hm1 in Hq. destruct Hq as (Htree & Hcwd & _).
  simpl in Htree, Hcwd.
  eapply (Hk a); [eapply Hm; eassumption | | | exact Hk1].
  - rewrite Htree by reflexivity. assumption.
  - rewrite Hcwd by reflexivity. assumption.
Qed.

Lemma spec_for_each {A S} (l : list A) (body : A -> S -> M S) (I : S -> Prop) s :
  I s ->
  (forall x s, quiet (body x s)) ->
  (forall x s, In x l -> I s -> spec t c (body x s) I) ->
  spec t c (for_each l body s) I.
Proof.
  intros Hs Hq Hb. revert s Hs. induction l as [|x l IH]; intros s Hs; simpl.
  - apply spec_ret. assumption.
  - eapply spec_bind; [apply Hq | apply Hb; [left; reflexivity | assumption] |].
    intros s' Hs'. apply IH; [|assumption].
    intros y s0 Hy. apply Hb. right. assumption.
Qed.

End Spec.

(** the names [os.walk] hands to its consumer are directory entry names *)
Lemma dir_names_valid es : List.Forall (fun n => valid_name n = true) (dir_names es).
Proof.
  unfold dir_names, scandir. apply List.Forall_forall. intros n Hn.
  apply in_map_iff in Hn as (e & <- & He).
  apply filter_In in He as [He _]. apply filter_In in He as [_ He]. exact He.
Qed.

Lemma nondir_names_valid es :
  List.Forall (fun n => valid_name n = true) (nondir_names es).
Proof.
  unfold nondir_names, scandir. apply List.Forall_forall. intros n Hn.
  apply in_map_iff in Hn as (e & <- & He).
  apply filter_In in He as [He _]. apply filter_In in He as [_ He]. exact He.
Qed.

Section WalkSpec.

Context {S : Type}.
Variable body : string -> list string -> list string -> S -> M (list string * S).
Variable followlinks : bool.
Context (t : node) (c : list string).
Variable Adm : string -> Prop.
Variable I : S -> Prop.

Hypothesis body_quiet : forall top dirs files s, quiet (body top dirs files s).
Hypothesis body_spec :
  forall top dirs files s,
    Adm top -> I s ->
    List.Forall (fun n => valid_name n = true) dirs ->
    List.Forall (fun n => valid_name n = true) files ->
    spec t c (body top dirs files s)
      (fun r => I (snd r) /\ List.Forall (fun d => Adm (os_path.join top d)) (fst r)).

Lemma spec_os_walk n :
  forall top s, Adm top -> I s -> spec t c (os_walk body followlinks n top s) I.
Proof.
  assert (Hdir : forall es,
             List.Forall (fun e => forall top s, Adm top -> I s ->
                              spec t c (os_walk body followlinks (snd e) top s) I) es ->
             forall top s, Adm top -> I s ->
             spec t c (walk_dir body followlinks (subwalks body followlinks es) es top s) I).
  { intros es IH top s Ha Hs. unfold walk_dir.
    eapply spec_bind; [apply body_quiet | |].
    - apply body_spec; [assumption | assumption | apply dir_names_valid
                        | apply nondir_names_valid].
    - intros r [Hr1 Hr2]. cbv beta.
      eapply spec_weaken with (Q := I); [auto|].
      apply spec_for_each; [assumption | |].
      + intros dirname s'.
        destruct (find_walk dirname _) as [[islink walk]|] eqn:Hf.
        * destruct (followlinks || negb islink).
          -- apply find_walk_subwalks in Hf as (e & Hin & ->).
             apply preserves_os_walk; [exact _ | apply body_quiet].
          -- apply preserves_ret. exact _.
        * apply preserves_ret. exact _.
      + intros dirname s' Hin Hs'.
        destruct (find_walk dirname _) as [[islink walk]|] eqn:Hf.
        * destruct (followlinks || negb islink).
          -- apply find_walk_subwalks in Hf as (e & Hine & ->).
             rewrite List.Forall_forall in IH. apply IH; [assumption | | assumption].
             rewrite List.Forall_forall in Hr2. apply Hr2. assumption.
          -- apply spec_ret. assumption.
        * apply spec_ret. assumption. }
  induction n as [r c0| |es IH|es IH] using node_tree_ind; intros top s Ha Hs.
  - apply spec_ret. assumption.
  - apply spec_ret. assumption.
  - intros w. rewrite os_walk_dir. apply Hdir; assumption.
  - intros w. rewrite os_walk_linkdir. apply Hdir; assumption.
Qed.

End WalkSpec.

(** ** Exclusion *)

Lemma insert_sorted_in x y l : In y (Py.insert_sorted x l) -> y = x \/ In y l.
Proof.
  induction l as [|z l IH]; simpl.
  - intros [H|[]]. left. symmetry. exact H.
  - destruct (String.compare x z).
    + intros H. right. exact H.
    + intros [H|H]; [left; symmetry; exact H | right; exact H].
    + intros [H|H]; [right; left; exact H|].
      destruct (IH H) as [H'|H']; [left; exact H' | right; right; exact H'].
Qed.

Lemma sorted_set_in y l : In y (Py.sorted_set l) -> In y l.
Proof.
  induction l as [|x l IH]; simpl; [easy|].
  intros H. apply insert_sorted_in in H as [->|H]; [left; reflexivity | right; auto].
Qed.

Section Exclusion.

Context (E : Env).

Lemma apply_exclude_in x names pats :
  In x (_apply_exclude_patterns E names pats) ->
  In x names /\ match_file E pats x = false.
Proof.
  unfold _apply_exclude_patterns. intros H. apply sorted_set_in in H.
  apply filter_In in H as [H1 H2]. split; [assumption|].
  apply negb_true_iff. exact H2.
Qed.

(** The path strings the filter lets through when the patterns [ep] are in
    effect: with no pattern nothing is filtered, and nothing matches. *)
Lemma kept_unmatched (ep : option (list string)) x names :
  In x (if truthy_list ep then _apply_exclude_patterns E names (or_nil ep) else names) ->
  In x names /\ match_file E (or_nil ep) x = false.
Proof.
  destruct (truthy_list ep) eqn:Ht.
  - apply apply_exclude_in.
  - intros H. split; [assumption|].
    destruct ep as [[|p l]|]; try discriminate; apply match_file_nil.
Qed.

(** The directories a scan of the normalized [roots] enters: a root the
    patterns do not match, or an entry of an entered directory whose
    normalized path the patterns do not match. *)
Inductive visited (pats roots : list string) : string -> Prop :=
| visited_root a :
    In a roots -> match_file E pats a = false -> visited pats roots a
| visited_sub dir name :
    visited pats roots dir -> valid_name name = true ->
    match_file E pats (os_path.normpath (os_path.join dir name)) = false ->
    visited pats roots (os_path.normpath (os_path.join dir name)).

Lemma visited_unmatched pats roots dir :
  visited pats roots dir -> match_file E pats dir = false.
Proof. destruct 1; assumption. Qed.

(** The dictionary key of a recorded path. *)
Definition artifact_key (lsp : option (list string)) (path : string) : string :=
  let p := Py.replace Py.backslash Py.slash path in
  if truthy_list lsp then strip_first_prefix p (or_nil lsp) else p.

Definition good_key (pats roots : list string) (lsp : option (list string))
  (k : string) : Prop :=
  exists dir f,
    visited pats roots dir /\ valid_name f = true /\
    k = artifact_key lsp (os_path.normpath (os_path.join dir f)).

Definition good_dict (pats roots : list string) (lsp : option (list string))
  (d : gmap string (gmap string string)) : Prop :=
  forall k, is_Some (d !! k) -> good_key pats roots lsp k.

Definition entered (pats roots : list string) (top : string) : Prop :=
  exists dp, same_dir top dp /\ visited pats roots dp.

Lemma good_dict_insert pats roots lsp d k h :
  good_dict pats roots lsp d -> good_key pats roots lsp k ->
  good_dict pats roots lsp (<[k := h]> d).
Proof.
  intros Hd Hk k' Hs. destruct (decide (k = k')) as [<-|Hne]; [assumption|].
  apply Hd. rewrite lookup_insert_ne in Hs by assumption. exact Hs.
Qed.

Context (t : node) (c : list string).

Lemma apply_left_strip_spec p d lsp :
  spec t c (_apply_left_strip p d lsp)
    (fun k => k = if truthy_list lsp then strip_first_prefix p (or_nil lsp) else p).
Proof.
  unfold _apply_left_strip. destruct (truthy_list lsp).
  - destruct (bool_decide _); [apply spec_raise | apply spec_ret; reflexivity].
  - apply spec_ret. reflexivity.
Qed.

(** recording one file under its key keeps the dictionary good *)
Lemma record_file_spec pats roots lsp nle filepath hashpath d :
  good_dict pats roots lsp d ->
  good_key pats roots lsp (artifact_key lsp filepath) ->
  spec t c
    (key <- _apply_left_strip (Py.replace Py.backslash Py.slash filepath) d lsp ;;
     h <- _hash_artifact E hashpath None nle ;;
     ret (<[key := h]> d))
    (good_dict pats roots lsp).
Proof.
  intros Hd Hk.
  eapply spec_bind; [apply apply_left_strip_frame | apply apply_left_strip_spec |].
  intros key ->.
  eapply spec_bind; [apply hash_artifact_frame | apply spec_true |].
  intros h _. apply spec_ret. apply good_dict_insert; assumption.
Qed.

Lemma walk_body_spec (ep : option (list string)) roots nle lsp root dirs files d :
  entered (or_nil ep) roots root -> good_dict (or_nil ep) roots lsp d ->
  List.Forall (fun n => valid_name n = true) dirs ->
  List.Forall (fun n => valid_name n = true) files ->
  spec t c (walk_body E ep (or_nil ep) nle lsp root dirs files d)
    (fun r => good_dict (or_nil ep) roots lsp (snd r) /\
              List.Forall (fun dn => entered (or_nil ep) roots (os_path.join root dn))
                (fst r)).
Proof.
  intros (dp & Hsame & Hvis) Hd Hdirs Hfiles. unfold walk_body.
  eapply spec_bind; [apply preserves_get; exact _ | apply spec_get |].
  intros w _. cbv zeta.
  eapply spec_bind with (Q1 := good_dict (or_nil ep) roots lsp).
  - apply preserves_for_each; [exact _|]. intros x s.
    unfold quiet. pres; [apply apply_left_strip_frame | apply hash_artifact_frame].
  - apply spec_for_each; [assumption | |].
    + intros x s. unfold quiet. pres; [apply apply_left_strip_frame | apply hash_artifact_frame].
    + intros filepath s Hin Hs. apply record_file_spec; [assumption|].
      apply kept_unmatched in Hin as [Hin _]. apply filter_In in Hin as [Hin _].
      apply in_map_iff in Hin as (f & <- & Hf).
      rewrite List.Forall_forall in Hfiles. specialize (Hfiles f Hf).
      exists dp, f. split; [assumption|]. split; [assumption|].
      rewrite (same_dir_join root dp f Hsame Hfiles). reflexivity.
  - intros d' Hd'. apply spec_ret. simpl. split; [assumption|].
    apply List.Forall_forall. intros dn Hdn.
    apply in_map_iff in Hdn as (nd & <- & Hnd).
    apply kept_unmatched in Hnd as [Hnd Hun].
    apply in_map_iff in Hnd as (name & <- & Hname).
    rewrite List.Forall_forall in Hdirs. specialize (Hdirs name Hname).
    exists (os_path.normpath (os_path.join root name)). split.
    + apply same_dir_descend. assumption.
    + rewrite (same_dir_join root dp name Hsame Hdirs) in *.
      apply visited_sub; assumption.
Qed.

Lemma walk_body_quiet ep ef nle lsp root dirs files d :
  quiet (walk_body E ep ef nle lsp root dirs files d).
Proof. apply walk_body_frame. Qed.

Lemma same_dir_refl x : same_dir x x.
Proof. split; reflexivity. Qed.

(** [os.path.isfile] on the tree [t] from the directory [c] *)
Definition is_file_at (t : node) (c : list string) (path : string) : bool :=
  match lookup_path t c path with Some (File _ _) => true | _ => false end.

Lemma record_one_spec (ep : option (list string)) roots fsd nle lsp artifact d :
  In artifact roots -> match_file E (or_nil ep) artifact = false ->
  is_file_at t c artifact = false ->
  good_dict (or_nil ep) roots lsp d ->
  spec t c (record_one E ep (or_nil ep) fsd nle lsp artifact d)
    (good_dict (or_nil ep) roots lsp).
Proof.
  intros Hin Hun Hnf Hd. unfold record_one.
  eapply spec_bind; [apply preserves_get; exact _ | apply spec_get |].
  intros w [Ht Hc].
  assert (Hf : isfile w artifact = false).
  { unfold isfile, stat. rewrite Ht, Hc. exact Hnf. }
  rewrite Hf. destruct (isdir w artifact); [|apply spec_ret; assumption].
  destruct (stat w artifact) as [n|]; [|apply spec_ret; assumption].
  apply spec_os_walk with (Adm := entered (or_nil ep) roots).
  - intros. apply walk_body_quiet.
  - intros. apply walk_body_spec; assumption.
  - exists artifact. split; [apply same_dir_refl | apply visited_root; assumption].
  - assumption.
Qed.

Lemma scan_spec (ep : option (list string)) arts fsd nle lsp :
  (forall a, In a arts -> is_file_at t c a = false) ->
  spec t c (scan E arts ep fsd nle lsp) (good_dict (or_nil ep) arts lsp).
Proof.
  intros Hnf. unfold scan.
  eapply spec_bind with
    (Q1 := fun l => forall a, In a l -> In a arts /\ match_file E (or_nil ep) a = false).
  - unfold quiet, check_match. pres.
  - destruct (truthy_list ep) eqn:Ht.
    + eapply spec_bind; [unfold quiet, check_match; pres | apply spec_true |].
      intros _ _. apply spec_ret. intros a Ha. apply apply_exclude_in. assumption.
    + apply spec_ret. intros a Ha. split; [assumption|].
      destruct ep as [[|p l]|]; try discriminate; apply match_file_nil.
  - intros l Hl.
    eapply spec_bind; [apply check_lstrip_paths_frame | apply spec_true |].
    intros _ _. apply spec_for_each.
    + intros k [v Hv]. rewrite lookup_empty in Hv. discriminate.
    + intros x s. apply record_one_frame.
    + intros x s Hx Hs. destruct (Hl x Hx) as [Hin Hun].
      apply record_one_spec; auto.
Qed.

End Exclusion.

(** ** Pruning *)

Section Pruning.
Context (E : Env).

(** The directory the scan runs in. *)
Definition scan_cwd (bp : option string) (w : World) : list string :=
  if truthy_str (effective_base_path bp w)
  then resolve (cwd w) (default "" (effective_base_path bp w))
  else cwd w.

(** C4: when no root is a regular file, every key of the dictionary that
    [record_artifacts_as_dict] returns is formed from the name [f] of a file
    in a directory [dir] that the walk visited: [dir] matches no exclude
    pattern, and it is a root that passed the exclude filter or a
    subdirectory, itself unmatched, of a visited directory. *)
Theorem C4_excluded_directories_are_pruned
  (artifacts : list string) (ep : option (list string)) (bp : option string)
  (fsd nle : bool) (lsp : option (list string)) (w : World)
  (d : gmap string (gmap string string)) (w' : World) :
  record_artifacts_as_dict E artifacts ep bp fsd nle lsp w = (Ok d, w') ->
  (forall a, In a artifacts ->
             is_file_at (tree w) (scan_cwd bp w) (os_path.normpath a) = false) ->
  forall k, is_Some (d !! k) ->
  exists dir f,
    valid_name f = true /\
    k = artifact_key lsp (os_path.normpath (os_path.join dir f)) /\
    match_file E (or_nil (effective_exclude_patterns ep w)) dir = false /\
    visited E (or_nil (effective_exclude_patterns ep w))
      (map os_path.normpath artifacts) dir.
Proof.
  intros Hrun Hroots k Hk.
  destruct artifacts as [|a artifacts].
  { unfold record_artifacts_as_dict, ret in Hrun. inversion Hrun; subst.
    destruct Hk as [v Hv]. rewrite lookup_empty in Hv. discriminate. }
  rewrite record_artifacts_unfold in Hrun. cbv zeta in Hrun.
  set (pats := effective_exclude_patterns ep w) in *.
  set (arts := map os_path.normpath (a :: artifacts)) in *.
  assert (Hgood : good_dict E (or_nil pats) arts lsp d).
  { assert (Hnf : forall x, In x arts ->
                            is_file_at (tree w) (scan_cwd bp w) x = false).
    { intros x Hx. apply in_map_iff in Hx as (y & <- & Hy). auto. }
    pose proof (scan_spec E (tree w) (scan_cwd bp w) pats arts fsd nle lsp Hnf) as Hs.
    unfold scan_cwd in Hs.
    apply bind_inv in Hrun as [(u & w1 & H1 & Hrun) | (e & _ & Hr)]; [|discriminate].
    apply bind_inv in Hrun as [(d1 & w2 & H2 & Hrun) | (e & _ & Hr)]; [|discriminate].
    apply bind_inv in Hrun as [(u' & w3 & H3 & Hrun) | (e & _ & Hr)]; [|discriminate].
    unfold ret in Hrun. inversion Hrun; subst d1 w3.
    destruct (truthy_str (effective_base_path bp w)) eqn:Ht.
    - unfold try_except in H1.
      destruct (isdir w (default "" (effective_base_path bp w))) eqn:Hd.
      + rewrite (chdir_ok _ _ Hd) in H1. inversion H1; subst w1.
        eapply Hs; [| |exact H2]; reflexivity.
      + destruct (chdir_err _ _ Hd) as [e He]. rewrite He in H1. discriminate.
    - unfold ret in H1. inversion H1; subst w1.
      eapply Hs; [| |exact H2]; reflexivity. }
  destruct (Hgood k Hk) as (dir & f & Hv & Hf & ->).
  exists dir, f. split; [assumption|]. split; [reflexivity|].
  split; [eapply visited_unmatched; eassumption | assumption].
Qed.

End Pruning.

(** ** The supervisor *)

Definition stream_event (e : event) : Prop :=
  match e with EvStdout _ | EvStderr _ => True | _ => False end.

Definition exec_event (e : event) : Prop :=
  match e with
  | EvStdout _ | EvStderr _ | EvMkstemp _ | EvRemoveTemp _ | EvPopen _ | EvKill => True
  | _ => False
  end.

Lemma stream_exec e : stream_event e -> exec_event e.
Proof. destruct e; simpl; auto. Qed.

(** what a run leaves of the state besides the temporary files *)
Definition same_place (w w' : World) : Prop :=
  cwd w' = cwd w /\ settings w' = settings w.

Section Supervisor.

Context (E : Env).

Definition expired (T : Z) (p : proc) (tk : tick) : Prop :=
  timed_out (Some T) (p_start p) (t_now tk) = true.

Lemma duplicate_streams_frame fo fe st :
  preserves (frame true true true stream_event) (_duplicate_streams fo fe st).
Proof. unfold _duplicate_streams. pres. Qed.

Lemma child_write_frame fo fe o e :
  preserves (frame true true false (fun _ => False)) (child_write fo fe o e).
Proof. unfold child_write. pres. Qed.

Lemma duplicate_streams_ok fo fe st w :
  exists st' w', _duplicate_streams fo fe st w = (Ok st', w').
Proof.
  unfold _duplicate_streams, bind, get, emit, ret. cbv beta iota zeta.
  eexists. eexists. reflexivity.
Qed.

Lemma child_write_ok fo fe o e w :
  exists w', child_write fo fe o e w = (Ok tt, w').
Proof.
  unfold child_write, bind, get, set_temps. cbv beta iota zeta.
  eexists. reflexivity.
Qed.

(** one poll that finds the child running and in time *)
Lemma poll_step fo fe o e st w :
  exists st' w' evs,
    child_write fo fe o e w = (Ok tt, snd (child_write fo fe o e w)) /\
    _duplicate_streams fo fe st (snd (child_write fo fe o e w)) = (Ok st', w') /\
    trace w' = trace w ++ evs /\ List.Forall stream_event evs /\
    tree w' = tree w /\ same_place w w'.
Proof.
  pose proof (child_write_frame fo fe o e w) as (T1 & C1 & _ & S1 & (ev1 & Tr1 & F1)).
  set (w1 := snd (child_write fo fe o e w)) in *.
  pose proof (duplicate_streams_frame fo fe st w1) as (T2 & C2 & _ & S2 & (ev2 & Tr2 & F2)).
  destruct (duplicate_streams_ok fo fe st w1) as (st' & w' & Hd).
  rewrite Hd in *. cbn [snd] in *.
  specialize (T1 eq_refl). specialize (C1 eq_refl).
  specialize (T2 eq_refl). specialize (C2 eq_refl).
  exists st', w', ev2. split; [reflexivity|]. split; [reflexivity|].
  assert (ev1 = []) as ->.
  { destruct ev1 as [|x ev1]; [reflexivity|]. inversion F1; subst. contradiction. }
  rewrite app_nil_r in Tr1. split; [congruence|]. split; [assumption|].
  split; [congruence|]. split; congruence.
Qed.

Lemma poll_loop_expired cmd T p fo fe ticks : forall st w,
  List.Exists (expired T p) ticks ->
  exists w' evs,
    poll_loop cmd (Some T) p fo fe ticks st w = (Err (TimeoutExpired cmd T), w') /\
    trace w' = trace w ++ evs ++ [EvKill] /\ List.Forall stream_event evs /\
    tree w' = p_effect_killed p (tree w) /\ same_place w w'.
Proof.
  induction ticks as [|tk rest IH]; intros st w Hex; [inversion Hex|].
  cbn [poll_loop].
  destruct (timed_out (Some T) (p_start p) (t_now tk)) eqn:Hto.
  - eexists. exists []. split; [reflexivity|]. simpl.
    split; [reflexivity|]. split; [constructor|]. split; [reflexivity|].
    split; reflexivity.
  - inversion Hex as [? ? Hx|? ? Hx]; subst; [unfold expired in Hx; congruence|].
    destruct (poll_step fo fe (t_out tk) (t_err tk) st w)
      as (st' & w1 & ev1 & Hcw & Hd & Tr1 & F1 & T1 & C1 & S1).
    destruct (IH st' w1 Hx) as (w' & ev2 & Hp & Tr2 & F2 & T2 & C2 & S2).
    exists w', (ev1 ++ ev2). split.
    + unfold bind at 1. rewrite Hcw. unfold bind at 1. rewrite Hd. exact Hp.
    + split; [rewrite Tr2, Tr1, <- !app_assoc; reflexivity|].
      split; [apply List.Forall_app; split; assumption|].
      split; [congruence|]. split; congruence.
Qed.

Lemma poll_loop_in_time cmd timeout p fo fe ticks : forall st w,
  List.Forall (fun tk => timed_out timeout (p_start p) (t_now tk) = false) ticks ->
  exists st' w' evs,
    poll_loop cmd timeout p fo fe ticks st w = (Ok st', w') /\
    trace w' = trace w ++ evs /\ List.Forall stream_event evs /\
    tree w' = tree w /\ same_place w w'.
Proof.
  induction ticks as [|tk rest IH]; intros st w Hall.
  - exists st, w, []. split; [reflexivity|]. split; [symmetry; apply app_nil_r|].
    split; [constructor|]. split; [reflexivity|]. split; reflexivity.
  - inversion Hall as [|? ? Hto Hrest]; subst. cbn [poll_loop]. rewrite Hto.
    destruct (poll_step fo fe (t_out tk) (t_err tk) st w)
      as (st1 & w1 & ev1 & Hcw & Hd & Tr1 & F1 & T1 & C1 & S1).
    destruct (IH st1 w1 Hrest) as (st' & w' & ev2 & Hp & Tr2 & F2 & T2 & C2 & S2).
    exists st', w', (ev1 ++ ev2). split.
    + unfold bind at 1. rewrite Hcw. unfold bind at 1. rewrite Hd. exact Hp.
    + split; [rewrite Tr2, Tr1, <- !app_assoc; reflexivity|].
      split; [apply List.Forall_app; split; assumption|].
      split; [congruence|]. split; congruence.
Qed.

Lemma wait_loop_expired cmd T p ticks : forall w,
  List.Exists (expired T p) ticks ->
  wait_loop cmd (Some T) p ticks w
  = (Err (TimeoutExpired cmd T),
     mkWorld (p_effect_killed p (tree w)) (cwd w) (settings w) (temps w)
       (next_temp w) (trace w ++ [EvKill])).
Proof.
  induction ticks as [|tk rest IH]; intros w Hex; [inversion Hex|].
  cbn [wait_loop].
  destruct (timed_out (Some T) (p_start p) (t_now tk)) eqn:Hto; [reflexivity|].
  inversion Hex as [? ? Hx|? ? Hx]; subst; [unfold expired in Hx; congruence|].
  apply IH. assumption.
Qed.

Lemma mkstemp_frame : preserves (frame true true false exec_event) mkstemp.
Proof. unfold mkstemp. pres. Qed.

Lemma remove_temp_frame fd : preserves (frame true true false exec_event) (remove_temp fd).
Proof. unfold remove_temp. pres. Qed.

Lemma run_duplicate_streams_expired cmd T p w :
  popen E cmd = Ok p -> List.Exists (expired T p) (p_ticks p) ->
  exists w' evs,
    _subprocess_run_duplicate_streams E cmd (Some T) w
    = (Err (TimeoutExpired cmd T), w') /\
    trace w' = trace w ++ evs /\ In EvKill evs /\ List.Forall exec_event evs /\
    tree w' = p_effect_killed p (tree w) /\ same_place w w'.
Proof.
  intros Hp Hex. unfold _subprocess_run_duplicate_streams.
  pose proof (mkstemp_frame w) as (T1 & C1 & _ & S1 & (ev1 & Tr1 & F1)).
  set (w1 := snd (mkstemp w)) in *.
  rewrite (bind_ok _ _ w (next_temp w) w1) by reflexivity.
  pose proof (mkstemp_frame w1) as (T2 & C2 & _ & S2 & (ev2 & Tr2 & F2)).
  set (w2 := snd (mkstemp w1)) in *.
  rewrite (bind_ok _ _ w1 (next_temp w1) w2) by reflexivity.
  set (fo := next_temp w). set (fe := next_temp w1).
  set (w3 := snd (emit (EvPopen cmd) w2)).
  destruct (poll_loop_expired cmd T p fo fe (p_ticks p) (mkStreams 0 0 "" "") w3 Hex)
    as (w4 & evs & Hpl & Tr4 & F4 & T4 & C4 & S4).
  pose proof (remove_temp_frame fo w4) as (T5 & C5 & _ & S5 & (ev5 & Tr5 & F5)).
  set (w5 := snd (remove_temp fo w4)) in *.
  pose proof (remove_temp_frame fe w5) as (T6 & C6 & _ & S6 & (ev6 & Tr6 & F6)).
  set (w6 := snd (remove_temp fe w5)) in *.
  exists w6, (ev1 ++ ev2 ++ [EvPopen cmd] ++ (evs ++ [EvKill]) ++ ev5 ++ ev6).
  split.
  { unfold bind at 1. unfold try_finally.
    rewrite (bind_ok _ _ w2 tt w3) by reflexivity.
    rewrite (bind_ok _ _ w3 p w3) by (unfold lift_result; rewrite Hp; reflexivity).
    rewrite (bind_err _ _ _ _ _ Hpl).
    rewrite (bind_ok _ _ w4 tt w5) by reflexivity.
    reflexivity. }
  specialize (T1 eq_refl). specialize (C1 eq_refl). specialize (T2 eq_refl).
  specialize (C2 eq_refl). specialize (T5 eq_refl). specialize (C5 eq_refl).
  specialize (T6 eq_refl). specialize (C6 eq_refl).
  assert (Tr3 : trace w3 = trace w2 ++ [EvPopen cmd]) by reflexivity.
  assert (T3 : tree w3 = tree w2) by reflexivity.
  assert (C3 : cwd w3 = cwd w2) by reflexivity.
  assert (S3 : settings w3 = settings w2) by reflexivity.
  split.
  { rewrite Tr6, Tr5, Tr4, Tr3, Tr2, Tr1. rewrite <- !app_assoc. reflexivity. }
  split.
  { apply in_or_app. right. apply in_or_app. right. apply in_or_app. right.
    apply in_or_app. left. apply in_or_app. right. left. reflexivity. }
  split.
  { repeat (apply List.Forall_app; split); try assumption; repeat constructor.
    eapply List.Forall_impl; [|exact F4]. apply stream_exec. }
  split; [congruence|]. split; congruence.
Qed.

Lemma subprocess_run_expired cmd T p w :
  popen E cmd = Ok p -> List.Exists (expired T p) (p_ticks p) ->
  exists w' evs,
    subprocess_run E cmd (Some T) w = (Err (TimeoutExpired cmd T), w') /\
    trace w' = trace w ++ evs /\ In EvKill evs /\ List.Forall exec_event evs /\
    tree w' = p_effect_killed p (tree w) /\ same_place w w'.
Proof.
  intros Hp Hex. unfold subprocess_run.
  unfold bind at 1. unfold emit at 1. cbv iota beta.
  unfold bind at 1. unfold lift_result. rewrite Hp. cbv iota beta.
  unfold bind at 1. rewrite (wait_loop_expired _ _ _ _ _ Hex).
  eexists. exists [EvPopen cmd; EvKill]. split; [reflexivity|]. simpl.
  split; [rewrite <- app_assoc; reflexivity|].
  split; [right; left; reflexivity|].
  split; [repeat constructor|]. split; [reflexivity|]. split; reflexivity.
Qed.

Lemma execute_link_expired cmd rs p w :
  popen E cmd = Ok p ->
  List.Exists (expired (LINK_CMD_EXEC_TIMEOUT (settings w)) p) (p_ticks p) ->
  exists w' evs,
    execute_link E cmd rs w
    = (Err (TimeoutExpired cmd (LINK_CMD_EXEC_TIMEOUT (settings w))), w') /\
    trace w' = trace w ++ evs /\ In EvKill evs /\ List.Forall exec_event evs /\
    tree w' = p_effect_killed p (tree w) /\ same_place w w'.
Proof.
  intros Hp Hex. unfold execute_link. unfold bind at 1. unfold get. cbv iota beta zeta.
  destruct rs.
  - destruct (run_duplicate_streams_expired cmd _ p w Hp Hex) as (w' & evs & Hr & H).
    exists w', evs. split; [|exact H]. unfold bind at 1. rewrite Hr. reflexivity.
  - destruct (subprocess_run_expired cmd _ p w Hp Hex) as (w' & evs & Hr & H).
    exists w', evs. split; [|exact H]. unfold bind at 1. unfold bind at 1.
    rewrite Hr. reflexivity.
Qed.

End Supervisor.

(** ** Events of the recording entry points *)

(** no link file is written or removed *)
Definition harmless (e : event) : Prop :=
  match e with EvDump _ | EvRemove _ => False | _ => True end.

(** nothing is signed, written, loaded or removed *)
Definition unsigned_event (e : event) : Prop :=
  match e with EvDump _ | EvRemove _ | EvSign _ | EvLoad _ => False | _ => True end.

(** no command is run or examined *)
Definition commandless (e : event) : Prop :=
  match e with
  | EvStdout _ | EvStderr _ | EvMkstemp _ | EvRemoveTemp _ | EvPopen _ | EvKill => False
  | EvCheckMatch s => s <> "LIST_OF_ANY_STRING_SCHEMA"
  | _ => True
  end.

Ltac ev_incl :=
  let e := fresh "e" in
  let H := fresh "H" in
  intros e H; destruct e; simpl in *;
  try solve [auto | contradiction
            | intuition (subst; try discriminate; auto)].

(** A frame lemma used at a weaker frame. *)
Ltac pres_by lem :=
  eapply preserves_weaken; [|apply lem];
  let w := fresh in let w' := fresh in
  intros w w'; apply frame_weaken; [auto; discriminate..| ev_incl].

Section EntryFrames.

Context (E : Env).

Lemma check_match_frame (P : event -> Prop) schema ok :
  P (EvCheckMatch schema) -> preserves (frame true true true P) (check_match schema ok).
Proof. intros H. unfold check_match. pres. Qed.

Lemma check_if_frame (P : event -> Prop) b schema :
  P (EvCheckMatch schema) -> preserves (frame true true true P) (check_if b schema).
Proof. intros H. unfold check_if. pres. apply check_match_frame. assumption. Qed.

Lemma check_key_formats_frame (P : event -> Prop) sk gk :
  P (EvCheckMatch "KEY_SCHEMA") -> P (EvCheckMatch "KEYID_SCHEMA") ->
  preserves (frame true true true P) (check_key_formats E sk gk).
Proof.
  intros H1 H2. unfold check_key_formats, _check_match_signing_key. pres;
    apply check_match_frame; assumption.
Qed.

(** What [in_toto_run] does before it turns to the command. *)
Definition before_command (signing_key : option Key) (gpg_keyid : option string)
  (exclude_patterns : option (list string)) (base_path : option string)
  (metadata_directory : option string) (material_list : list string)
  (normalize_line_endings : bool) (lstrip_paths : option (list string))
  : M (gmap string (gmap string string)) :=
  check_key_formats E signing_key gpg_keyid ;;;
  check_if (truthy_list exclude_patterns) "NAMES_SCHEMA" ;;;
  check_if (truthy_str base_path) "PATH_SCHEMA" ;;;
  check_if (truthy_str metadata_directory) "PATH_SCHEMA" ;;;
  record_artifacts_as_dict E material_list exclude_patterns base_path true
    normalize_line_endings lstrip_paths.

Lemma before_command_frame sk gk ep bp mdd ml nle lsp :
  preserves (frame true false true unsigned_event)
    (before_command sk gk ep bp mdd ml nle lsp).
Proof.
  unfold before_command. pres.
  - pres_by (check_key_formats_frame unsigned_event sk gk I I).
  - pres_by (check_if_frame unsigned_event (truthy_list ep) "NAMES_SCHEMA" I).
  - pres_by (check_if_frame unsigned_event (truthy_str bp) "PATH_SCHEMA" I).
  - pres_by (check_if_frame unsigned_event (truthy_str mdd) "PATH_SCHEMA" I).
  - pres_by (record_artifacts_frame E ml ep bp true nle lsp).
Qed.

Lemma in_toto_run_command_raises name ml pl c cs rs sk gk gud gh ep bp cj re nle lsp
      mdd dsse w m w1 e w2 :
  before_command sk gk ep bp mdd ml nle lsp w = (Ok m, w1) ->
  execute_link E (c :: cs) rs
    (snd (check_match "LIST_OF_ANY_STRING_SCHEMA" true w1)) = (Err e, w2) ->
  in_toto_run E name ml pl (c :: cs) rs sk gk gud gh ep bp cj re nle lsp mdd dsse w
  = (Err e, w2).
Proof.
  intros Hb Hx. unfold before_command in Hb. unfold in_toto_run.
  repeat (apply bind_inv in Hb as [(? & ? & ? & Hb) | (? & _ & ?)]; [|discriminate]).
  repeat (erewrite bind_ok by eassumption).
  erewrite bind_err; [reflexivity|].
  erewrite bind_ok by reflexivity. exact Hx.
Qed.

End EntryFrames.

Section Timeout.
Context (E : Env).

(** C2: when the checks and the recording of materials that precede the
    command succeed, the command starts, and some poll finds the child still
    running with the clock past the configured timeout, [in_toto_run] raises
    [TimeoutExpired] for the command and the timeout: the child was killed,
    no output is returned, no link file is dumped, and the file tree is what
    the killed child left. *)
Theorem C2_timeout_kills_raises_and_writes_nothing
  (name : string) (material_list product_list : list string)
  (c : string) (cs : list string) (record_streams : bool)
  (signing_key : option Key) (gpg_keyid : option string) (gpg_use_default : bool)
  (gpg_home : option string) (exclude_patterns : option (list string))
  (base_path : option string)
  (compact_json record_environment normalize_line_endings : bool)
  (lstrip_paths : option (list string)) (metadata_directory : option string)
  (use_dsse : bool) (w : World)
  (materials_dict : gmap string (gmap string string)) (w1 : World) (p : proc) :
  before_command E signing_key gpg_keyid exclude_patterns base_path
    metadata_directory material_list normalize_line_endings lstrip_paths w
  = (Ok materials_dict, w1) ->
  popen E (c :: cs) = Ok p ->
  List.Exists (expired (LINK_CMD_EXEC_TIMEOUT (settings w)) p) (p_ticks p) ->
  exists w' evs,
    in_toto_run E name material_list product_list (c :: cs) record_streams
      signing_key gpg_keyid gpg_use_default gpg_home exclude_patterns base_path
      compact_json record_environment normalize_line_endings lstrip_paths
      metadata_directory use_dsse w
    = (Err (TimeoutExpired (c :: cs) (LINK_CMD_EXEC_TIMEOUT (settings w))), w') /\
    trace w' = trace w ++ evs /\
    In EvKill evs /\
    (forall f, ~ In (EvDump f) evs) /\
    tree w' = p_effect_killed p (tree w).
Proof.
  intros Hb Hp Hex.
  pose proof (before_command_frame E signing_key gpg_keyid exclude_patterns base_path
                metadata_directory material_list normalize_line_endings lstrip_paths w)
    as (T1 & _ & _ & S1 & (ev1 & Tr1 & F1)).
  rewrite Hb in *. cbn [snd] in *. specialize (T1 eq_refl).
  set (w1' := snd (check_match "LIST_OF_ANY_STRING_SCHEMA" true w1)).
  assert (Hw1' : tree w1' = tree w1 /\ settings w1' = settings w1 /\
                 trace w1' = trace w1 ++ [EvCheckMatch "LIST_OF_ANY_STRING_SCHEMA"]).
  { repeat split; reflexivity. }
  destruct Hw1' as (T1' & S1' & Tr1').
  assert (Hex' : List.Exists (expired (LINK_CMD_EXEC_TIMEOUT (settings w1')) p) (p_ticks p)).
  { rewrite S1', S1. assumption. }
  destruct (execute_link_expired E (c :: cs) record_streams p w1' Hp Hex')
    as (w' & evs & Hx & Tr & Hk & F & T & _).
  rewrite S1', S1 in Hx.
  exists w', (ev1 ++ [EvCheckMatch "LIST_OF_ANY_STRING_SCHEMA"] ++ evs).
  split; [eapply in_toto_run_command_raises; eassumption|].
  split; [rewrite Tr, Tr1', Tr1, <- !app_assoc; reflexivity|].
  split; [apply in_or_app; right; right; assumption|].
  split; [|congruence].
  intros f Hin. apply in_app_or in Hin as [Hin|[Hin|Hin]].
  - rewrite List.Forall_forall in F1. apply (F1 _ Hin).
  - discriminate.
  - rewrite List.Forall_forall in F. apply (F _ Hin).
Qed.

End Timeout.

(** ** What a computation returns *)

Definition returns {A} (m : M A) (Q : A -> Prop) : Prop :=
  forall w a w', m w = (Ok a, w') -> Q a.

Lemma returns_ret {A} (a : A) (Q : A -> Prop) : Q a -> returns (ret a) Q.
Proof. intros H w a' w' Heq. unfold ret in Heq. inversion Heq; subst. assumption. Qed.

Lemma returns_raise {A} e (Q : A -> Prop) : returns (raise e) Q.
Proof. intros w a w' Heq. discriminate. Qed.

Lemma returns_bind {A B} (m : M A) (k : A -> M B) (Q : B -> Prop) :
  (forall a, returns (k a) Q) -> returns (bind m k) Q.
Proof.
  intros Hk w b w' Heq.
  apply bind_inv in Heq as [(a & w1 & _ & Hk1) | (e & _ & Hr)]; [|discriminate].
  eapply Hk. eassumption.
Qed.

Lemma returns_bind_with {A B} (m : M A) (k : A -> M B) (Q1 : A -> Prop) (Q : B -> Prop) :
  returns m Q1 -> (forall a, Q1 a -> returns (k a) Q) -> returns (bind m k) Q.
Proof.
  intros Hm Hk w b w' Heq.
  apply bind_inv in Heq as [(a & w1 & Hm1 & Hk1) | (e & _ & Hr)]; [|discriminate].
  eapply Hk; [eapply Hm|]; eassumption.
Qed.

Section ExecFrames.

Context (E : Env).

Lemma kill_frame p : preserves (frame false true true exec_event) (kill p).
Proof. unfold kill. pres. Qed.

Lemma child_exit_frame p fo fe :
  preserves (frame false true false exec_event) (child_exit p fo fe).
Proof. unfold child_exit, child_write. pres. Qed.

Definition exec_frame : relation World := frame false true false exec_event.

Lemma poll_loop_frame cmd timeout p fo fe ticks : forall st,
  preserves exec_frame (poll_loop cmd timeout p fo fe ticks st).
Proof.
  unfold exec_frame.
  induction ticks as [|tk rest IH]; intros st; cbn [poll_loop]; pres.
  - unfold child_write. pres.
  - pres_by (kill_frame p).
  - pres_by duplicate_streams_frame.
  - apply IH.
Qed.

Lemma wait_loop_frame cmd timeout p ticks :
  preserves exec_frame (wait_loop cmd timeout p ticks).
Proof.
  unfold exec_frame.
  induction ticks as [|tk rest IH]; cbn [wait_loop]; pres.
  - pres_by (kill_frame p).
  - apply IH.
Qed.

Lemma run_duplicate_streams_frame cmd timeout :
  preserves exec_frame (_subprocess_run_duplicate_streams E cmd timeout).
Proof.
  unfold exec_frame, _subprocess_run_duplicate_streams.
  pres; first [ pres_by mkstemp_frame | apply poll_loop_frame | apply child_exit_frame
              | pres_by duplicate_streams_frame | pres_by remove_temp_frame ].
Qed.

Lemma subprocess_run_frame cmd timeout :
  preserves exec_frame (subprocess_run E cmd timeout).
Proof. unfold exec_frame, subprocess_run. pres. apply wait_loop_frame. Qed.

Lemma execute_link_frame cmd rs : preserves exec_frame (execute_link E cmd rs).
Proof.
  unfold exec_frame, execute_link. pres.
  - apply run_duplicate_streams_frame.
  - apply subprocess_run_frame.
Qed.

End ExecFrames.

(** ** The effect of the command on the file tree *)

Section ChildOnly.

Context (E : Env).

Definition in_time (T : Z) (p : proc) (tk : tick) : Prop :=
  timed_out (Some T) (p_start p) (t_now tk) = false.

Lemma expired_or_in_time T p ticks :
  List.Exists (expired T p) ticks \/ List.Forall (in_time T p) ticks.
Proof.
  induction ticks as [|tk rest [IH|IH]].
  - right. constructor.
  - left. apply List.Exists_cons_tl. assumption.
  - destruct (timed_out (Some T) (p_start p) (t_now tk)) eqn:Hto.
    + left. apply List.Exists_cons_hd. exact Hto.
    + right. constructor; assumption.
Qed.

Lemma wait_loop_in_time cmd T p ticks w :
  List.Forall (in_time T p) ticks -> wait_loop cmd (Some T) p ticks w = (Ok tt, w).
Proof.
  induction 1 as [|tk rest Hto Hrest IH]; [reflexivity|].
  cbn [wait_loop]. unfold in_time in Hto. rewrite Hto. exact IH.
Qed.

Lemma run_duplicate_streams_in_time cmd T p w :
  popen E cmd = Ok p -> List.Forall (in_time T p) (p_ticks p) ->
  exists out err w',
    _subprocess_run_duplicate_streams E cmd (Some T) w
    = (Ok (p_returncode p, out, err), w') /\
    tree w' = p_effect p (tree w).
Proof.
  intros Hp Hall. unfold _subprocess_run_duplicate_streams.
  pose proof (mkstemp_frame w) as (T1 & _).
  set (w1 := snd (mkstemp w)) in *.
  rewrite (bind_ok _ _ w (next_temp w) w1) by reflexivity.
  pose proof (mkstemp_frame w1) as (T2 & _).
  set (w2 := snd (mkstemp w1)) in *.
  rewrite (bind_ok _ _ w1 (next_temp w1) w2) by reflexivity.
  set (fo := next_temp w). set (fe := next_temp w1).
  set (w3 := snd (emit (EvPopen cmd) w2)).
  destruct (poll_loop_in_time cmd (Some T) p fo fe (p_ticks p) (mkStreams 0 0 "" "") w3 Hall)
    as (st4 & w4 & evs & Hpl & _ & _ & T4 & _).
  set (w5 := snd (child_exit p fo fe w4)).
  assert (T5 : tree w5 = p_effect p (tree w4)) by reflexivity.
  pose proof (duplicate_streams_frame fo fe st4 w5) as (T6 & _).
  destruct (duplicate_streams_ok fo fe st4 w5) as (st6 & w6 & Hd).
  rewrite Hd in T6. cbn [snd] in T6.
  pose proof (remove_temp_frame fo w6) as (T7 & _).
  set (w7 := snd (remove_temp fo w6)) in *.
  pose proof (remove_temp_frame fe w7) as (T8 & _).
  set (w8 := snd (remove_temp fe w7)) in *.
  exists (std_out st6), (std_err st6), w8. split.
  { unfold bind at 1. unfold try_finally.
    rewrite (bind_ok _ _ w2 tt w3) by reflexivity.
    rewrite (bind_ok _ _ w3 p w3) by (unfold lift_result; rewrite Hp; reflexivity).
    rewrite (bind_ok _ _ _ _ _ Hpl).
    rewrite (bind_ok _ _ w4 tt w5) by reflexivity.
    rewrite (bind_ok _ _ _ _ _ Hd).
    unfold ret at 1.
    rewrite (bind_ok _ _ w6 tt w7) by reflexivity.
    reflexivity. }
  specialize (T1 eq_refl). specialize (T2 eq_refl). specialize (T6 eq_refl).
  specialize (T7 eq_refl). specialize (T8 eq_refl).
  assert (T3 : tree w3 = tree w2) by reflexivity.
  congruence.
Qed.

(** The file tree after the command: as before, or as the child left it. *)
Definition child_only (cmd : list string) (w w' : World) : Prop :=
  tree w' = tree w \/
  exists p, popen E cmd = Ok p /\
            (tree w' = p_effect p (tree w) \/ tree w' = p_effect_killed p (tree w)).

Lemma execute_link_tree cmd rs w r w' :
  execute_link E cmd rs w = (r, w') -> child_only cmd w w'.
Proof.
  intros Hx. destruct (popen E cmd) as [p|e] eqn:Hp.
  - right. exists p. split; [exact Hp|].
    destruct (expired_or_in_time (LINK_CMD_EXEC_TIMEOUT (settings w)) p (p_ticks p))
      as [Hex|Hin].
    + right. destruct (execute_link_expired E cmd rs p w Hp Hex) as (w2 & evs & Hr & H).
      rewrite Hr in Hx. inversion Hx; subst. apply H.
    + left. unfold execute_link in Hx. unfold bind at 1 in Hx. unfold get in Hx.
      cbv beta iota zeta in Hx. destruct rs.
      * destruct (run_duplicate_streams_in_time cmd _ p w Hp Hin)
          as (out & err & w2 & Hr & Ht).
        rewrite (bind_ok _ _ _ _ _ Hr) in Hx. unfold ret in Hx.
        inversion Hx; subst. exact Ht.
      * unfold subprocess_run in Hx.
        set (w3 := snd (emit (EvPopen cmd) w)) in *.
        unfold bind at 1 in Hx. unfold bind at 1 in Hx.
        rewrite (bind_ok _ _ w tt w3) in Hx by reflexivity.
        rewrite (bind_ok _ _ w3 p w3) in Hx
          by (unfold lift_result; rewrite Hp; reflexivity).
        rewrite (bind_ok _ _ _ _ _ (wait_loop_in_time cmd _ p _ w3 Hin)) in Hx.
        unfold bind, get, set_tree, ret in Hx. cbv beta iota in Hx.
        inversion Hx; subst. reflexivity.
  - left. unfold execute_link in Hx. unfold bind at 1 in Hx. unfold get in Hx.
    cbv beta iota zeta in Hx. destruct rs.
    + unfold _subprocess_run_duplicate_streams in Hx.
      pose proof (mkstemp_frame w) as (T1 & _).
      set (w1 := snd (mkstemp w)) in *.
      unfold bind at 1 in Hx.
      rewrite (bind_ok _ _ w (next_temp w) w1) in Hx by reflexivity.
      pose proof (mkstemp_frame w1) as (T2 & _).
      set (w2 := snd (mkstemp w1)) in *.
      rewrite (bind_ok _ _ w1 (next_temp w1) w2) in Hx by reflexivity.
      set (w3 := snd (emit (EvPopen cmd) w2)) in *.
      unfold bind at 1 in Hx. unfold try_finally in Hx.
      rewrite (bind_ok _ _ w2 tt w3) in Hx by reflexivity.
      rewrite (bind_err _ _ w3 e w3) in Hx
        by (unfold lift_result; rewrite Hp; reflexivity).
      pose proof (remove_temp_frame (next_temp w) w3) as (T7 & _).
      set (w7 := snd (remove_temp (next_temp w) w3)) in *.
      rewrite (bind_ok _ _ w3 tt w7) in Hx by reflexivity.
      pose proof (remove_temp_frame (next_temp w1) w7) as (T8 & _).
      set (w8 := snd (remove_temp (next_temp w1) w7)) in *.
      change (remove_temp (next_temp w1) w7) with (Ok tt, w8) in Hx.
      cbv beta iota in Hx. inversion Hx; subst.
      specialize (T1 eq_refl). specialize (T2 eq_refl). specialize (T7 eq_refl).
      specialize (T8 eq_refl).
      assert (T3 : tree w3 = tree w2) by reflexivity. congruence.
    + unfold subprocess_run in Hx.
      set (w3 := snd (emit (EvPopen cmd) w)) in *.
      unfold bind at 1 in Hx. unfold bind at 1 in Hx.
      rewrite (bind_ok _ _ w tt w3) in Hx by reflexivity.
      rewrite (bind_err _ _ w3 e w3) in Hx
        by (unfold lift_result; rewrite Hp; reflexivity).
      inversion Hx; subst. reflexivity.
Qed.

End ChildOnly.

(** ** Runs without a key *)

Section RunFacts.

Context (E : Env).

Lemma get_payload_add_signature md sg :
  get_payload (add_signature md sg) = get_payload md.
Proof. destruct md; reflexivity. Qed.

Lemma create_signature_frame (P : event -> Prop) md signer :
  P (EvSign signer) -> preserves (frame true true true P) (create_signature E md signer).
Proof. intros H. unfold create_signature. pres. Qed.

Lemma create_signature_returns md signer :
  returns (create_signature E md signer)
    (fun r => get_payload (snd r) = get_payload md).
Proof.
  unfold create_signature. apply returns_bind. intros _. apply returns_bind. intros sg.
  apply returns_ret. apply get_payload_add_signature.
Qed.

Lemma dump_frame (P : event -> Prop) md fn :
  P (EvDump fn) -> preserves (frame false true true P) (dump md fn).
Proof. intros H. unfold dump. pres. Qed.

(** The command step of [in_toto_run]. *)
Definition run_command (link_cmd_args : list string) (record_streams : bool)
  : M (gmap string pyval) :=
  match link_cmd_args with
  | _ :: _ =>
      check_match "LIST_OF_ANY_STRING_SCHEMA" true ;;;
      execute_link E link_cmd_args record_streams
  | [] => ret ∅
  end.

(** The link metadata before it is signed. *)
Definition unsigned_metadata (name : string) (link_cmd_args : list string)
  (compact_json use_dsse : bool) (materials_dict products_dict : gmap string (gmap string string))
  (byproducts : gmap string pyval) (environment : gmap string string) : Metadata :=
  let link := mkLink name materials_dict products_dict link_cmd_args
                byproducts environment in
  if use_dsse then Envelope link [] else Metablock link [] compact_json.

(** What [in_toto_run] does after the command when no key argument is
    passed. *)
Definition after_command_unsigned (name : string) (product_list link_cmd_args : list string)
  (exclude_patterns : option (list string)) (base_path : option string)
  (compact_json record_environment normalize_line_endings : bool)
  (lstrip_paths : option (list string)) (use_dsse : bool)
  (materials_dict : gmap string (gmap string string)) (byproducts : gmap string pyval)
  : M Metadata :=
  check_if (match product_list with [] => false | _ => true end) "PATHS_SCHEMA" ;;;
  products_dict <- record_artifacts_as_dict E product_list exclude_patterns
                     base_path true normalize_line_endings lstrip_paths ;;
  w <- get ;;
  ret (unsigned_metadata name link_cmd_args compact_json use_dsse materials_dict
         products_dict byproducts (record_env record_environment w)).

Lemma in_toto_run_unsigned_unfold name ml pl cmd rs gk gh ep bp cj re nle lsp mdd dsse w :
  truthy_str gk = false ->
  in_toto_run E name ml pl cmd rs None gk false gh ep bp cj re nle lsp mdd dsse w
  = (m <- before_command E None gk ep bp mdd ml nle lsp ;;
     b <- run_command cmd rs ;;
     after_command_unsigned name pl cmd ep bp cj re nle lsp dsse m b) w.
Proof.
  intros Hg. unfold in_toto_run, before_command, run_command, after_command_unsigned,
    select_signer. rewrite Hg. cbv zeta.
  unfold bind.
  repeat match goal with
         | |- context [match ?c ?x with _ => _ end] =>
             destruct (c x) as [[?|?] ?] eqn:?; try reflexivity
         end.
Qed.

Lemma run_command_tree cmd rs w r w' :
  run_command cmd rs w = (r, w') -> child_only E cmd w w'.
Proof.
  unfold run_command. destruct cmd as [|c cs].
  - unfold ret. intros H. inversion H; subst. left. reflexivity.
  - intros H. set (w1 := snd (check_match "LIST_OF_ANY_STRING_SCHEMA" true w)) in *.
    rewrite (bind_ok _ _ w tt w1) in H by reflexivity.
    apply execute_link_tree in H. exact H.
Qed.

Lemma run_command_frame cmd rs :
  preserves (frame false true false unsigned_event) (run_command cmd rs).
Proof.
  unfold run_command. pres.
  - pres_by (check_match_frame unsigned_event "LIST_OF_ANY_STRING_SCHEMA" true I).
  - pres_by (execute_link_frame E (s :: cmd) rs).
Qed.

Lemma after_command_unsigned_frame name pl cmd ep bp cj re nle lsp dsse m b :
  preserves (frame true false true unsigned_event)
    (after_command_unsigned name pl cmd ep bp cj re nle lsp dsse m b).
Proof.
  unfold after_command_unsigned. pres.
  - pres_by (check_if_frame unsigned_event
               (match pl with [] => false | _ => true end) "PATHS_SCHEMA" I).
  - pres_by (record_artifacts_frame E pl ep bp true nle lsp).
Qed.

End RunFacts.

Section WithoutKey.
Context (E : Env).


End WithoutKey.

Section NoCommandFrame.
Context (E : Env).

Lemma in_toto_run_no_command_frame name ml pl rs sk gk gud gh ep bp cj re nle lsp mdd dsse :
  preserves (frame false false true commandless)
    (in_toto_run E name ml pl [] rs sk gk gud gh ep bp cj re nle lsp mdd dsse).
Proof.
  unfold in_toto_run, check_key_formats, _check_match_signing_key, check_if,
    check_match, create_signature, dump.
  pres; pres_by record_artifacts_frame.
Qed.

End NoCommandFrame.

(** ** Runs without a command *)

Section NoCommand.
Context (E : Env).

Lemma in_toto_run_no_command_returns name ml pl rs sk gk gud gh ep bp cj re nle lsp mdd dsse :
  returns (in_toto_run E name ml pl [] rs sk gk gud gh ep bp cj re nle lsp mdd dsse)
    (fun md => byproducts (get_payload md) = ∅ /\ command (get_payload md) = []).
Proof.
  unfold in_toto_run.
  do 5 (apply returns_bind; intros ?).
  eapply returns_bind_with with (Q1 := fun b => b = ∅); [apply returns_ret; reflexivity|].
  intros b ->.
  do 3 (apply returns_bind; intros ?).
  destruct (select_signer sk gk gud gh) as [signer|].
  - eapply returns_bind_with; [apply create_signature_returns|].
    intros r Hr. apply returns_bind. intros _. apply returns_ret.
    cbv beta in Hr. rewrite Hr. destruct dsse; split; reflexivity.
  - apply returns_ret. destruct dsse; split; reflexivity.
Qed.

(** C10: [in_toto_run] with an empty command list starts no process and does
    not check the command against [LIST_OF_ANY_STRING_SCHEMA]; when it
    returns, the byproducts of the link are the empty dictionary and its
    command is the empty list. *)
Theorem C10_empty_command_launches_nothing
  (name : string) (material_list product_list : list string) (record_streams : bool)
  (signing_key : option Key) (gpg_keyid : option string) (gpg_use_default : bool)
  (gpg_home : option string) (exclude_patterns : option (list string))
  (base_path : option string)
  (compact_json record_environment normalize_line_endings : bool)
  (lstrip_paths : option (list string)) (metadata_directory : option string)
  (use_dsse : bool) (w : World) (r : result Metadata) (w' : World) :
  in_toto_run E name material_list product_list [] record_streams
    signing_key gpg_keyid gpg_use_default gpg_home exclude_patterns base_path
    compact_json record_environment normalize_line_endings lstrip_paths
    metadata_directory use_dsse w = (r, w') ->
  (exists evs,
     trace w' = trace w ++ evs /\
     (forall cmd, ~ In (EvPopen cmd) evs) /\
     ~ In (EvCheckMatch "LIST_OF_ANY_STRING_SCHEMA") evs) /\
  (forall md, r = Ok md ->
     byproducts (get_payload md) = ∅ /\ command (get_payload md) = []).
Proof.
  intros Hrun. split.
  - pose proof (in_toto_run_no_command_frame E name material_list product_list
                  record_streams signing_key gpg_keyid gpg_use_default gpg_home
                  exclude_patterns base_path compact_json record_environment
                  normalize_line_endings lstrip_paths metadata_directory use_dsse w)
      as (_ & _ & _ & _ & (evs & Tr & F)).
    rewrite Hrun in Tr. cbn [snd] in Tr. exists evs. split; [assumption|].
    rewrite List.Forall_forall in F. split.
    + intros cmd Hin. apply (F _ Hin).
    + intros Hin. apply (F _ Hin). reflexivity.
  - intros md ->.
    eapply in_toto_run_no_command_returns. exact Hrun.
Qed.

End NoCommand.

(** ** Stopping a recording *)

Definition check_event (e : event) : Prop :=
  match e with EvCheckMatch _ => True | _ => False end.

Lemma check_harmless e : check_event e -> harmless e.
Proof. destruct e; simpl; auto. Qed.

Section Stop.

Context (E : Env).
Variables (step_name : string) (product_list : list string)
  (signing_key : option Key) (gpg_keyid : option string) (gpg_use_default : bool)
  (gpg_home : option string) (exclude_patterns : option (list string))
  (base_path : option string) (normalize_line_endings : bool)
  (lstrip_paths : option (list string)) (metadata_directory : option string).

(** The format checks [in_toto_record_stop] starts with. *)
Definition stop_checks : M unit :=
  check_key_formats E signing_key gpg_keyid ;;;
  check_if (truthy_list exclude_patterns) "NAMES_SCHEMA" ;;;
  check_if (truthy_str base_path) "PATH_SCHEMA" ;;;
  check_if (truthy_str metadata_directory) "PATH_SCHEMA".

(** From the verified preliminary link to the signed final link and its
    file name. *)
Definition stop_finish (link_metadata : Metadata) (keyid : string)
  : M (Metadata * string) :=
  products <- record_artifacts_as_dict E product_list exclude_patterns
                base_path true normalize_line_endings lstrip_paths ;;
  let link := get_payload link_metadata in
  let link := mkLink (link_name link) (materials link) products
                (command link) (byproducts link) (environment link) in
  let link_metadata :=
    match link_metadata with
    | Metablock _ _ _ => Metablock link [] false
    | Envelope _ _ => Envelope link []
    end in
  let signer :=
    match signing_key with
    | Some k => SSlibSigner k
    | None => GPGSigner (Some keyid) gpg_home
    end in
  r <- create_signature E link_metadata signer ;;
  let fn := FILENAME_FORMAT step_name keyid in
  let fn :=
    match metadata_directory with
    | Some d => os_path.join d fn
    | None => fn
    end in
  ret (snd r, fn).

(** Loading the preliminary link and deriving the key it is verified
    with. *)
Definition stop_load (unfinished_fn : string) : M (Metadata * string * Key) :=
  link_metadata <- load unfinished_fn ;;
  kv <- verification_key_for E link_metadata signing_key gpg_keyid gpg_home ;;
  ret (link_metadata, fst kv, snd kv).

(** Everything up to the signature of the final link. *)
Definition stop_front (unfinished_fn : string) : M (Metadata * string) :=
  x <- stop_load unfinished_fn ;;
  verify_signature E (fst (fst x)) (snd x) ;;;
  stop_finish (fst (fst x)) (snd (fst x)).

Definition stop_with (unfinished_fn : string) : M unit :=
  y <- stop_front unfinished_fn ;;
  dump (fst y) (snd y) ;;;
  os_remove unfinished_fn.

Lemma record_stop_unfold w :
  no_key_argument signing_key gpg_keyid gpg_use_default = false ->
  in_toto_record_stop E step_name product_list signing_key gpg_keyid
    gpg_use_default gpg_home exclude_patterns base_path normalize_line_endings
    lstrip_paths metadata_directory w
  = (stop_checks ;;;
     unfinished_fn <- find_unfinished E step_name signing_key ;;
     stop_with unfinished_fn) w.
Proof.
  intros Hk. unfold in_toto_record_stop, stop_checks, stop_with, stop_front, stop_load,
    stop_finish. rewrite Hk. cbv zeta.
  unfold bind, ret. cbv beta iota. cbn [fst snd].
  repeat match goal with
         | |- context [match ?c ?x with _ => _ end] =>
             destruct (c x) as [[?|?] ?] eqn:?; cbv beta iota; cbn [fst snd];
             try reflexivity
         end.
Qed.

Lemma stop_checks_frame : preserves (frame true true true check_event) stop_checks.
Proof.
  unfold stop_checks, check_key_formats, _check_match_signing_key, check_if, check_match.
  pres.
Qed.

Lemma find_unfinished_frame :
  preserves (frame true true true check_event) (find_unfinished E step_name signing_key).
Proof. unfold find_unfinished. pres. Qed.

Lemma stop_load_frame fn : preserves (frame true true true harmless) (stop_load fn).
Proof. unfold stop_load, load, verification_key_for. pres. Qed.

Lemma stop_finish_frame md kid :
  preserves (frame true false true harmless) (stop_finish md kid).
Proof.
  unfold stop_finish, create_signature. pres; pres_by record_artifacts_frame.
Qed.

Lemma stop_front_frame fn : preserves (frame true false true harmless) (stop_front fn).
Proof.
  unfold stop_front, verify_signature. pres.
  - pres_by stop_load_frame.
  - apply stop_finish_frame.
  Unshelve. all: exact tt.
Qed.

(** Locating and loading the preliminary link, up to the verification key:
    the preliminary file name, the loaded metadata, the key id and the
    key. *)
Definition stop_prelude : M (string * (Metadata * string * Key)) :=
  stop_checks ;;;
  unfinished_fn <- find_unfinished E step_name signing_key ;;
  x <- stop_load unfinished_fn ;;
  ret (unfinished_fn, x).

Lemma stop_prelude_frame : preserves (frame true true true harmless) stop_prelude.
Proof.
  unfold stop_prelude. pres.
  - pres_by stop_checks_frame.
  - pres_by find_unfinished_frame.
  - apply stop_load_frame.
Qed.

Lemma dump_cases md fn w :
  (exists e, dump md fn w = (Err e, w)) \/
  (exists t, write_node (resolve (cwd w) fn) (Serialized md) (tree w) = Some t /\
             dump md fn w
             = (Ok tt, mkWorld t (cwd w) (settings w) (temps w) (next_temp w)
                         (trace w ++ [EvDump fn]))).
Proof.
  unfold dump, bind, get.
  destruct (write_node (resolve (cwd w) fn) (Serialized md) (tree w)) as [t|].
  - right. exists t. split; reflexivity.
  - left. eexists. reflexivity.
Qed.

Lemma os_remove_cases fn w :
  (exists e, os_remove fn w = (Err e, w)) \/
  (exists t, unlink_node (resolve (cwd w) fn) (tree w) = Some t /\
             os_remove fn w
             = (Ok tt, mkWorld t (cwd w) (settings w) (temps w) (next_temp w)
                         (trace w ++ [EvRemove fn]))).
Proof.
  unfold os_remove, bind, get.
  destruct (unlink_node (resolve (cwd w) fn) (tree w)) as [t|].
  - right. exists t. split; reflexivity.
  - left. eexists. reflexivity.
Qed.

(** The three ways a run of [in_toto_record_stop] can end, read off its
    new events [evs], its result and the file trees before and after. *)
Inductive stop_outcome (t : node) (r : result unit) (t' : node)
  : list event -> Prop :=
| stop_failed evs e :
    (* nothing written, nothing removed *)
    List.Forall harmless evs -> r = Err e -> t' = t ->
    stop_outcome t r t' evs
| stop_written pre fn e comps md :
    (* the final link is written, the preliminary link is still there *)
    List.Forall harmless pre -> r = Err e ->
    write_node comps (Serialized md) t = Some t' ->
    stop_outcome t r t' (pre ++ [EvDump fn])
| stop_done pre fn unfinished_fn comps md t1 comps' :
    (* the final link is written, then the preliminary link is removed *)
    List.Forall harmless pre -> r = Ok tt ->
    write_node comps (Serialized md) t = Some t1 ->
    unlink_node comps' t1 = Some t' ->
    stop_outcome t r t' (pre ++ [EvDump fn; EvRemove unfinished_fn]).

Lemma stop_with_outcome fn w r w' :
  stop_with fn w = (r, w') ->
  exists evs, trace w' = trace w ++ evs /\ stop_outcome (tree w) r (tree w') evs.
Proof.
  unfold stop_with. intros Hrun.
  pose proof (stop_front_frame fn w) as (T1 & _ & _ & _ & (ev1 & Tr1 & F1)).
  specialize (T1 eq_refl).
  apply bind_inv in Hrun as [(y & w1 & H1 & Hrun) | (e & H1 & ->)].
  2:{ rewrite H1 in *. cbn [snd] in *. exists ev1. split; [assumption|].
      eapply stop_failed; [assumption | reflexivity | assumption]. }
  rewrite H1 in *. cbn [snd] in *.
  destruct (dump_cases (fst y) (snd y) w1) as [(e & Hd) | (t & Hw & Hd)].
  { rewrite (bind_err _ _ _ _ _ Hd) in Hrun. inversion Hrun; subst.
    exists ev1. split; [assumption|].
    eapply stop_failed; [assumption | reflexivity | assumption]. }
  rewrite (bind_ok _ _ _ _ _ Hd) in Hrun.
  set (w2 := mkWorld _ _ _ _ _ _) in *.
  destruct (os_remove_cases fn w2) as [(e & Hr) | (t' & Hu & Hr)].
  { rewrite Hr in Hrun. inversion Hrun; subst.
    exists (ev1 ++ [EvDump (snd y)]). split.
    - simpl. rewrite Tr1, app_assoc. reflexivity.
    - eapply stop_written; [assumption | reflexivity |]. simpl. rewrite <- T1. exact Hw. }
  rewrite Hr in Hrun. inversion Hrun; subst.
  exists (ev1 ++ [EvDump (snd y); EvRemove fn]). split.
  - simpl. rewrite Tr1, <- !app_assoc. reflexivity.
  - eapply stop_done; [assumption | reflexivity | |].
    + rewrite <- T1. exact Hw.
    + exact Hu.
Qed.

End Stop.

Section StopOrder.
Context (E : Env).

Lemma stop_outcome_more t r t' pre evs :
  List.Forall harmless pre -> stop_outcome t r t' evs -> stop_outcome t r t' (pre ++ evs).
Proof.
  intros Hp H. destruct H.
  - eapply stop_failed; [apply List.Forall_app; split; assumption | eassumption | assumption].
  - rewrite app_assoc. eapply stop_written;
      [apply List.Forall_app; split; assumption | eassumption | eassumption].
  - rewrite app_assoc. eapply stop_done;
      [apply List.Forall_app; split; assumption | eassumption | eassumption | eassumption].
Qed.


End StopOrder.

(** ** The first event of a computation *)

Definition any_frame : relation World := frame false false false (fun _ => True).

Definition starts_with (e : event) {A} (m : M A) : Prop :=
  forall w, exists post, trace (snd (m w)) = trace w ++ e :: post.

Lemma starts_with_emit e : starts_with e (emit e).
Proof. intros w. exists []. reflexivity. Qed.

Lemma starts_with_bind e {A B} (m : M A) (k : A -> M B) :
  starts_with e m -> (forall a, preserves any_frame (k a)) -> starts_with e (bind m k).
Proof.
  intros Hm Hk w. destruct (Hm w) as [post Hp]. unfold bind.
  destruct (m w) as [[a|x] w1]; cbn [snd] in *.
  - destruct (Hk a w1) as (_ & _ & _ & _ & (evs & Tr & _)).
    exists (post ++ evs). rewrite Tr, Hp, <- app_assoc. reflexivity.
  - exists post. assumption.
Qed.

Section StopStarts.

Context (E : Env).
Variables (step_name : string) (product_list : list string)
  (signing_key : option Key) (gpg_keyid : option string)
  (gpg_home : option string) (exclude_patterns : option (list string))
  (base_path : option string) (normalize_line_endings : bool)
  (lstrip_paths : option (list string)) (metadata_directory : option string).

Lemma stop_with_starts fn :
  starts_with (EvLoad fn)
    (stop_with E step_name product_list signing_key gpg_keyid gpg_home
       exclude_patterns base_path normalize_line_endings lstrip_paths
       metadata_directory fn).
Proof.
  unfold stop_with, stop_front, stop_load, load.
  repeat (apply starts_with_bind; [|intros ?]); try apply starts_with_emit;
    unfold any_frame, verification_key_for, verify_signature, dump, os_remove; pres.
  pres_by stop_finish_frame.
Qed.

End StopStarts.

Section DefaultIdentity.
Context (E : Env).

Lemma stop_checks_total gpg_keyid ep bp mdd w :
  truthy_str gpg_keyid = false ->
  exists w1, stop_checks E None gpg_keyid ep bp mdd w = (Ok tt, w1).
Proof.
  intros Hg. unfold stop_checks, check_key_formats, check_if, check_match.
  rewrite Hg. unfold bind, ret, emit.
  destruct (truthy_list ep), (truthy_str bp), (truthy_str mdd); eexists; reflexivity.
Qed.

(** C5: [in_toto_record_stop] called with neither a signing key nor a gpg
    keyid and with [gpg_use_default] set locates the preliminary link by the
    glob of the unfinished-file pattern for the step name.  No match raises
    [LinkNotFoundError] after nothing but format checks; more than one match
    raises [LinkNotFoundError] with a message that lists all the matches;
    exactly one match is the file that is loaded. *)
Theorem C5_default_identity_needs_exactly_one_match
  (step_name : string) (product_list : list string) (gpg_keyid : option string)
  (gpg_home : option string) (exclude_patterns : option (list string))
  (base_path : option string) (normalize_line_endings : bool)
  (lstrip_paths : option (list string)) (metadata_directory : option string)
  (w : World) (r : result unit) (w' : World) :
  truthy_str gpg_keyid = false ->
  in_toto_record_stop E step_name product_list None gpg_keyid true gpg_home
    exclude_patterns base_path normalize_line_endings lstrip_paths
    metadata_directory w = (r, w') ->
  exists evs,
    trace w' = trace w ++ evs /\
    match glob E (tree w) (cwd w) (UNFINISHED_FILENAME_FORMAT_GLOB step_name "*") with
    | [] =>
        r = Err (LinkNotFoundError
                   ("Could not find a preliminary link for step '" +:+ step_name
                    +:+ "' in the current working directory.")) /\
        List.Forall check_event evs
    | [unfinished_fn] =>
        exists pre post,
          evs = pre ++ EvLoad unfinished_fn :: post /\ List.Forall check_event pre
    | first :: second :: others =>
        r = Err (LinkNotFoundError
                   ("Found more than one preliminary links for step '" +:+ step_name
                    +:+ "' in the current working directory: "
                    +:+ Py.join ", " (first :: second :: others)
                    +:+ ". We need exactly one to stop recording.")) /\
        List.Forall check_event evs
    end.
Proof.
  intros Hg Hrun.
  assert (Hk : no_key_argument None gpg_keyid true = false).
  { unfold no_key_argument. rewrite Hg. apply andb_false_r. }
  rewrite record_stop_unfold in Hrun by assumption.
  destruct (stop_checks_total gpg_keyid exclude_patterns base_path metadata_directory
              w Hg) as [w1 H1].
  pose proof (stop_checks_frame E None gpg_keyid exclude_patterns base_path
                metadata_directory w) as (T1 & C1 & _ & _ & (ev1 & Tr1 & F1)).
  rewrite H1 in *. cbn [snd] in *. specialize (T1 eq_refl). specialize (C1 eq_refl).
  rewrite (bind_ok _ _ _ _ _ H1) in Hrun.
  unfold find_unfinished in Hrun. unfold bind at 1 in Hrun. unfold bind at 1 in Hrun.
  unfold get in Hrun. cbv beta iota in Hrun. rewrite T1, C1 in Hrun.
  destruct (glob E (tree w) (cwd w) (UNFINISHED_FILENAME_FORMAT_GLOB step_name "*"))
    as [|fn [|second others]].
  - unfold raise in Hrun. inversion Hrun; subst. exists ev1.
    split; [assumption|]. split; [reflexivity | assumption].
  - unfold ret in Hrun.
    destruct (stop_with_starts E step_name product_list None gpg_keyid gpg_home
                exclude_patterns base_path normalize_line_endings lstrip_paths
                metadata_directory fn w1) as [post Hp].
    rewrite Hrun in Hp. cbn [snd] in Hp.
    exists (ev1 ++ EvLoad fn :: post). split.
    + rewrite Hp, Tr1, <- app_assoc. reflexivity.
    + exists ev1, post. split; [reflexivity | assumption].
  - unfold raise in Hrun. inversion Hrun; subst. exists ev1.
    split; [assumption|]. split; [reflexivity | assumption].
Qed.

End DefaultIdentity.

(** ** Key formation *)

(** C7: with a non-empty list of strip prefixes, [_apply_left_strip] forms
    the key by removing the first prefix, in list order, that the path starts
    with (the path unchanged when none matches); it raises [PrefixError] when
    that key is already in the dictionary being built and returns the key
    otherwise, leaving the world alone.  Scanning a tree that holds [x] and
    [sub/x] with the strip prefix [sub/] raises the error for the key [x]. *)
Theorem C7_first_matching_prefix_is_stripped_and_collisions_raise
  (artifact_filepath : string) (artifacts_dict : gmap string (gmap string string))
  (prefix : string) (rest : list string) (w : World) :
  let key := strip_first_prefix artifact_filepath (prefix :: rest) in
  _apply_left_strip artifact_filepath artifacts_dict (Some (prefix :: rest)) w
  = (if bool_decide (is_Some (artifacts_dict !! key))
     then Err (PrefixError
                 ("Prefix selection has resulted in non unique dictionary key '"
                  +:+ key +:+ "'"))
     else Ok key, w) /\
  (forall before pre after,
     prefix :: rest = before ++ pre :: after ->
     List.Forall (fun q => Py.startswith artifact_filepath q = false) before ->
     Py.startswith artifact_filepath pre = true ->
     key = Py.drop (String.length pre) artifact_filepath /\
     artifact_filepath = pre +:+ key) /\
  (List.Forall (fun q => Py.startswith artifact_filepath q = false) (prefix :: rest) ->
   key = artifact_filepath) /\
  fst (record_artifacts_as_dict Demo.env ["."] None None false false
         (Some ["sub/"]) Demo.w0)
  = Err (PrefixError "Prefix selection has resulted in non unique dictionary key 'x'").
Proof.
  intros key. split; [|split; [|split]].
  - unfold _apply_left_strip. cbn [truthy_list or_nil]. fold key.
    destruct (bool_decide (is_Some (artifacts_dict !! key))); reflexivity.
  - intros before pre after Hl Hb Hp. unfold key. rewrite Hl.
    rewrite (strip_first_prefix_first _ _ _ _ Hb Hp).
    split; [reflexivity | apply startswith_drop, Hp].
  - intros Hn. apply strip_first_prefix_none, Hn.
  - vm_compute. reflexivity.
Qed.

(** ** The final read of the child's streams *)

Lemma take_length n s : String.length (Py.take n s) <= n.
Proof.
  revert s. induction n as [|n IH]; intros s; simpl; [lia|].
  destruct s as [|c s]; simpl; [lia|]. specialize (IH s). lia.
Qed.

Lemma append_length (s1 s2 : string) :
  String.length (s1 +:+ s2) = String.length s1 + String.length s2.
Proof. induction s1 as [|c s1 IH]; simpl; [reflexivity|]. rewrite IH. reflexivity. Qed.

(** One call of [_duplicate_streams] adds at most one buffer to each of the
    captured streams. *)
Lemma duplicate_streams_one_chunk stdout_name stderr_name st w st' w' :
  _duplicate_streams stdout_name stderr_name st w = (Ok st', w') ->
  String.length (std_out st') <= String.length (std_out st) + DEFAULT_BUFFER_SIZE /\
  String.length (std_err st') <= String.length (std_err st) + DEFAULT_BUFFER_SIZE.
Proof.
  unfold _duplicate_streams, bind, get, emit, ret. cbv beta iota zeta.
  intros H. inversion H; subst; clear H. cbn [std_out std_err].
  rewrite !append_length. unfold reader_read.
  pose proof (take_length DEFAULT_BUFFER_SIZE
                (Py.drop (stdout_pos st) (default "" (temps w !! stdout_name)))).
  pose proof (take_length DEFAULT_BUFFER_SIZE
                (Py.drop (stderr_pos st) (default "" (temps w !! stderr_name)))).
  lia.
Qed.

(** C3: a child that writes one character more than [io.DEFAULT_BUFFER_SIZE]
    after the last poll that found it running and then exits, well within the
    timeout of ten units: the single read after the loop takes one buffer,
    and the returned standard output is one character short of what the
    child wrote. *)
Theorem C3_final_read_takes_one_buffer_only :
  popen Demo.env ["loud"] = Ok Demo.loud /\
  p_ticks Demo.loud = [mkTick 1 "" ""] /\
  String.length (p_last_out Demo.loud) = S DEFAULT_BUFFER_SIZE /\
  exists out,
    fst (_subprocess_run_duplicate_streams Demo.env ["loud"] (Some 10%Z) Demo.w0)
    = Ok (0%Z, out, "") /\
    String.length out = DEFAULT_BUFFER_SIZE /\
    out <> p_last_out Demo.loud.
Proof.
  split; [reflexivity|]. split; [reflexivity|]. split; [vm_compute; reflexivity|].
  exists (Demo.repeat_char "a" DEFAULT_BUFFER_SIZE).
  split; [vm_compute; reflexivity|]. split; [vm_compute; reflexivity|].
  intros H. apply (f_equal String.length) in H.
  assert (H1 : String.length (Demo.repeat_char "a" DEFAULT_BUFFER_SIZE)
               = DEFAULT_BUFFER_SIZE) by (vm_compute; reflexivity).
  assert (H2 : String.length (p_last_out Demo.loud) = S DEFAULT_BUFFER_SIZE)
    by (vm_compute; reflexivity).
  rewrite H1, H2 in H. exact (n_Sn _ H).
Qed.

(** ** The theorems at concrete inputs *)

(** An empty list of artifacts returns the empty dictionary although the
    strip prefixes ["a"] and ["ab"] prefix each other. *)
Lemma C6_empty_artifacts_skip_prefix_check :
  has_prefix_pair ["a"; "ab"] /\
  record_artifacts_as_dict Demo.env [] None None false false (Some ["a"; "ab"]) Demo.w0
  = (Ok ∅, Demo.w0).
Proof.
  split; [|reflexivity].
  exists 0, 1, "a", "ab". repeat split; auto.
Qed.


(** C2 at a concrete input: the command [slow] is still running at a poll
    after the ten units of the timeout. *)
Lemma C2_slow_command_is_killed :
  List.Exists (expired (LINK_CMD_EXEC_TIMEOUT (settings Demo.w0)) Demo.slow)
    (p_ticks Demo.slow) /\
  exists w' evs,
    in_toto_run Demo.env "step" ["x"] ["x"] ["slow"] true (Some Demo.alice) None
      false None None None false false false None None false Demo.w0
    = (Err (TimeoutExpired ["slow"] (LINK_CMD_EXEC_TIMEOUT (settings Demo.w0))), w') /\
    trace w' = trace Demo.w0 ++ evs /\
    In EvKill evs /\
    (forall f, ~ In (EvDump f) evs) /\
    tree w' = p_effect_killed Demo.slow (tree Demo.w0).
Proof.
  assert (He : List.Exists
                 (expired (LINK_CMD_EXEC_TIMEOUT (settings Demo.w0)) Demo.slow)
                 (p_ticks Demo.slow)).
  { do 2 apply List.Exists_cons_tl. apply List.Exists_cons_hd. reflexivity. }
  split; [exact He|].
  apply (C2_timeout_kills_raises_and_writes_nothing Demo.env "step" ["x"] ["x"]
            "slow" [] true (Some Demo.alice) None false None None None false
            false false None None false Demo.w0
            {["x" := {["sha256" := "sha256:1"]}]}
            (snd (before_command Demo.env (Some Demo.alice) None None None None
                    ["x"] false None Demo.w0))
            Demo.slow).
  - vm_compute. reflexivity.
  - reflexivity.
  - exact He.
Defined.

(** C4 at a concrete input: the tree of [Demo.t0] scanned from its root
    with the directory [ex] excluded; the key [sub/x] is in the result. *)
Lemma C4_key_under_sub_was_visited :
  exists dir f,
    valid_name f = true /\
    "sub/x" = artifact_key None (os_path.normpath (os_path.join dir f)) /\
    match_file Demo.env (or_nil (effective_exclude_patterns (Some ["ex"]) Demo.w0)) dir
    = false /\
    visited Demo.env (or_nil (effective_exclude_patterns (Some ["ex"]) Demo.w0))
      (map os_path.normpath ["."]) dir.
Proof.
  apply (C4_excluded_directories_are_pruned Demo.env ["."] (Some ["ex"]) None
           true false None Demo.w0 Demo.scanned
           (snd (record_artifacts_as_dict Demo.env ["."] (Some ["ex"]) None true
                   false None Demo.w0))).
  - vm_compute. reflexivity.
  - intros a [<-|[]]. vm_compute. reflexivity.
  - exists {["sha256" := "sha256:2"]}. vm_compute. reflexivity.
Defined.

(** C5 at a concrete input: two preliminary links of the step are in the
    working directory. *)
Lemma C5_two_preliminary_links_are_ambiguous :
  let stop :=
    in_toto_record_stop Demo.env "step" ["x"] None None true None None None
      false None None Demo.w_started_twice in
  glob Demo.env (tree Demo.w_started_twice) (cwd Demo.w_started_twice)
    (UNFINISHED_FILENAME_FORMAT_GLOB "step" "*")
  = [".step.a11ce000.link-unfinished"; ".step.b0b00000.link-unfinished"] /\
  fst stop
  = Err (LinkNotFoundError
           ("Found more than one preliminary links for step 'step' in the current "
            +:+ "working directory: .step.a11ce000.link-unfinished, "
            +:+ ".step.b0b00000.link-unfinished. We need exactly one to stop recording.")).
Proof.
  cbv zeta.
  assert (Hg : glob Demo.env (tree Demo.w_started_twice) (cwd Demo.w_started_twice)
                 (UNFINISHED_FILENAME_FORMAT_GLOB "step" "*")
               = [".step.a11ce000.link-unfinished"; ".step.b0b00000.link-unfinished"]).
  { vm_compute. reflexivity. }
  split; [exact Hg|].
  destruct (C5_default_identity_needs_exactly_one_match Demo.env "step" ["x"] None
              None None None false None None Demo.w_started_twice _ _ eq_refl
              (surjective_pairing _)) as (evs & _ & H).
  rewrite Hg in H. destruct H as [H _]. rewrite H. vm_compute. reflexivity.
Defined.

(** C6, as amended, at a concrete input: the strip prefixes [sub/] and
    [sub/x] prefix each other, and the scan of [.] from the base path [sub]
    raises before it hashes. *)
Lemma C6_prefixing_strip_paths_raise :
  has_prefix_pair ["sub/"; "sub/x"] /\
  isdir Demo.w0 "sub" = true /\
  exists msg w' evs,
    record_artifacts_as_dict Demo.env ["."] None (Some "sub") false false
      (Some ["sub/"; "sub/x"]) Demo.w0
    = (Err (PrefixError msg), w') /\
    trace w' = trace Demo.w0 ++ evs /\
    forall p, ~ In (EvHash p) evs.
Proof.
  assert (Hp : has_prefix_pair ["sub/"; "sub/x"]).
  { exists 0, 1, "sub/", "sub/x". repeat split; auto. }
  split; [exact Hp|]. split; [reflexivity|].
  apply (C6_prefix_check_precedes_hashing Demo.env ["."] None (Some "sub") false
           false ["sub/"; "sub/x"] Demo.w0).
  - exact Hp.
  - discriminate.
  - intros base Hb _. injection Hb as <-. reflexivity.
Defined.


(** C9 at a concrete input: [x] recorded from the base path [sub]. *)
Lemma C9_scan_from_sub_restores_cwd :
  let scan :=
    record_artifacts_as_dict Demo.env ["x"] None (Some "sub") false false None
      Demo.w0 in
  isdir Demo.w0 "sub" = true /\
  fst scan = Ok {["x" := {["sha256" := "sha256:2"]}]} /\
  cwd (snd scan) = cwd Demo.w0 /\
  exists evs0,
    trace (snd scan) = trace Demo.w0 ++ EvChdir "sub" :: evs0 ++ [EvChdir (getcwd Demo.w0)] /\
    List.Forall scan_event evs0.
Proof.
  cbv zeta.
  pose proof (C9_cwd_restored_on_success_only Demo.env ["x"] None (Some "sub") false
                false None Demo.w0 _ _ "sub" (surjective_pairing _)) as H.
  assert (Hr : fst (record_artifacts_as_dict Demo.env ["x"] None (Some "sub") false
                      false None Demo.w0)
               = Ok {["x" := {["sha256" := "sha256:2"]}]}).
  { vm_compute. reflexivity. }
  rewrite Hr in H.
  change (isdir Demo.w0 "sub") with true in H. cbv iota in H.
  destruct H as (evs & Ht & Hc & evs0 & He & Hs).
  - discriminate.
  - reflexivity.
  - discriminate.
  - constructor.
  - split; [reflexivity|]. split; [reflexivity|]. split; [exact Hc|].
    exists evs0. rewrite Ht, He. split; [reflexivity | exact Hs].
Defined.

(** C10 at a concrete input: a run with the empty command. *)
Lemma C10_run_of_empty_command :
  let run :=
    in_toto_run Demo.env "step" ["x"] ["x"] [] true (Some Demo.alice) None false
      None None None false false false None None false Demo.w0 in
  match fst run with
  | Ok md => byproducts (get_payload md) = ∅ /\ command (get_payload md) = []
  | Err _ => False
  end /\
  exists evs,
    trace (snd run) = trace Demo.w0 ++ evs /\
    (forall cmd, ~ In (EvPopen cmd) evs) /\
    ~ In (EvCheckMatch "LIST_OF_ANY_STRING_SCHEMA") evs.
Proof.
  cbv zeta.
  destruct (C10_empty_command_launches_nothing Demo.env "step" ["x"] ["x"] true
              (Some Demo.alice) None false None None None false false false None
              None false Demo.w0 _ _ (surjective_pairing _)) as (Hev & Hmd).
  split; [|exact Hev].
  destruct (fst _) as [md|e] eqn:Hr.
  - apply (Hmd md eq_refl).
  - vm_compute in Hr. discriminate Hr.
Defined.

(** * Further properties *)

(** ** What the supervisor shows and what it returns *)

(** The text written to the parent's standard output, and to its standard
    error, by a list of events. *)
Fixpoint out_of (evs : list event) : string :=
  match evs with
  | [] => ""
  | EvStdout s :: r => s +:+ out_of r
  | _ :: r => out_of r
  end.

Fixpoint err_of (evs : list event) : string :=
  match evs with
  | [] => ""
  | EvStderr s :: r => s +:+ err_of r
  | _ :: r => err_of r
  end.

Lemma out_of_app evs1 evs2 : out_of (evs1 ++ evs2) = out_of evs1 +:+ out_of evs2.
Proof.
  induction evs1 as [|e evs1 IH]; [reflexivity|].
  destruct e; simpl; try exact IH. rewrite IH. symmetry. apply app_assoc_s.
Qed.

Lemma err_of_app evs1 evs2 : err_of (evs1 ++ evs2) = err_of evs1 +:+ err_of evs2.
Proof.
  induction evs1 as [|e evs1 IH]; [reflexivity|].
  destruct e; simpl; try exact IH. rewrite IH. symmetry. apply app_assoc_s.
Qed.

(** [shown w w' o e]: from [w] to [w'] the trace grew by events that show
    [o] on standard output and [e] on standard error. *)
Definition shown (w w' : World) (o e : string) : Prop :=
  exists evs, trace w' = trace w ++ evs /\ out_of evs = o /\ err_of evs = e.

Lemma shown_refl w : shown w w "" "".
Proof. exists []. rewrite app_nil_r. repeat split. Qed.

Lemma shown_trans w1 w2 w3 o1 e1 o2 e2 :
  shown w1 w2 o1 e1 -> shown w2 w3 o2 e2 -> shown w1 w3 (o1 +:+ o2) (e1 +:+ e2).
Proof.
  intros (evs1 & T1 & O1 & E1) (evs2 & T2 & O2 & E2).
  exists (evs1 ++ evs2). rewrite T2, T1, <- app_assoc, out_of_app, err_of_app.
  subst. repeat split.
Qed.

Lemma shown_silent w w' evs :
  trace w' = trace w ++ evs -> out_of evs = "" -> err_of evs = "" -> shown w w' "" "".
Proof. intros T O Er. exists evs. repeat split; assumption. Qed.

Lemma try_finally_inv {A} (c : M A) (fin : M unit) w r w' :
  try_finally c fin w = (r, w') ->
  exists r0 w0, c w = (r0, w0) /\
    ((fin w0 = (Ok tt, w') /\ r = r0) \/ (exists e, fin w0 = (Err e, w') /\ r = Err e)).
Proof.
  unfold try_finally. destruct (c w) as [r0 w0]. intros H.
  exists r0, w0. split; [reflexivity|].
  destruct (fin w0) as [[[]|e] w1]; inversion H; subst; [left|right; exists e]; auto.
Qed.

Section Shown.

Context (E : Env).

Lemma duplicate_streams_shown fo fe st w st' w' :
  _duplicate_streams fo fe st w = (Ok st', w') ->
  exists o e, shown w w' o e /\
              std_out st' = std_out st +:+ o /\ std_err st' = std_err st +:+ e.
Proof.
  unfold _duplicate_streams, bind, get, emit, ret. cbv beta iota zeta.
  intros H. inversion H; subst; clear H. cbn [std_out std_err trace].
  eexists _, _. split; [|split; reflexivity].
  eexists [EvStdout _; EvStderr _]. rewrite <- app_assoc. simpl.
  rewrite !app_empty_r. repeat split.
Qed.

Lemma child_write_trace fo fe o e w : trace (snd (child_write fo fe o e w)) = trace w.
Proof. reflexivity. Qed.

Lemma poll_loop_shown cmd timeout p fo fe ticks : forall st w st' w',
  poll_loop cmd timeout p fo fe ticks st w = (Ok st', w') ->
  exists o e, shown w w' o e /\
              std_out st' = std_out st +:+ o /\ std_err st' = std_err st +:+ e.
Proof.
  induction ticks as [|tk rest IH]; intros st w st' w' H.
  - inversion H; subst. exists "", "". rewrite !app_empty_r.
    split; [apply shown_refl | split; reflexivity].
  - cbn [poll_loop] in H.
    apply bind_inv in H as [(? & w1 & Hcw & H) | (? & Hcw & ?)]; [|discriminate].
    assert (T1 : trace w1 = trace w).
    { pose proof (child_write_trace fo fe (t_out tk) (t_err tk) w) as T.
      rewrite Hcw in T. exact T. }
    destruct (timed_out timeout (p_start p) (t_now tk)).
    + apply bind_inv in H as [(? & ? & _ & H) | (? & _ & ?)]; discriminate.
    + apply bind_inv in H as [(st1 & w2 & Hd & H) | (? & _ & ?)]; [|discriminate].
      apply duplicate_streams_shown in Hd as (o1 & e1 & S1 & O1 & E1).
      apply IH in H as (o2 & e2 & S2 & O2 & E2).
      exists (o1 +:+ o2), (e1 +:+ e2). split.
      * destruct (shown_trans _ _ _ _ _ _ _ S1 S2) as (evs & T & Ho & He).
        exists evs. rewrite T, T1. repeat split; assumption.
      * rewrite O2, O1, E2, E1, !app_assoc_s. split; reflexivity.
Qed.

End Shown.

(** ** The temporary files of the supervisor *)

(** Temporary files other than [fo] and [fe] are as they were. *)
Definition others_kept (fo fe : nat) : relation World :=
  fun w w' => forall k, k <> fo -> k <> fe -> temps w' !! k = temps w !! k.

#[local] Instance others_kept_preorder fo fe : PreOrder (others_kept fo fe).
Proof.
  split.
  - intros w k _ _. reflexivity.
  - intros w1 w2 w3 H12 H23 k Ho He. rewrite (H23 k Ho He). apply H12; assumption.
Qed.

Lemma others_kept_same fo fe {A} (c : M A) :
  (forall w, temps (snd (c w)) = temps w) -> preserves (others_kept fo fe) c.
Proof. intros H w k _ _. rewrite H. reflexivity. Qed.

Section Temps.

Context (E : Env).

Lemma mkstemp_eq w :
  mkstemp w
  = (Ok (next_temp w),
     mkWorld (tree w) (cwd w) (settings w) (<[next_temp w := ""]> (temps w))
       (S (next_temp w)) (trace w ++ [EvMkstemp (next_temp w)])).
Proof. reflexivity. Qed.

Lemma remove_temp_eq fd w :
  remove_temp fd w
  = (Ok tt,
     mkWorld (tree w) (cwd w) (settings w) (delete fd (temps w)) (next_temp w)
       (trace w ++ [EvRemoveTemp fd])).
Proof. reflexivity. Qed.

Lemma child_write_others fo fe o e : preserves (others_kept fo fe) (child_write fo fe o e).
Proof.
  intros w k Ho He. cbn. rewrite !lookup_insert_ne by congruence. reflexivity.
Qed.

Lemma duplicate_streams_others fo fe st :
  preserves (others_kept fo fe) (_duplicate_streams fo fe st).
Proof. apply others_kept_same. reflexivity. Qed.

Lemma kill_others fo fe p : preserves (others_kept fo fe) (kill p).
Proof. apply others_kept_same. reflexivity. Qed.

Lemma child_exit_others fo fe p : preserves (others_kept fo fe) (child_exit p fo fe).
Proof.
  unfold child_exit. apply preserves_bind; [exact _ | apply child_write_others |].
  intros _. apply others_kept_same. reflexivity.
Qed.

Lemma poll_loop_others cmd timeout p fo fe ticks : forall st,
  preserves (others_kept fo fe) (poll_loop cmd timeout p fo fe ticks st).
Proof.
  induction ticks as [|tk rest IH]; intros st; cbn [poll_loop].
  - apply preserves_ret; exact _.
  - apply preserves_bind; [exact _ | apply child_write_others |]. intros _.
    destruct (timed_out timeout (p_start p) (t_now tk)).
    + apply preserves_bind; [exact _ | apply kill_others |]. intros _.
      apply preserves_raise; exact _.
    + apply preserves_bind; [exact _ | apply duplicate_streams_others |].
      intros st1. apply IH.
Qed.

(** What [_subprocess_run_duplicate_streams] does between the creation and
    the removal of its temporary files. *)
Definition run_body (cmd : list string) (timeout : option Z) (fo fe : nat)
  : M (proc * streams) :=
  emit (EvPopen cmd) ;;;
  p <- lift_result (popen E cmd) ;;
  _std <- poll_loop cmd timeout p fo fe (p_ticks p) (mkStreams 0 0 "" "") ;;
  child_exit p fo fe ;;;
  _std <- _duplicate_streams fo fe _std ;;
  ret (p, _std).

Lemma run_body_others cmd timeout fo fe :
  preserves (others_kept fo fe) (run_body cmd timeout fo fe).
Proof.
  unfold run_body.
  apply preserves_bind; [exact _ | apply others_kept_same; reflexivity |]. intros _.
  apply preserves_bind; [exact _ | apply preserves_lift; exact _ |]. intros p.
  apply preserves_bind; [exact _ | apply poll_loop_others |]. intros st.
  apply preserves_bind; [exact _ | apply child_exit_others |]. intros _.
  apply preserves_bind; [exact _ | apply duplicate_streams_others |]. intros st1.
  apply preserves_ret; exact _.
Qed.

(** The two temporary files are created first and removed last, whatever
    happens in between. *)
Lemma run_duplicate_streams_unfold cmd timeout w :
  _subprocess_run_duplicate_streams E cmd timeout w
  = let fo := next_temp w in
    let fe := S (next_temp w) in
    let w2 := mkWorld (tree w) (cwd w) (settings w)
                (<[fe := ""]> (<[fo := ""]> (temps w))) (S fe)
                ((trace w ++ [EvMkstemp fo]) ++ [EvMkstemp fe]) in
    let r := fst (run_body cmd timeout fo fe w2) in
    let wb := snd (run_body cmd timeout fo fe w2) in
    (match r with
     | Ok x => Ok (p_returncode (fst x), std_out (snd x), std_err (snd x))
     | Err e => Err e
     end,
     mkWorld (tree wb) (cwd wb) (settings wb) (delete fe (delete fo (temps wb)))
       (next_temp wb) ((trace wb ++ [EvRemoveTemp fo]) ++ [EvRemoveTemp fe])).
Proof.
  unfold _subprocess_run_duplicate_streams.
  rewrite (bind_ok _ _ _ _ _ (mkstemp_eq w)).
  rewrite (bind_ok _ _ _ _ _ (mkstemp_eq _)). cbn [next_temp tree cwd settings temps trace].
  cbv zeta. fold (run_body cmd timeout (next_temp w) (S (next_temp w))).
  unfold bind at 1. unfold try_finally.
  destruct (run_body cmd timeout (next_temp w) (S (next_temp w)) _) as [[x|e] wb];
    reflexivity.
Qed.

End Temps.

(** Events of the child and of the duplication of its streams. *)
Definition child_event (e : event) : Prop :=
  match e with
  | EvPopen _ | EvKill | EvStdout _ | EvStderr _ => True
  | _ => False
  end.

Section RunBody.

Context (E : Env).

Lemma poll_loop_child_frame cmd timeout p fo fe ticks : forall st,
  preserves (frame false true false child_event)
    (poll_loop cmd timeout p fo fe ticks st).
Proof.
  induction ticks as [|tk rest IH]; intros st; cbn [poll_loop];
    unfold child_write, kill, _duplicate_streams; pres. apply IH.
Qed.

Lemma run_body_frame cmd timeout fo fe :
  preserves (frame false true false child_event) (run_body E cmd timeout fo fe).
Proof.
  unfold run_body, child_exit, child_write, _duplicate_streams. pres.
  apply poll_loop_child_frame.
Qed.

Lemma run_body_shown cmd timeout fo fe w p st w' :
  run_body E cmd timeout fo fe w = (Ok (p, st), w') ->
  shown w w' (std_out st) (std_err st).
Proof.
  unfold run_body. intros H.
  apply bind_inv in H as [([] & w1 & He & H) | (? & _ & ?)]; [|discriminate].
  apply bind_inv in H as [(p0 & w2 & Hp & H) | (? & _ & ?)]; [|discriminate].
  apply bind_inv in H as [(st1 & w3 & Hl & H) | (? & _ & ?)]; [|discriminate].
  apply bind_inv in H as [([] & w4 & Hx & H) | (? & _ & ?)]; [|discriminate].
  apply bind_inv in H as [(st2 & w5 & Hd & H) | (? & _ & ?)]; [|discriminate].
  unfold ret in H. inversion H; subst p0 st2 w5; clear H.
  assert (S1 : shown w w1 "" "").
  { inversion He; subst w1. apply (shown_silent _ _ [EvPopen cmd]); reflexivity. }
  assert (S2 : w2 = w1) by (unfold lift_result in Hp; congruence). subst w2.
  apply poll_loop_shown in Hl as (o3 & e3 & S3 & O3 & E3).
  assert (S4 : shown w3 w4 "" "").
  { apply (shown_silent _ _ []); [|reflexivity..].
    unfold child_exit, bind, child_write, get, set_temps, set_tree in Hx.
    cbv beta iota zeta in Hx. inversion Hx; subst w4. cbn [trace].
    rewrite app_nil_r. reflexivity. }
  apply duplicate_streams_shown in Hd as (o5 & e5 & S5 & O5 & E5).
  pose proof (shown_trans _ _ _ _ _ _ _ S1
                (shown_trans _ _ _ _ _ _ _ S3 (shown_trans _ _ _ _ _ _ _ S4 S5))) as S.
  rewrite O5, E5, O3, E3. cbn [std_out std_err]. exact S.
Qed.

End RunBody.

Section SupervisorTheorems.

Context (E : Env).

(** X1: whatever the command does, and whether the call returns or raises,
    [_subprocess_run_duplicate_streams] removes the two temporary files it
    creates and touches no other temporary file; creating them is the first
    thing it does and removing them the last, and in between only the child
    and the duplication of its streams act.  The working directory and the
    settings are as before. *)
Theorem temporary_files_are_removed_on_every_path
  (cmd : list string) (timeout : option Z) (w : World) :
  let w' := snd (_subprocess_run_duplicate_streams E cmd timeout w) in
  let fo := next_temp w in
  let fe := S (next_temp w) in
  temps w' !! fo = None /\ temps w' !! fe = None /\
  (forall k, k <> fo -> k <> fe -> temps w' !! k = temps w !! k) /\
  (exists mid,
     trace w' = trace w ++ [EvMkstemp fo; EvMkstemp fe] ++ mid
                        ++ [EvRemoveTemp fo; EvRemoveTemp fe] /\
     List.Forall child_event mid) /\
  cwd w' = cwd w /\ settings w' = settings w.
Proof.
  cbv zeta. rewrite run_duplicate_streams_unfold. cbv zeta. cbn [snd temps trace cwd settings].
  set (fo := next_temp w). set (fe := S fo).
  set (w2 := mkWorld _ _ _ _ _ _).
  pose proof (run_body_others E cmd timeout fo fe w2) as Ho.
  pose proof (run_body_frame E cmd timeout fo fe w2) as (_ & Hc & _ & Hs & (mid & Ht & Hm)).
  set (wb := snd (run_body E cmd timeout fo fe w2)) in *.
  split; [|split; [|split; [|split; [|split]]]].
  - assert (fo <> fe) by (unfold fe; lia).
    rewrite lookup_delete_ne by congruence. apply lookup_delete_eq.
  - apply lookup_delete_eq.
  - intros k Hko Hke. rewrite !lookup_delete_ne by congruence.
    rewrite (Ho k Hko Hke). unfold w2. cbn [temps].
    rewrite !lookup_insert_ne by congruence. reflexivity.
  - exists mid. split; [|exact Hm]. rewrite Ht. unfold w2. cbn [trace].
    rewrite <- !app_assoc. reflexivity.
  - rewrite (Hc eq_refl). reflexivity.
  - rewrite Hs. reflexivity.
Qed.

(** X2: when [_subprocess_run_duplicate_streams] returns, the standard
    output and the standard error it returns are, character for character
    and in the same order, what it wrote to the parent's standard output and
    standard error during the call. *)
Theorem returned_streams_are_the_streams_shown
  (cmd : list string) (timeout : option Z) (w : World)
  (return_code : Z) (stdout_str stderr_str : string) (w' : World) :
  _subprocess_run_duplicate_streams E cmd timeout w
  = (Ok (return_code, stdout_str, stderr_str), w') ->
  exists evs,
    trace w' = trace w ++ evs /\ out_of evs = stdout_str /\ err_of evs = stderr_str.
Proof.
  rewrite run_duplicate_streams_unfold. cbv zeta.
  set (fo := next_temp w). set (fe := S fo). set (w2 := mkWorld _ _ _ _ _ _).
  destruct (run_body E cmd timeout fo fe w2) as [[[p st]|e] wb] eqn:Hb;
    cbn [fst snd]; intros H; inversion H; subst; clear H.
  apply run_body_shown in Hb as (evs & Ht & Ho & He).
  exists ([EvMkstemp fo; EvMkstemp fe] ++ evs ++ [EvRemoveTemp fo; EvRemoveTemp fe]).
  cbn [trace]. rewrite Ht. unfold w2. cbn [trace].
  rewrite !out_of_app, !err_of_app, Ho, He. cbn [out_of err_of].
  rewrite !app_empty_r. rewrite <- !app_assoc. repeat split.
Qed.

End SupervisorTheorems.

(** ** Output that fits the buffer is captured whole *)

Fixpoint cat (l : list string) : string :=
  match l with
  | [] => ""
  | s :: r => s +:+ cat r
  end.

(** Everything the child writes to its standard output, and to its standard
    error, in a run to completion. *)
Definition written_out (p : proc) : string :=
  cat (map t_out (p_ticks p)) +:+ p_last_out p.

Definition written_err (p : proc) : string :=
  cat (map t_err (p_ticks p)) +:+ p_last_err p.

(** What is written between two polls fits one read. *)
Definition fits (o e : string) : Prop :=
  String.length o <= DEFAULT_BUFFER_SIZE /\ String.length e <= DEFAULT_BUFFER_SIZE.

Lemma drop_app_length s o : Py.drop (String.length s) (s +:+ o) = o.
Proof. induction s as [|c s IH]; [destruct o; reflexivity | exact IH]. Qed.

Lemma take_all n o : String.length o <= n -> Py.take n o = o.
Proof.
  revert n. induction o as [|c o IH]; intros n H.
  - destruct n; reflexivity.
  - destruct n as [|n]; simpl in H; [lia|]. simpl. rewrite IH by lia. reflexivity.
Qed.

(** The readers have read what [_std] holds; [o] and [e] are in the files
    and not read yet. *)
Definition pending (fo fe : nat) (w : World) (st : streams) (o e : string) : Prop :=
  temps w !! fo = Some (std_out st +:+ o) /\ temps w !! fe = Some (std_err st +:+ e) /\
  stdout_pos st = String.length (std_out st) /\
  stderr_pos st = String.length (std_err st).

Section Complete.

Context (E : Env).

Lemma child_write_pending fo fe o e st w :
  fo <> fe -> pending fo fe w st "" "" ->
  child_write fo fe o e w = (Ok tt, snd (child_write fo fe o e w)) /\
  pending fo fe (snd (child_write fo fe o e w)) st o e.
Proof.
  intros Hne (Ho & He & Po & Pe). rewrite app_empty_r in Ho, He.
  split; [reflexivity|]. unfold pending. cbn.
  rewrite lookup_insert_ne by congruence. rewrite lookup_insert_eq, Ho.
  rewrite lookup_insert_eq. rewrite lookup_insert_ne by congruence. rewrite He.
  repeat split; assumption.
Qed.

Local Opaque DEFAULT_BUFFER_SIZE.

Lemma duplicate_streams_pending fo fe o e st w :
  pending fo fe w st o e -> fits o e ->
  exists st' w',
    _duplicate_streams fo fe st w = (Ok st', w') /\
    pending fo fe w' st' "" "" /\
    std_out st' = std_out st +:+ o /\ std_err st' = std_err st +:+ e /\
    tree w' = tree w.
Proof.
  intros (Ho & He & Po & Pe) (Fo & Fe).
  unfold _duplicate_streams, bind, get, emit, ret. cbv beta iota zeta.
  assert (R1 : reader_read fo (stdout_pos st) DEFAULT_BUFFER_SIZE w = o).
  { unfold reader_read. rewrite Ho. cbn. rewrite Po, drop_app_length.
    apply take_all, Fo. }
  assert (R2 : reader_read fe (stderr_pos st) DEFAULT_BUFFER_SIZE w = e).
  { unfold reader_read. rewrite He. cbn. rewrite Pe, drop_app_length.
    apply take_all, Fe. }
  rewrite R1, R2. eexists _, _. split; [reflexivity|].
  split; [|split; [reflexivity | split; reflexivity]].
  unfold pending. cbn. rewrite !app_empty_r, !append_length, Po, Pe.
  repeat split; assumption.
Qed.

Local Transparent DEFAULT_BUFFER_SIZE.

Lemma poll_loop_complete cmd T p fo fe ticks : forall st w,
  fo <> fe -> pending fo fe w st "" "" ->
  List.Forall (in_time T p) ticks ->
  List.Forall (fun tk => fits (t_out tk) (t_err tk)) ticks ->
  exists st' w',
    poll_loop cmd (Some T) p fo fe ticks st w = (Ok st', w') /\
    pending fo fe w' st' "" "" /\
    std_out st' = std_out st +:+ cat (map t_out ticks) /\
    std_err st' = std_err st +:+ cat (map t_err ticks) /\
    tree w' = tree w.
Proof.
  induction ticks as [|tk rest IH]; intros st w Hne Hd Ht Hf.
  - exists st, w. cbn [poll_loop map cat]. rewrite !app_empty_r.
    split; [reflexivity|]. split; [exact Hd|]. repeat split.
  - inversion Ht as [|? ? Ht1 Ht2]; subst. inversion Hf as [|? ? Hf1 Hf2]; subst.
    destruct (child_write_pending fo fe (t_out tk) (t_err tk) st w Hne Hd) as (Hw & Hp).
    destruct (duplicate_streams_pending _ _ _ _ _ _ Hp Hf1)
      as (st1 & w1 & Hr & Hd1 & O1 & E1 & T1).
    destruct (IH st1 w1 Hne Hd1 Ht2 Hf2) as (st' & w' & Hl & Hd' & O' & E' & T').
    exists st', w'. split.
    + cbn [poll_loop]. rewrite (bind_ok _ _ _ _ _ Hw).
      unfold in_time in Ht1. rewrite Ht1. rewrite (bind_ok _ _ _ _ _ Hr). exact Hl.
    + split; [exact Hd'|]. cbn [map cat].
      rewrite O', O1, E', E1, !app_assoc_s. repeat split.
      rewrite T', T1. reflexivity.
Qed.


End Complete.

(** ** What [execute_link] returns *)

Section ExecuteLink.

Context (E : Env).

Lemma execute_link_popen_fails cmd rs e w :
  popen E cmd = Err e -> exists w', execute_link E cmd rs w = (Err e, w').
Proof.
  intros Hp. unfold execute_link. unfold bind at 1. unfold get. cbv beta iota zeta.
  destruct rs.
  - unfold bind at 1. rewrite run_duplicate_streams_unfold. cbv zeta.
    set (w2 := mkWorld _ _ _ _ _ _).
    assert (Hb : fst (run_body E cmd (Some (LINK_CMD_EXEC_TIMEOUT (settings w)))
                        (next_temp w) (S (next_temp w)) w2) = Err e).
    { unfold run_body.
      rewrite (bind_ok _ _ w2 tt (snd (emit (EvPopen cmd) w2))) by reflexivity.
      erewrite bind_err; [reflexivity|]. unfold lift_result. rewrite Hp. reflexivity. }
    rewrite Hb. eexists. reflexivity.
  - assert (Hs : exists w1,
               subprocess_run E cmd (Some (LINK_CMD_EXEC_TIMEOUT (settings w))) w
               = (Err e, w1)).
    { unfold subprocess_run.
      rewrite (bind_ok _ _ w tt (snd (emit (EvPopen cmd) w))) by reflexivity.
      erewrite bind_err; [eexists; reflexivity|].
      unfold lift_result. rewrite Hp. reflexivity. }
    destruct Hs as (w1 & Hs). unfold bind at 1. unfold bind at 1. rewrite Hs.
    eexists. reflexivity.
Qed.

(** X4: when [execute_link] returns, the command was started and never found
    running past [LINK_CMD_EXEC_TIMEOUT]; the dictionary has exactly the
    entries [stdout], [stderr] and [return-value]; [return-value] is the
    return code of the command, zero or not; without [record_streams] the
    two streams are empty strings; the file tree is what the command
    left. *)
Theorem execute_link_returns_what_the_command_did
  (link_cmd_args : list string) (record_streams : bool) (w : World)
  (b : gmap string pyval) (w' : World) :
  execute_link E link_cmd_args record_streams w = (Ok b, w') ->
  exists p stdout_str stderr_str,
    popen E link_cmd_args = Ok p /\
    List.Forall (in_time (LINK_CMD_EXEC_TIMEOUT (settings w)) p) (p_ticks p) /\
    b = <["stdout" := VStr stdout_str]>
          (<["stderr" := VStr stderr_str]>
             (<["return-value" := VInt (p_returncode p)]> ∅)) /\
    (record_streams = false -> stdout_str = "" /\ stderr_str = "") /\
    tree w' = p_effect p (tree w).
Proof.
  intros H. destruct (popen E link_cmd_args) as [p|e] eqn:Hp.
  2: { destruct (execute_link_popen_fails _ record_streams _ w Hp) as (w1 & H1).
       rewrite H1 in H. discriminate H. }
  destruct (expired_or_in_time (LINK_CMD_EXEC_TIMEOUT (settings w)) p (p_ticks p))
    as [Hx|Hin].
  { destruct (execute_link_expired E _ record_streams _ w Hp Hx) as (w1 & evs & H1 & _).
    rewrite H1 in H. discriminate H. }
  unfold execute_link in H. unfold bind at 1 in H. unfold get in H.
  cbv beta iota zeta in H. destruct record_streams.
  - destruct (run_duplicate_streams_in_time E _ _ _ w Hp Hin)
      as (out & err & w1 & Hr & Ht).
    rewrite (bind_ok _ _ _ _ _ Hr) in H. unfold ret in H. cbn [fst snd] in H.
    inversion H; subst. exists p, out, err.
    split; [reflexivity|]. split; [exact Hin|]. split; [reflexivity|].
    split; [discriminate | exact Ht].
  - assert (Hs : subprocess_run E link_cmd_args
                   (Some (LINK_CMD_EXEC_TIMEOUT (settings w))) w
                 = (Ok (p_returncode p),
                    mkWorld (p_effect p (tree w)) (cwd w) (settings w) (temps w)
                      (next_temp w) (trace w ++ [EvPopen link_cmd_args]))).
    { unfold subprocess_run.
      rewrite (bind_ok _ _ w tt (snd (emit (EvPopen link_cmd_args) w))) by reflexivity.
      rewrite (bind_ok _ _ _ p (snd (emit (EvPopen link_cmd_args) w)))
        by (unfold lift_result; rewrite Hp; reflexivity).
      rewrite (bind_ok _ _ _ tt _ (wait_loop_in_time _ _ _ _ _ Hin)). reflexivity. }
    unfold bind at 1 in H. unfold bind at 1 in H. rewrite Hs in H.
    unfold ret in H. cbn [fst snd] in H. inversion H; subst.
    exists p, "", "". split; [reflexivity|]. split; [exact Hin|].
    split; [reflexivity|]. split; [split; reflexivity | reflexivity].
Qed.

End ExecuteLink.

(** ** The result of exclusion *)

(** Code-point order on strings, the order of Python's [sorted]. *)
Definition string_lt (a b : string) : Prop := String.compare a b = Lt.

Lemma ascii_compare_refl a : Ascii.compare a a = Eq.
Proof. unfold Ascii.compare. apply N.compare_refl. Qed.

Lemma string_compare_refl s : String.compare s s = Eq.
Proof. induction s as [|a s IH]; simpl; [reflexivity|]. rewrite ascii_compare_refl. exact IH. Qed.

Lemma string_lt_irrefl s : ~ string_lt s s.
Proof. unfold string_lt. rewrite string_compare_refl. discriminate. Qed.

Lemma ascii_lt_trans a b c :
  Ascii.compare a b = Lt -> Ascii.compare b c = Lt -> Ascii.compare a c = Lt.
Proof.
  unfold Ascii.compare. rewrite !N.compare_lt_iff. apply N.lt_trans.
Qed.

Lemma string_lt_trans s1 : forall s2 s3,
  string_lt s1 s2 -> string_lt s2 s3 -> string_lt s1 s3.
Proof.
  unfold string_lt.
  induction s1 as [|a s1 IH]; intros [|b s2] [|c s3]; simpl; try discriminate; auto.
  destruct (Ascii.compare a b) eqn:Hab; try discriminate.
  - apply Ascii.compare_eq_iff in Hab. subst b.
    destruct (Ascii.compare a c); try discriminate; auto. apply IH.
  - intros _. destruct (Ascii.compare b c) eqn:Hbc; try discriminate.
    + apply Ascii.compare_eq_iff in Hbc. subst c. rewrite Hab. reflexivity.
    + rewrite (ascii_lt_trans _ _ _ Hab Hbc). reflexivity.
Qed.

Lemma string_gt_lt x y : String.compare x y = Gt -> string_lt y x.
Proof.
  unfold string_lt. intros H. rewrite String.compare_antisym, H. reflexivity.
Qed.

Lemma insert_sorted_iff x y l : In y (Py.insert_sorted x l) <-> y = x \/ In y l.
Proof.
  split; [apply insert_sorted_in|].
  induction l as [|z l IH]; simpl.
  - intros [->|[]]. left. reflexivity.
  - destruct (String.compare x z) eqn:Hc.
    + apply String.compare_eq_iff in Hc. subst z.
      intros [->|[->|H]]; [left | left | right]; auto.
    + intros [->|[->|H]]; [left | right; left | right; right]; auto.
    + intros [->|[->|H]]; [right; apply IH | left | right; apply IH]; auto.
Qed.

Lemma sorted_set_iff y l : In y (Py.sorted_set l) <-> In y l.
Proof.
  induction l as [|x l IH]; simpl; [tauto|].
  rewrite insert_sorted_iff, IH. split; intros [H|H]; auto.
Qed.

Lemma insert_sorted_sorted x l :
  StronglySorted string_lt l -> StronglySorted string_lt (Py.insert_sorted x l).
Proof.
  induction 1 as [|z l Hl IH Hz]; simpl.
  - repeat constructor.
  - destruct (String.compare x z) eqn:Hc.
    + constructor; assumption.
    + constructor; [constructor; assumption|]. constructor; [exact Hc|].
      eapply List.Forall_impl; [|exact Hz]. intros a. apply string_lt_trans. exact Hc.
    + constructor; [exact IH|]. apply List.Forall_forall. intros a Ha.
      apply insert_sorted_iff in Ha as [->|Ha]; [apply string_gt_lt, Hc|].
      rewrite List.Forall_forall in Hz. apply Hz, Ha.
Qed.

Lemma sorted_set_sorted l : StronglySorted string_lt (Py.sorted_set l).
Proof.
  induction l as [|x l IH]; simpl; [constructor | apply insert_sorted_sorted, IH].
Qed.

Lemma sorted_nodup l : StronglySorted string_lt l -> List.NoDup l.
Proof.
  induction 1 as [|z l Hl IH Hz]; constructor; [|exact IH].
  intros Hin. rewrite List.Forall_forall in Hz. exact (string_lt_irrefl z (Hz z Hin)).
Qed.

Section ExcludeResult.

Context (E : Env).

(** X5: [_apply_exclude_patterns] returns the names that the filter does not
    match, each once, in ascending code-point order: a name is in the result
    exactly when it is among the names passed and unmatched. *)
Theorem exclusion_keeps_the_unmatched_names_sorted_once
  (names exclude_filter : list string) :
  let included := _apply_exclude_patterns E names exclude_filter in
  (forall n, In n included <-> In n names /\ match_file E exclude_filter n = false) /\
  StronglySorted string_lt included /\
  List.NoDup included.
Proof.
  cbv zeta. unfold _apply_exclude_patterns. split; [|split].
  - intros n. rewrite sorted_set_iff, filter_In, negb_true_iff. reflexivity.
  - apply sorted_set_sorted.
  - apply sorted_nodup, sorted_set_sorted.
Qed.

End ExcludeResult.

(** ** The check of the strip prefixes, both ways *)

Lemma combinations2_in (l : list string) a b :
  In (a, b) (Py.combinations2 l) ->
  exists i j, i < j /\ l !! i = Some a /\ l !! j = Some b.
Proof.
  induction l as [|x l IH]; [intros []|].
  simpl. intros H. apply in_app_or in H as [H|H].
  - apply in_map_iff in H as (y & Hy & Hin). inversion Hy; subst x y.
    apply list_elem_of_In, list_elem_of_lookup_1 in Hin as [j Hj].
    exists 0, (S j). split; [lia|]. split; [reflexivity | exact Hj].
  - destruct (IH H) as (i & j & Hij & Hi & Hj).
    exists (S i), (S j). split; [lia|]. split; assumption.
Qed.

Lemma check_pairs_pass (ps : list (string * string)) w :
  List.Forall (fun pr => clash pr = false) ps ->
  for_each ps
    (fun pr (_ : unit) =>
       if Py.startswith (fst pr) (snd pr) || Py.startswith (snd pr) (fst pr)
       then raise (PrefixError ("'" +:+ fst pr +:+ "' and '" +:+ snd pr
                                +:+ "' triggered a left substring error"))
       else ret tt) tt w
  = (Ok tt, w).
Proof.
  induction 1 as [|pr ps Hc Hps IH]; [reflexivity|].
  simpl. unfold clash in Hc. rewrite Hc. exact IH.
Qed.

Lemma check_lstrip_paths_pass lstrip_paths w :
  ~ has_prefix_pair (or_nil lstrip_paths) ->
  check_lstrip_paths lstrip_paths w = (Ok tt, w).
Proof.
  intros Hn. unfold check_lstrip_paths. destruct (truthy_list lstrip_paths); [|reflexivity].
  apply check_pairs_pass. apply List.Forall_forall. intros [a b] Hin.
  destruct (clash (a, b)) eqn:Hc; [|reflexivity]. exfalso. apply Hn.
  apply combinations2_in in Hin as (i & j & Hij & Hi & Hj).
  exists i, j, a, b. repeat split; try assumption.
  unfold clash in Hc. cbn [fst snd] in Hc. apply orb_true_iff in Hc. exact Hc.
Qed.

Lemma startswith_refl s : Py.startswith s s = true.
Proof.
  unfold Py.startswith. induction s as [|c s IH]; [reflexivity|].
  simpl. destruct (ascii_dec c c); [exact IH | congruence].
Qed.

(** X6: the check that [record_artifacts_as_dict] makes on its strip
    prefixes, before it looks at any path, passes exactly when no entry of
    the list is a prefix of an entry at another position; it raises
    [PrefixError] otherwise, and either way changes nothing.  So a list that
    repeats an entry is refused, and so is a list of two or more entries
    that holds the empty string. *)
Theorem prefix_check_passes_exactly_without_a_prefix_pair
  (lstrip_paths : list string) (w : World) :
  (check_lstrip_paths (Some lstrip_paths) w = (Ok tt, w) <->
   ~ has_prefix_pair lstrip_paths) /\
  (has_prefix_pair lstrip_paths ->
   exists msg, check_lstrip_paths (Some lstrip_paths) w = (Err (PrefixError msg), w)) /\
  (check_lstrip_paths (Some lstrip_paths) w = (Ok tt, w) ->
   List.NoDup lstrip_paths /\
   (In "" lstrip_paths -> lstrip_paths = [""])).
Proof.
  assert (Hiff : check_lstrip_paths (Some lstrip_paths) w = (Ok tt, w) <->
                 ~ has_prefix_pair lstrip_paths).
  { split.
    - intros Hok Hp. destruct (check_lstrip_paths_raise _ Hp) as [msg Hm].
      rewrite Hm in Hok. discriminate Hok.
    - intros Hn. apply check_lstrip_paths_pass. exact Hn. }
  split; [exact Hiff|]. split.
  - intros Hp. destruct (check_lstrip_paths_raise _ Hp) as [msg Hm].
    exists msg. apply Hm.
  - intros Hok. apply Hiff in Hok. split.
    + apply NoDup_ListNoDup, NoDup_alt. intros i j a Hi Hj.
      destruct (Nat.lt_trichotomy i j) as [Hlt|[Heq|Hgt]]; [|exact Heq|]; exfalso;
        apply Hok.
      * exists i, j, a, a. repeat split; try assumption. left. apply startswith_refl.
      * exists j, i, a, a. repeat split; try assumption. left. apply startswith_refl.
    + intros Hin. apply list_elem_of_In, list_elem_of_lookup_1 in Hin as [i Hi].
      destruct lstrip_paths as [|a [|b l]]; [discriminate| |].
      * destruct i; [|discriminate]. inversion Hi. reflexivity.
      * exfalso. apply Hok. destruct i as [|i].
        -- inversion Hi; subst a. exists 0, 1, "", b. repeat split; [lia|]. right.
           unfold Py.startswith. destruct b; reflexivity.
        -- exists 0, (S i), a, "". repeat split; [lia | exact Hi |]. left.
           unfold Py.startswith. destruct a; reflexivity.
Qed.

(** ** Recording only reads *)

Section ReadOnly.

Context (E : Env).

Lemma record_artifacts_in_place artifacts ep bp fsd nle lsp w :
  truthy_str (effective_base_path bp w) = false ->
  frame true true true scan_event w
    (snd (record_artifacts_as_dict E artifacts ep bp fsd nle lsp w)).
Proof.
  intros Hb. destruct artifacts as [|a artifacts].
  - apply (preserves_ret (frame true true true scan_event)).
  - rewrite record_artifacts_unfold. cbv zeta. rewrite Hb.
    assert (Hp : preserves (frame true true true scan_event)
                   (ret tt ;;;
                    d <- scan E (map os_path.normpath (a :: artifacts))
                           (effective_exclude_patterns ep w) fsd nle lsp ;;
                    ret tt ;;; ret d)).
    { pres. apply scan_frame. }
    apply Hp.
Qed.

(** X7: [record_artifacts_as_dict], whether it returns or raises, leaves the
    file tree, the temporary files and the settings as they are, and does
    nothing but change directory, check formats and hash files.  When no
    base path is in effect (neither the argument nor the setting), it does
    not change directory either: the working directory is the same
    afterwards, also when an exception was raised. *)
Theorem recording_reads_and_never_writes
  (artifacts : list string) (exclude_patterns : option (list string))
  (base_path : option string) (follow_symlink_dirs normalize_line_endings : bool)
  (lstrip_paths : option (list string)) (w : World) :
  let w' := snd (record_artifacts_as_dict E artifacts exclude_patterns base_path
                   follow_symlink_dirs normalize_line_endings lstrip_paths w) in
  tree w' = tree w /\ temps w' = temps w /\ settings w' = settings w /\
  exists evs,
    trace w' = trace w ++ evs /\ List.Forall rec_event evs /\
    (truthy_str (effective_base_path base_path w) = false ->
     cwd w' = cwd w /\ forall p, ~ In (EvChdir p) evs).
Proof.
  cbv zeta.
  destruct (record_artifacts_frame E artifacts exclude_patterns base_path
              follow_symlink_dirs normalize_line_endings lstrip_paths w)
    as (Ht & _ & Hm & Hs & (evs & Htr & Hev)).
  split; [exact (Ht eq_refl)|]. split; [exact (proj1 (Hm eq_refl))|].
  split; [exact Hs|]. exists evs. split; [exact Htr|]. split; [exact Hev|].
  intros Hb.
  destruct (record_artifacts_in_place artifacts exclude_patterns base_path
              follow_symlink_dirs normalize_line_endings lstrip_paths w Hb)
    as (_ & Hc & _ & _ & (evs' & Htr' & Hev')).
  split; [exact (Hc eq_refl)|].
  rewrite Htr in Htr'. apply app_inv_head in Htr'. subst evs'.
  intros p Hin. rewrite List.Forall_forall in Hev'. exact (Hev' _ Hin).
Qed.

End ReadOnly.

(** ** Hashing one file *)

(** [w'] is [w] with [evs] added to the trace and nothing else changed. *)
Definition advanced (w w' : World) (evs : list event) : Prop :=
  w' = mkWorld (tree w) (cwd w) (settings w) (temps w) (next_temp w) (trace w ++ evs).

Lemma advanced_nil w : advanced w w [].
Proof. unfold advanced. rewrite app_nil_r. destruct w; reflexivity. Qed.

Lemma advanced_trans w1 w2 w3 evs1 evs2 :
  advanced w1 w2 evs1 -> advanced w2 w3 evs2 -> advanced w1 w3 (evs1 ++ evs2).
Proof. unfold advanced. intros -> ->. cbn. rewrite app_assoc. reflexivity. Qed.

Lemma advanced_emit w e : advanced w (snd (emit e w)) [e].
Proof. reflexivity. Qed.

Lemma stat_advanced w w' evs p : advanced w w' evs -> stat w' p = stat w p.
Proof. intros ->. reflexivity. Qed.

Lemma isfile_advanced w w' evs p : advanced w w' evs -> isfile w' p = isfile w p.
Proof. intros ->. reflexivity. Qed.

Lemma isdir_advanced w w' evs p : advanced w w' evs -> isdir w' p = isdir w p.
Proof. intros ->. reflexivity. Qed.

Section Hashing.

Context (E : Env).

(** The hash dictionary of a file with content [c]. *)
Definition hash_dict_of (algorithms : list string) (nle : bool) (c : content)
  (d : gmap string string) : gmap string string :=
  fold_left (fun d algorithm => <[algorithm := digest E algorithm nle c]> d)
    algorithms d.

Lemma hash_dict_of_lookup algorithms nle c : forall d alg,
  hash_dict_of algorithms nle c d !! alg
  = if bool_decide (alg ∈ algorithms) then Some (digest E alg nle c) else d !! alg.
Proof.
  induction algorithms as [|a l IH]; intros d alg; [reflexivity|].
  cbn [hash_dict_of fold_left]. fold (hash_dict_of l nle c (<[a := digest E a nle c]> d)).
  rewrite IH. destruct (bool_decide (alg ∈ l)) eqn:Hl.
  - apply bool_decide_eq_true in Hl. rewrite bool_decide_eq_true_2; [reflexivity|].
    apply elem_of_cons. right. exact Hl.
  - apply bool_decide_eq_false in Hl. destruct (decide (a = alg)) as [->|Hne].
    + rewrite lookup_insert_eq, bool_decide_eq_true_2; [reflexivity|].
      apply elem_of_cons. left. reflexivity.
    + rewrite lookup_insert_ne by exact Hne.
      rewrite bool_decide_eq_false_2; [reflexivity|].
      intros H. apply elem_of_cons in H as [H|H]; [congruence | contradiction].
Qed.

Lemma digest_filename_ok p alg nle c w :
  stat w p = Some (File true c) ->
  digest_filename E p alg nle w = (Ok (digest E alg nle c), snd (emit (EvHash p) w)).
Proof.
  intros Hs. unfold digest_filename.
  rewrite (bind_ok _ _ w tt (snd (emit (EvHash p) w))) by reflexivity.
  unfold bind, get. cbv beta iota.
  change (stat (snd (emit (EvHash p) w)) p) with (stat w p). rewrite Hs. reflexivity.
Qed.

Lemma hash_loop_ok p nle c algorithms : forall d w,
  stat w p = Some (File true c) ->
  exists w',
    for_each algorithms
      (fun algorithm (hash_dict : gmap string string) =>
         hexdigest <- digest_filename E p algorithm nle ;;
         ret (<[algorithm := hexdigest]> hash_dict)) d w
    = (Ok (hash_dict_of algorithms nle c d), w') /\
    advanced w w' (map (fun _ => EvHash p) algorithms).
Proof.
  induction algorithms as [|a l IH]; intros d w Hs.
  - exists w. split; [reflexivity | apply advanced_nil].
  - assert (Hs1 : stat (snd (emit (EvHash p) w)) p = Some (File true c)) by exact Hs.
    destruct (IH (<[a := digest E a nle c]> d) _ Hs1) as (w' & Hl & Ha).
    exists w'. split.
    + cbn [for_each]. unfold bind at 1. unfold bind at 1.
      rewrite (digest_filename_ok _ _ _ _ _ Hs). unfold ret at 1. exact Hl.
    + exact (advanced_trans _ _ _ [EvHash p] _ (advanced_emit w _) Ha).
Qed.

(** The algorithms in effect: [sha256] when none is passed. *)
Definition effective_algorithms (hash_algorithms : option (list string)) : list string :=
  if negb (truthy_list hash_algorithms) then ["sha256"] else or_nil hash_algorithms.

Lemma hash_artifact_ok p algs nle c w :
  stat w p = Some (File true c) ->
  exists w',
    _hash_artifact E p algs nle w
    = (Ok (hash_dict_of (effective_algorithms algs) nle c ∅), w') /\
    advanced w w' (EvCheckMatch "HASHALGORITHMS_SCHEMA"
                   :: map (fun _ => EvHash p) (effective_algorithms algs)
                   ++ [EvCheckMatch "HASHDICT_SCHEMA"]).
Proof.
  intros Hs. unfold _hash_artifact. fold (effective_algorithms algs). cbv zeta.
  set (w1 := snd (emit (EvCheckMatch "HASHALGORITHMS_SCHEMA") w)).
  assert (Hs1 : stat w1 p = Some (File true c)) by exact Hs.
  destruct (hash_loop_ok p nle c (effective_algorithms algs) ∅ w1 Hs1) as (w2 & Hl & Ha).
  exists (snd (emit (EvCheckMatch "HASHDICT_SCHEMA") w2)). split.
  - rewrite (bind_ok _ _ w tt w1) by reflexivity.
    rewrite (bind_ok _ _ _ _ _ Hl).
    rewrite (bind_ok _ _ w2 tt (snd (emit (EvCheckMatch "HASHDICT_SCHEMA") w2)))
      by reflexivity.
    reflexivity.
  - apply (advanced_trans _ _ _ [_] _ (advanced_emit w _)).
    exact (advanced_trans _ _ _ _ [_] Ha (advanced_emit w2 _)).
Qed.


End Hashing.

(** ** Recording a single path *)

Section OnePath.

Context (E : Env).

Lemma exclude_singleton p pats :
  match_file E pats p = false -> _apply_exclude_patterns E [p] pats = [p].
Proof. intros H. unfold _apply_exclude_patterns. simpl. rewrite H. reflexivity. Qed.

Lemma apply_left_strip_fresh p lsp w :
  _apply_left_strip p ∅ lsp w
  = (Ok (if truthy_list lsp then strip_first_prefix p (or_nil lsp) else p), w).
Proof. unfold _apply_left_strip. destruct (truthy_list lsp); reflexivity. Qed.

Lemma record_one_absent ep ef fsd nle lsp a d w :
  isfile w a = false -> isdir w a = false ->
  record_one E ep ef fsd nle lsp a d w = (Ok d, w).
Proof. intros Hf Hd. unfold record_one, bind, get. rewrite Hf, Hd. reflexivity. Qed.

Lemma record_all_absent ep ef fsd nle lsp l : forall d w,
  (forall a, In a l -> isfile w a = false /\ isdir w a = false) ->
  for_each l (record_one E ep ef fsd nle lsp) d w = (Ok d, w).
Proof.
  induction l as [|a l IH]; intros d w H; [reflexivity|].
  cbn [for_each]. destruct (H a (or_introl eq_refl)) as [Hf Hd].
  rewrite (bind_ok _ _ _ _ _ (record_one_absent ep ef fsd nle lsp a d w Hf Hd)).
  apply IH. intros b Hb. apply H. right. exact Hb.
Qed.

Lemma record_one_file ep ef fsd nle lsp a c w :
  isfile w a = true ->
  stat w (Py.replace Py.backslash Py.slash a) = Some (File true c) ->
  exists w',
    record_one E ep ef fsd nle lsp a ∅ w
    = (Ok {[ artifact_key lsp a := {[ "sha256" := digest E "sha256" nle c ]} ]}, w') /\
    tree w' = tree w /\ cwd w' = cwd w.
Proof.
  intros Hf Hs.
  destruct (hash_artifact_ok E _ None nle c w Hs) as (w2 & Hh & Ha2).
  exists w2. split; [|rewrite Ha2; split; reflexivity].
  unfold record_one. unfold bind at 1. unfold get. cbv beta iota. rewrite Hf.
  rewrite (bind_ok _ _ _ _ _ (apply_left_strip_fresh _ lsp w)).
  rewrite (bind_ok _ _ _ _ _ Hh). reflexivity.
Qed.

(** The start of the scan: the exclusion of roots and the prefix check. *)
Lemma scan_start norm_artifacts ep fsd nle lsp w :
  ~ has_prefix_pair (or_nil lsp) ->
  exists w1 evs,
    advanced w w1 evs /\ List.Forall check_event evs /\
    scan E norm_artifacts ep fsd nle lsp w
    = for_each (if truthy_list ep
                then _apply_exclude_patterns E norm_artifacts (or_nil ep)
                else norm_artifacts)
        (record_one E ep (or_nil ep) fsd nle lsp) ∅ w1.
Proof.
  intros Hn. unfold scan. destruct (truthy_list ep).
  - exists (snd (emit (EvCheckMatch "NAMES_SCHEMA") w)), [EvCheckMatch "NAMES_SCHEMA"].
    split; [apply advanced_emit|]. split; [repeat constructor|].
    unfold check_match.
    rewrite (bind_ok _ _ w (_apply_exclude_patterns E norm_artifacts (or_nil ep))
               (snd (emit (EvCheckMatch "NAMES_SCHEMA") w))) by reflexivity.
    rewrite (bind_ok _ _ _ _ _ (check_lstrip_paths_pass lsp _ Hn)). reflexivity.
  - exists w, []. split; [apply advanced_nil|]. split; [constructor|].
    rewrite (bind_ok _ _ w norm_artifacts w) by reflexivity.
    rewrite (bind_ok _ _ _ _ _ (check_lstrip_paths_pass lsp _ Hn)). reflexivity.
Qed.

Lemma record_artifacts_no_base a artifacts ep bp fsd nle lsp w r w' :
  truthy_str (effective_base_path bp w) = false ->
  scan E (map os_path.normpath (a :: artifacts)) (effective_exclude_patterns ep w)
    fsd nle lsp w = (r, w') ->
  record_artifacts_as_dict E (a :: artifacts) ep bp fsd nle lsp w = (r, w').
Proof.
  intros Hb Hs. rewrite record_artifacts_unfold. cbv zeta. rewrite Hb.
  unfold bind at 1. unfold ret at 1. unfold bind at 1. rewrite Hs.
  destruct r; reflexivity.
Qed.

(** X9: paths that name neither a file nor a directory are passed over
    without an error.  With no base path in effect and strip prefixes that
    do not prefix each other, a list of such paths gives the empty
    dictionary; nothing is hashed, and besides the trace of a format check
    nothing changes. *)
Theorem paths_that_do_not_exist_are_skipped
  (artifacts : list string) (exclude_patterns : option (list string))
  (base_path : option string) (follow_symlink_dirs normalize_line_endings : bool)
  (lstrip_paths : option (list string)) (w : World) :
  truthy_str (effective_base_path base_path w) = false ->
  ~ has_prefix_pair (or_nil lstrip_paths) ->
  (forall a, In a artifacts ->
             isfile w (os_path.normpath a) = false /\
             isdir w (os_path.normpath a) = false) ->
  exists w' evs,
    record_artifacts_as_dict E artifacts exclude_patterns base_path
      follow_symlink_dirs normalize_line_endings lstrip_paths w = (Ok ∅, w') /\
    advanced w w' evs /\ List.Forall check_event evs.
Proof.
  intros Hb Hn Habs. destruct artifacts as [|a artifacts].
  { exists w, []. split; [reflexivity|]. split; [apply advanced_nil | constructor]. }
  destruct (scan_start (map os_path.normpath (a :: artifacts))
              (effective_exclude_patterns exclude_patterns w)
              follow_symlink_dirs normalize_line_endings lstrip_paths w Hn)
    as (w1 & evs & Ha & Hev & Hs).
  exists w1, evs. split; [|split; assumption].
  apply record_artifacts_no_base; [exact Hb|]. rewrite Hs.
  apply record_all_absent. intros b Hin.
  assert (Hb' : In b (map os_path.normpath (a :: artifacts))).
  { destruct (truthy_list (effective_exclude_patterns exclude_patterns w));
      [apply apply_exclude_in in Hin as [Hin _]|]; exact Hin. }
  apply in_map_iff in Hb' as (a0 & <- & Ha0).
  rewrite (isfile_advanced _ _ _ _ Ha), (isdir_advanced _ _ _ _ Ha).
  apply Habs, Ha0.
Qed.

(** X10: a path that names a regular file is recorded under its normalized
    form, with backslashes turned into slashes and the first matching strip
    prefix removed; the file hashed is the one at the path with backslashes
    turned into slashes.  Stated for a single path, with no base path in
    effect, a path the exclude patterns in effect do not match and strip
    prefixes that do not prefix each other. *)
Theorem a_file_is_recorded_under_its_normalized_path
  (artifact : string) (exclude_patterns : option (list string))
  (base_path : option string) (follow_symlink_dirs normalize_line_endings : bool)
  (lstrip_paths : option (list string)) (c : content) (w : World) :
  let path := os_path.normpath artifact in
  truthy_str (effective_base_path base_path w) = false ->
  match_file E (or_nil (effective_exclude_patterns exclude_patterns w)) path = false ->
  ~ has_prefix_pair (or_nil lstrip_paths) ->
  isfile w path = true ->
  stat w (Py.replace Py.backslash Py.slash path) = Some (File true c) ->
  exists w',
    record_artifacts_as_dict E [artifact] exclude_patterns base_path
      follow_symlink_dirs normalize_line_endings lstrip_paths w
    = (Ok {[ artifact_key lstrip_paths path
             := {[ "sha256" := digest E "sha256" normalize_line_endings c ]} ]}, w') /\
    tree w' = tree w /\ cwd w' = cwd w.
Proof.
  intros path Hb Hm Hn Hf Hs.
  destruct (scan_start (map os_path.normpath [artifact])
              (effective_exclude_patterns exclude_patterns w)
              follow_symlink_dirs normalize_line_endings lstrip_paths w Hn)
    as (w1 & evs & Ha & _ & Hsc).
  cbn [map] in Hsc. fold path in Hsc.
  assert (Hroots : (if truthy_list (effective_exclude_patterns exclude_patterns w)
                    then _apply_exclude_patterns E [path]
                           (or_nil (effective_exclude_patterns exclude_patterns w))
                    else [path]) = [path]).
  { destruct (truthy_list _); [apply exclude_singleton, Hm | reflexivity]. }
  rewrite Hroots in Hsc.
  assert (Hs1 : stat w1 (Py.replace Py.backslash Py.slash path) = Some (File true c)).
  { rewrite (stat_advanced _ _ _ _ Ha). exact Hs. }
  assert (Hf1 : isfile w1 path = true).
  { rewrite (isfile_advanced _ _ _ _ Ha). exact Hf. }
  destruct (record_one_file (effective_exclude_patterns exclude_patterns w)
              (or_nil (effective_exclude_patterns exclude_patterns w))
              follow_symlink_dirs normalize_line_endings lstrip_paths path c w1 Hf1 Hs1)
    as (w2 & Hr & Ht & Hc).
  exists w2. split.
  - apply record_artifacts_no_base; [exact Hb|]. cbn [map]. fold path. rewrite Hsc.
    cbn [for_each]. rewrite (bind_ok _ _ _ _ _ Hr). reflexivity.
  - rewrite Ht, Hc, Ha. split; reflexivity.
Qed.

End OnePath.

(** ** The key checks come first *)

(** The file tree, the working directory and the settings are the same. *)
Definition same_fs (w w' : World) : Prop :=
  tree w' = tree w /\ cwd w' = cwd w /\ settings w' = settings w.

Lemma same_fs_refl w : same_fs w w.
Proof. repeat split. Qed.

Lemma same_fs_trans w1 w2 w3 : same_fs w1 w2 -> same_fs w2 w3 -> same_fs w1 w3.
Proof. intros (T1 & C1 & S1) (T2 & C2 & S2). repeat split; congruence. Qed.

Lemma frame_same_fs P w w' : frame true true true P w w' -> same_fs w w'.
Proof.
  intros (T & C & _ & S & _).
  split; [exact (T eq_refl) | split; [exact (C eq_refl) | exact S]].
Qed.

Section KeyChecks.

Context (E : Env).

Lemma check_key_formats_bad_key k gk w :
  key_schema_ok k = true -> keyval_private k = "" ->
  check_key_formats E (Some k) gk w
  = (Err (FormatError "Signing key needs to be a private key."),
     snd (emit (EvCheckMatch "KEY_SCHEMA") w)).
Proof.
  intros Hs Hp. unfold check_key_formats, _check_match_signing_key, check_match.
  rewrite Hs, Hp. reflexivity.
Qed.

(** X11: a signing key that matches [KEY_SCHEMA] and has no private part
    stops each of [in_toto_run], [in_toto_record_start] and
    [in_toto_record_stop] with the [FormatError] "Signing key needs to be a
    private key." as soon as the key has been checked against the schema:
    nothing is hashed, no command runs, and no file is read or written. *)
Theorem a_key_without_private_part_is_refused_first
  (k : Key) (name : string) (material_list product_list link_cmd_args : list string)
  (record_streams : bool) (gpg_keyid : option string) (gpg_use_default : bool)
  (gpg_home : option string) (exclude_patterns : option (list string))
  (base_path : option string)
  (compact_json record_environment normalize_line_endings : bool)
  (lstrip_paths : option (list string)) (metadata_directory : option string)
  (use_dsse : bool) (w : World) :
  key_schema_ok k = true -> keyval_private k = "" ->
  let refused {A} : result A * World :=
    (Err (FormatError "Signing key needs to be a private key."),
     mkWorld (tree w) (cwd w) (settings w) (temps w) (next_temp w)
       (trace w ++ [EvCheckMatch "KEY_SCHEMA"])) in
  in_toto_run E name material_list product_list link_cmd_args record_streams
    (Some k) gpg_keyid gpg_use_default gpg_home exclude_patterns base_path
    compact_json record_environment normalize_line_endings lstrip_paths
    metadata_directory use_dsse w = refused /\
  in_toto_record_start E name material_list (Some k) gpg_keyid gpg_use_default
    gpg_home exclude_patterns base_path record_environment normalize_line_endings
    lstrip_paths use_dsse w = refused /\
  in_toto_record_stop E name product_list (Some k) gpg_keyid gpg_use_default
    gpg_home exclude_patterns base_path normalize_line_endings lstrip_paths
    metadata_directory w = refused.
Proof.
  intros Hs Hp refused.
  pose proof (check_key_formats_bad_key k gpg_keyid w Hs Hp) as Hc.
  split; [|split].
  - unfold in_toto_run. rewrite (bind_err _ _ _ _ _ Hc). reflexivity.
  - unfold in_toto_record_start, no_key_argument. cbn [negb andb bool_decide].
    rewrite bool_decide_eq_true_2 by (eexists; reflexivity). cbn [negb andb].
    rewrite (bind_err _ _ _ _ _ Hc). reflexivity.
  - unfold in_toto_record_stop, no_key_argument.
    rewrite bool_decide_eq_true_2 by (eexists; reflexivity). cbn [negb andb].
    rewrite (bind_err _ _ _ _ _ Hc). reflexivity.
Qed.

End KeyChecks.

(** ** The three stages of [in_toto_run] *)

Section Stages.

Context (E : Env).

(** What [in_toto_run] does after the command. *)
Definition after_command (name : string) (product_list link_cmd_args : list string)
  (signing_key : option Key) (gpg_keyid : option string) (gpg_use_default : bool)
  (gpg_home : option string) (exclude_patterns : option (list string))
  (base_path : option string)
  (compact_json record_environment normalize_line_endings : bool)
  (lstrip_paths : option (list string)) (metadata_directory : option string)
  (use_dsse : bool) (materials_dict : gmap string (gmap string string))
  (byproducts : gmap string pyval) : M Metadata :=
  check_if (match product_list with [] => false | _ => true end) "PATHS_SCHEMA" ;;;
  products_dict <- record_artifacts_as_dict E product_list exclude_patterns
                     base_path true normalize_line_endings lstrip_paths ;;
  w <- get ;;
  let link_metadata :=
    unsigned_metadata name link_cmd_args compact_json use_dsse materials_dict
      products_dict byproducts (record_env record_environment w) in
  match select_signer signing_key gpg_keyid gpg_use_default gpg_home with
  | Some signer =>
      r <- create_signature E link_metadata signer ;;
      let filename := FILENAME_FORMAT name (sig_keyid (fst r)) in
      let filename :=
        match metadata_directory with
        | Some d => os_path.join d filename
        | None => filename
        end in
      dump (snd r) filename ;;;
      ret (snd r)
  | None => ret link_metadata
  end.

Lemma in_toto_run_stages name ml pl cmd rs sk gk gud gh ep bp cj re nle lsp mdd dsse w :
  in_toto_run E name ml pl cmd rs sk gk gud gh ep bp cj re nle lsp mdd dsse w
  = (m <- before_command E sk gk ep bp mdd ml nle lsp ;;
     b <- run_command E cmd rs ;;
     after_command name pl cmd sk gk gud gh ep bp cj re nle lsp mdd dsse m b) w.
Proof.
  unfold in_toto_run, before_command, run_command, after_command, unsigned_metadata.
  cbv zeta. unfold bind.
  repeat match goal with
         | |- context [match ?c ?x with _ => _ end] =>
             destruct (c x) as [[?|?] ?] eqn:?; try reflexivity
         end.
Qed.

Lemma before_command_inv sk gk ep bp mdd ml nle lsp w m w1 :
  before_command E sk gk ep bp mdd ml nle lsp w = (Ok m, w1) ->
  exists w0, same_fs w w0 /\
             record_artifacts_as_dict E ml ep bp true nle lsp w0 = (Ok m, w1).
Proof.
  unfold before_command. intros H.
  apply bind_inv in H as [([] & wa & Ha & H) | (? & _ & ?)]; [|discriminate].
  apply bind_inv in H as [([] & wb & Hb & H) | (? & _ & ?)]; [|discriminate].
  apply bind_inv in H as [([] & wc & Hc & H) | (? & _ & ?)]; [|discriminate].
  apply bind_inv in H as [([] & wd & Hd & H) | (? & _ & ?)]; [|discriminate].
  exists wd. split; [|exact H].
  pose proof (check_key_formats_frame E (fun _ => True) sk gk I I w) as Fa.
  pose proof (check_if_frame (fun _ => True) (truthy_list ep) "NAMES_SCHEMA" I wa) as Fb.
  pose proof (check_if_frame (fun _ => True) (truthy_str bp) "PATH_SCHEMA" I wb) as Fc.
  pose proof (check_if_frame (fun _ => True) (truthy_str mdd) "PATH_SCHEMA" I wc) as Fd.
  rewrite Ha in Fa. rewrite Hb in Fb. rewrite Hc in Fc. rewrite Hd in Fd.
  apply frame_same_fs in Fa, Fb, Fc, Fd.
  eauto using same_fs_trans.
Qed.

Lemma run_command_inv cmd rs w b w' :
  run_command E cmd rs w = (Ok b, w') ->
  match cmd with
  | [] => b = ∅ /\ w' = w
  | _ :: _ => exists w0, same_fs w w0 /\ execute_link E cmd rs w0 = (Ok b, w')
  end.
Proof.
  unfold run_command. destruct cmd as [|c cs].
  - unfold ret. intros H. inversion H. split; reflexivity.
  - intros H.
    apply bind_inv in H as [([] & w0 & Hc & H) | (? & _ & ?)]; [|discriminate].
    exists w0. split; [|exact H].
    pose proof (check_match_frame (fun _ => True) "LIST_OF_ANY_STRING_SCHEMA" true I w)
      as F.
    rewrite Hc in F. apply frame_same_fs in F. exact F.
Qed.

Lemma create_signature_inv md signer w r w' :
  create_signature E md signer w = (Ok r, w') ->
  sign E signer (get_payload md) = Ok (fst r) /\
  snd r = add_signature md (fst r) /\
  w' = snd (emit (EvSign signer) w).
Proof.
  unfold create_signature. intros H.
  rewrite (bind_ok _ _ w tt (snd (emit (EvSign signer) w))) in H by reflexivity.
  unfold bind, lift_result, ret in H.
  destruct (sign E signer (get_payload md)) as [sg|e]; inversion H; subst.
  repeat split.
Qed.

Lemma payload_unsigned name cmd cj dsse m p b env :
  get_payload (unsigned_metadata name cmd cj dsse m p b env) = mkLink name m p cmd b env.
Proof. unfold unsigned_metadata. destruct dsse; reflexivity. Qed.

Lemma signatures_unsigned name cmd cj dsse m p b env :
  get_signatures (unsigned_metadata name cmd cj dsse m p b env) = [].
Proof. unfold unsigned_metadata. destruct dsse; reflexivity. Qed.

Lemma signatures_add md sg : get_signatures (add_signature md sg) = get_signatures md ++ [sg].
Proof. destruct md; reflexivity. Qed.

(** What the last stage returns, and from where the products are
    recorded. *)
Lemma after_command_inv name pl cmd sk gk gud gh ep bp cj re nle lsp mdd dsse m b w md w' :
  after_command name pl cmd sk gk gud gh ep bp cj re nle lsp mdd dsse m b w = (Ok md, w') ->
  exists w0 w1 products_dict,
    same_fs w w0 /\
    record_artifacts_as_dict E pl ep bp true nle lsp w0 = (Ok products_dict, w1) /\
    get_payload md
    = mkLink name m products_dict cmd b (record_env re w1) /\
    (exists evs, trace w1 = trace w ++ evs /\ List.Forall unsigned_event evs) /\
    match select_signer sk gk gud gh with
    | None => get_signatures md = [] /\ w' = w1
    | Some signer =>
        exists sg,
          sign E signer (get_payload md) = Ok sg /\ get_signatures md = [sg] /\
          trace w' = trace w1
                     ++ [EvSign signer;
                         EvDump (match mdd with
                                 | Some d => os_path.join d (FILENAME_FORMAT name (sig_keyid sg))
                                 | None => FILENAME_FORMAT name (sig_keyid sg)
                                 end)]
    end.
Proof.
  unfold after_command. intros H.
  apply bind_inv in H as [([] & w0 & Hc & H) | (? & _ & ?)]; [|discriminate].
  apply bind_inv in H as [(pd & w1 & Hr & H) | (? & _ & ?)]; [|discriminate].
  unfold bind at 1 in H. unfold get in H. cbv beta iota zeta in H.
  pose proof (check_if_frame unsigned_event
                (match pl with [] => false | _ => true end) "PATHS_SCHEMA" I w) as F.
  rewrite Hc in F. cbn [snd] in F.
  assert (Htr : exists evs, trace w1 = trace w ++ evs /\ List.Forall unsigned_event evs).
  { destruct F as (_ & _ & _ & _ & (eva & Ta & Fa)).
    destruct (record_artifacts_frame E pl ep bp true nle lsp w0)
      as (_ & _ & _ & _ & (evb & Tb & Fb)).
    rewrite Hr in Tb. cbn [snd] in Tb.
    exists (eva ++ evb). split; [rewrite Tb, Ta, app_assoc; reflexivity|].
    apply List.Forall_app. split; [exact Fa|].
    eapply List.Forall_impl; [|exact Fb]. intros e He. destruct e; simpl in *; auto. }
  exists w0, w1, pd. split; [exact (frame_same_fs _ _ _ F)|].
  split; [exact Hr|].
  cut (get_payload md = mkLink name m pd cmd b (record_env re w1) /\
       match select_signer sk gk gud gh with
       | None => get_signatures md = [] /\ w' = w1
       | Some signer =>
           exists sg,
             sign E signer (get_payload md) = Ok sg /\ get_signatures md = [sg] /\
             trace w' = trace w1
                        ++ [EvSign signer;
                            EvDump (match mdd with
                                    | Some d =>
                                        os_path.join d (FILENAME_FORMAT name (sig_keyid sg))
                                    | None => FILENAME_FORMAT name (sig_keyid sg)
                                    end)]
       end).
  { intros [H1 H2]. split; [exact H1|]. split; [exact Htr | exact H2]. }
  clear Htr F.
  destruct (select_signer sk gk gud gh) as [signer|].
  - apply bind_inv in H as [(r & w2 & Hs & H) | (? & _ & ?)]; [|discriminate].
    apply create_signature_inv in Hs as (Hsg & Hmd & Hw2).
    apply bind_inv in H as [([] & w3 & Hd & H) | (? & _ & ?)]; [|discriminate].
    unfold ret in H. inversion H; subst md w3; clear H.
    rewrite Hmd, get_payload_add_signature, payload_unsigned. split; [reflexivity|].
    exists (fst r). rewrite payload_unsigned in Hsg.
    split; [exact Hsg|]. split; [rewrite signatures_add, signatures_unsigned; reflexivity|].
    destruct (dump_cases (snd r)
                (match mdd with
                 | Some d => os_path.join d (FILENAME_FORMAT name (sig_keyid (fst r)))
                 | None => FILENAME_FORMAT name (sig_keyid (fst r))
                 end) w2) as [(e & He) | (t & _ & Ht)].
    + rewrite He in Hd. discriminate Hd.
    + rewrite Ht in Hd. inversion Hd; subst w'. cbn [trace]. rewrite Hw2. cbn [trace snd emit].
      rewrite <- app_assoc. reflexivity.
  - unfold ret in H. inversion H; subst.
    rewrite payload_unsigned, signatures_unsigned. repeat split.
Qed.

End Stages.

Section RunTheorems.

Context (E : Env).

(** X12: when [in_toto_run] returns, the link it returns has the name and
    the command passed; its materials are what [record_artifacts_as_dict]
    returns for the material list on the file tree as it is before the
    command, its byproducts are what [execute_link] returns (the empty
    dictionary for an empty command), and its products are what
    [record_artifacts_as_dict] returns for the product list on the file tree
    that the command left; the environment is recorded after that. *)
Theorem run_records_materials_before_and_products_after_the_command
  (name : string) (material_list product_list link_cmd_args : list string)
  (record_streams : bool) (signing_key : option Key) (gpg_keyid : option string)
  (gpg_use_default : bool) (gpg_home : option string)
  (exclude_patterns : option (list string)) (base_path : option string)
  (compact_json record_environment normalize_line_endings : bool)
  (lstrip_paths : option (list string)) (metadata_directory : option string)
  (use_dsse : bool) (w : World) (md : Metadata) (w' : World) :
  in_toto_run E name material_list product_list link_cmd_args record_streams
    signing_key gpg_keyid gpg_use_default gpg_home exclude_patterns base_path
    compact_json record_environment normalize_line_endings lstrip_paths
    metadata_directory use_dsse w = (Ok md, w') ->
  let link := get_payload md in
  link_name link = name /\ command link = link_cmd_args /\
  exists w0 w1 w2 w3 w4,
    same_fs w w0 /\
    record_artifacts_as_dict E material_list exclude_patterns base_path true
      normalize_line_endings lstrip_paths w0 = (Ok (materials link), w1) /\
    match link_cmd_args with
    | [] => byproducts link = ∅ /\ w2 = w1
    | _ :: _ =>
        exists w1', same_fs w1 w1' /\
                    execute_link E link_cmd_args record_streams w1'
                    = (Ok (byproducts link), w2)
    end /\
    same_fs w2 w3 /\
    record_artifacts_as_dict E product_list exclude_patterns base_path true
      normalize_line_endings lstrip_paths w3 = (Ok (products link), w4) /\
    environment link = record_env record_environment w4.
Proof.
  intros H link. rewrite in_toto_run_stages in H.
  apply bind_inv in H as [(m & w1 & Hb & H) | (? & _ & ?)]; [|discriminate].
  apply bind_inv in H as [(b & w2 & Hc & H) | (? & _ & ?)]; [|discriminate].
  apply before_command_inv in Hb as (w0 & F0 & Hm).
  apply run_command_inv in Hc.
  apply after_command_inv in H as (w3 & w4 & pd & F3 & Hp & Hl & _ & _).
  unfold link. rewrite Hl. cbn [link_name command materials byproducts products environment].
  split; [reflexivity|]. split; [reflexivity|].
  exists w0, w1, w2, w3, w4. split; [exact F0|]. split; [exact Hm|].
  split; [exact Hc|]. split; [exact F3|]. split; [exact Hp | reflexivity].
Qed.

(** X13: when a signer is selected (a signing key, else a gpg keyid, else
    the default gpg key) and [in_toto_run] returns, the metadata carries
    exactly one signature, the signer's signature of the link; signing and
    then writing the link file are the last two things done, and the file
    name is made from the step name and the key id of the signature, joined
    to the metadata directory when one is passed. *)
Theorem a_signed_run_signs_once_and_dumps_last
  (name : string) (material_list product_list link_cmd_args : list string)
  (record_streams : bool) (signing_key : option Key) (gpg_keyid : option string)
  (gpg_use_default : bool) (gpg_home : option string)
  (exclude_patterns : option (list string)) (base_path : option string)
  (compact_json record_environment normalize_line_endings : bool)
  (lstrip_paths : option (list string)) (metadata_directory : option string)
  (use_dsse : bool) (w : World) (md : Metadata) (w' : World) (signer : Signer) :
  select_signer signing_key gpg_keyid gpg_use_default gpg_home = Some signer ->
  in_toto_run E name material_list product_list link_cmd_args record_streams
    signing_key gpg_keyid gpg_use_default gpg_home exclude_patterns base_path
    compact_json record_environment normalize_line_endings lstrip_paths
    metadata_directory use_dsse w = (Ok md, w') ->
  exists sg pre,
    sign E signer (get_payload md) = Ok sg /\
    get_signatures md = [sg] /\
    trace w' = trace w ++ pre
               ++ [EvSign signer;
                   EvDump (match metadata_directory with
                           | Some d => os_path.join d (FILENAME_FORMAT name (sig_keyid sg))
                           | None => FILENAME_FORMAT name (sig_keyid sg)
                           end)] /\
    List.Forall unsigned_event pre.
Proof.
  intros Hsel H. rewrite in_toto_run_stages in H.
  apply bind_inv in H as [(m & w1 & Hb & H) | (? & _ & ?)]; [|discriminate].
  apply bind_inv in H as [(b & w2 & Hc & H) | (? & _ & ?)]; [|discriminate].
  pose proof (before_command_frame E signing_key gpg_keyid exclude_patterns base_path
                metadata_directory material_list normalize_line_endings lstrip_paths w)
    as (_ & _ & _ & _ & (ev1 & Tr1 & F1)).
  rewrite Hb in Tr1. cbn [snd] in Tr1.
  pose proof (run_command_frame E link_cmd_args record_streams w1)
    as (_ & _ & _ & _ & (ev2 & Tr2 & F2)).
  rewrite Hc in Tr2. cbn [snd] in Tr2.
  apply after_command_inv in H as (w3 & w4 & pd & _ & _ & _ & (ev3 & Tr3 & F3) & Hs).
  rewrite Hsel in Hs. destruct Hs as (sg & Hsg & Hsigs & Tr5).
  exists sg, (ev1 ++ ev2 ++ ev3). split; [exact Hsg|]. split; [exact Hsigs|]. split.
  - rewrite Tr5, Tr3, Tr2, Tr1, <- !app_assoc. reflexivity.
  - repeat (apply List.Forall_app; split); assumption.
Qed.

End RunTheorems.

(** ** A mock run *)

Section Mock.

Context (E : Env).

(** X14: [in_toto_mock] records the current directory as materials and as
    products, captures the command's streams, and signs nothing.  When it
    returns, the metadata has no signature and writing it to
    [<name>.link] was the last thing done, the only file written; when it
    raises, no link file was written. *)
Theorem a_mock_run_writes_one_unsigned_link
  (name : string) (link_cmd_args : list string) (use_dsse : bool)
  (w : World) (r : result Metadata) (w' : World) :
  in_toto_mock E name link_cmd_args use_dsse w = (r, w') ->
  exists evs,
    trace w' = trace w ++ evs /\
    match r with
    | Ok md =>
        get_signatures md = [] /\
        link_name (get_payload md) = name /\
        command (get_payload md) = link_cmd_args /\
        exists pre,
          evs = pre ++ [EvDump (FILENAME_FORMAT_SHORT name)] /\
          List.Forall unsigned_event pre
    | Err _ => List.Forall unsigned_event evs
    end.
Proof.
  unfold in_toto_mock. intros H.
  assert (Hf : frame false false false unsigned_event w
                 (snd (in_toto_run E name ["."] ["."] link_cmd_args true None None
                         false None None None false false false None None use_dsse w))).
  { rewrite in_toto_run_unsigned_unfold by reflexivity.
    assert (Hp : preserves (frame false false false unsigned_event)
                   (m <- before_command E None None None None None ["."] false None ;;
                    b <- run_command E link_cmd_args true ;;
                    after_command_unsigned E name ["."] link_cmd_args None None false
                      false false None use_dsse m b)).
    { pres.
      - pres_by (before_command_frame E None None None None None ["."] false None).
      - pres_by (run_command_frame E link_cmd_args true).
      - pres_by (after_command_unsigned_frame E name ["."] link_cmd_args None None
                   false false false None use_dsse a a0). }
    apply Hp. }
  destruct Hf as (_ & _ & _ & _ & (ev1 & Tr1 & F1)).
  apply bind_inv in H as [(md & w1 & Hr & H) | (e & Hr & ->)].
  2: { rewrite Hr in Tr1. cbn [snd] in Tr1. exists ev1. split; assumption. }
  rewrite Hr in Tr1. cbn [snd] in Tr1.
  assert (Hmd : get_signatures md = [] /\ link_name (get_payload md) = name /\
                command (get_payload md) = link_cmd_args).
  { rewrite in_toto_run_stages in Hr.
    apply bind_inv in Hr as [(m & wa & _ & Hr) | (? & _ & ?)]; [|discriminate].
    apply bind_inv in Hr as [(b & wb & _ & Hr) | (? & _ & ?)]; [|discriminate].
    apply after_command_inv in Hr as (? & ? & ? & _ & _ & Hl & _ & Hs).
    cbn [select_signer truthy_str] in Hs. destruct Hs as [Hs _].
    rewrite Hl. repeat split. exact Hs. }
  destruct (dump_cases md (FILENAME_FORMAT_SHORT name) w1) as [(e & He) | (t & _ & Ht)].
  - rewrite (bind_err _ _ _ _ _ He) in H. inversion H; subst.
    exists ev1. split; assumption.
  - rewrite (bind_ok _ _ _ _ _ Ht) in H. unfold ret in H. inversion H; subst.
    exists (ev1 ++ [EvDump (FILENAME_FORMAT_SHORT name)]). cbn [trace].
    split; [rewrite Tr1, app_assoc; reflexivity|].
    destruct Hmd as (H1 & H2 & H3). split; [exact H1|]. split; [exact H2|].
    split; [exact H3|]. exists ev1. split; [reflexivity | exact F1].
Qed.

End Mock.

(** ** What a started recording leaves behind *)

Section Start.

Context (E : Env).

(** The signer [in_toto_record_start] uses. *)
Definition start_signer (signing_key : option Key) (gpg_keyid : option string)
  (gpg_home : option string) : Signer :=
  match signing_key with
  | Some k => SSlibSigner k
  | None =>
      if truthy_str gpg_keyid then GPGSigner gpg_keyid gpg_home
      else GPGSigner None gpg_home
  end.

Lemma checks_same_fs sk gk (ep : option (list string)) bp w wa wb wc :
  check_key_formats E sk gk w = (Ok tt, wa) ->
  check_if (truthy_list ep) "NAMES_SCHEMA" wa = (Ok tt, wb) ->
  check_if (truthy_str bp) "PATH_SCHEMA" wb = (Ok tt, wc) ->
  same_fs w wc /\ exists evs, trace wc = trace w ++ evs /\ List.Forall check_event evs.
Proof.
  intros Ha Hb Hc.
  pose proof (check_key_formats_frame E check_event sk gk I I w) as Fa.
  pose proof (check_if_frame check_event (truthy_list ep) "NAMES_SCHEMA" I wa) as Fb.
  pose proof (check_if_frame check_event (truthy_str bp) "PATH_SCHEMA" I wb) as Fc.
  rewrite Ha in Fa. rewrite Hb in Fb. rewrite Hc in Fc. cbn [snd] in *.
  split.
  - exact (same_fs_trans _ _ _ (frame_same_fs _ _ _ Fa)
             (same_fs_trans _ _ _ (frame_same_fs _ _ _ Fb) (frame_same_fs _ _ _ Fc))).
  - destruct Fa as (_ & _ & _ & _ & (e1 & T1 & F1)).
    destruct Fb as (_ & _ & _ & _ & (e2 & T2 & F2)).
    destruct Fc as (_ & _ & _ & _ & (e3 & T3 & F3)).
    exists (e1 ++ e2 ++ e3). split; [rewrite T3, T2, T1, <- !app_assoc; reflexivity|].
    repeat (apply List.Forall_app; split); assumption.
Qed.

(** X15: when [in_toto_record_start] returns, it has written exactly one
    file, the preliminary link: a link with the step name, the materials
    that [record_artifacts_as_dict] returns for the material list on the
    file tree of the call, no products, no command and no byproducts,
    signed once.  Signing and writing the file are the last two things
    done, and the file name is made from the step name and the key id of
    the signature. *)
Theorem a_started_recording_leaves_the_preliminary_link
  (step_name : string) (material_list : list string)
  (signing_key : option Key) (gpg_keyid : option string) (gpg_use_default : bool)
  (gpg_home : option string) (exclude_patterns : option (list string))
  (base_path : option string) (record_environment normalize_line_endings : bool)
  (lstrip_paths : option (list string)) (use_dsse : bool) (w w' : World) :
  in_toto_record_start E step_name material_list signing_key gpg_keyid
    gpg_use_default gpg_home exclude_patterns base_path record_environment
    normalize_line_endings lstrip_paths use_dsse w = (Ok tt, w') ->
  exists md sg w0 w1 pre,
    same_fs w w0 /\
    record_artifacts_as_dict E material_list exclude_patterns base_path true
      normalize_line_endings lstrip_paths w0 = (Ok (materials (get_payload md)), w1) /\
    get_payload md
    = mkLink step_name (materials (get_payload md)) ∅ [] ∅
        (record_env record_environment w1) /\
    sign E (start_signer signing_key gpg_keyid gpg_home) (get_payload md) = Ok sg /\
    get_signatures md = [sg] /\
    write_node (resolve (cwd w1) (UNFINISHED_FILENAME_FORMAT step_name (sig_keyid sg)))
      (Serialized md) (tree w) = Some (tree w') /\
    trace w' = trace w ++ pre
               ++ [EvSign (start_signer signing_key gpg_keyid gpg_home);
                   EvDump (UNFINISHED_FILENAME_FORMAT step_name (sig_keyid sg))] /\
    List.Forall unsigned_event pre.
Proof.
  unfold in_toto_record_start. fold (start_signer signing_key gpg_keyid gpg_home).
  destruct (no_key_argument signing_key gpg_keyid gpg_use_default); [discriminate|].
  intros H.
  apply bind_inv in H as [([] & wa & Ha & H) | (? & _ & ?)]; [|discriminate].
  apply bind_inv in H as [([] & wb & Hb & H) | (? & _ & ?)]; [|discriminate].
  apply bind_inv in H as [([] & wc & Hc & H) | (? & _ & ?)]; [|discriminate].
  apply bind_inv in H as [(m & w1 & Hr & H) | (? & _ & ?)]; [|discriminate].
  unfold bind at 1 in H. unfold get in H. cbv beta iota zeta in H.
  apply bind_inv in H as [(r & w2 & Hs & H) | (? & _ & ?)]; [|discriminate].
  apply create_signature_inv in Hs as (Hsg & Hmd & Hw2).
  destruct (checks_same_fs _ _ _ _ _ _ _ _ Ha Hb Hc) as (F0 & ev0 & T0 & E0).
  destruct (record_artifacts_frame E material_list exclude_patterns base_path true
              normalize_line_endings lstrip_paths wc)
    as (Tt & _ & _ & _ & (ev1 & T1 & E1)).
  rewrite Hr in Tt, T1. cbn [snd] in Tt, T1. specialize (Tt eq_refl).
  destruct (dump_cases (snd r) (UNFINISHED_FILENAME_FORMAT step_name (sig_keyid (fst r))) w2)
    as [(e & He) | (t & Hwn & Ht)]; rewrite H in *; [discriminate|].
  inversion Ht; subst w'; clear Ht.
  set (link := mkLink step_name m ∅ [] ∅ (record_env record_environment w1)) in *.
  assert (Hpay : get_payload (snd r) = link).
  { rewrite Hmd, get_payload_add_signature. destruct use_dsse; reflexivity. }
  exists (snd r), (fst r), wc, w1, (ev0 ++ ev1).
  rewrite Hpay. cbn [materials link].
  split; [exact F0|]. split; [exact Hr|]. split; [reflexivity|].
  split; [destruct use_dsse; exact Hsg|].
  split; [rewrite Hmd, signatures_add; destruct use_dsse; reflexivity|].
  subst w2. cbn [cwd tree snd emit trace] in *.
  destruct F0 as (F0t & _). rewrite Tt, F0t in Hwn.
  split; [exact Hwn|]. split.
  - rewrite T1, T0, <- !app_assoc. reflexivity.
  - apply List.Forall_app. split.
    + eapply List.Forall_impl; [|exact E0]. intros e He. destruct e; simpl in *; auto.
    + eapply List.Forall_impl; [|exact E1]. intros e He. destruct e; simpl in *; auto.
Qed.

End Start.

(** ** What a stopped recording carries over *)

Lemma stat_same_fs w w0 p : same_fs w w0 -> stat w0 p = stat w p.
Proof. intros (T & C & _). unfold stat. rewrite T, C. reflexivity. Qed.

Section StopResult.

Context (E : Env).

Lemma load_inv fn w md w' :
  load fn w = (Ok md, w') ->
  stat w fn = Some (File true (Serialized md)) /\ w' = snd (emit (EvLoad fn) w).
Proof.
  unfold load. intros H.
  rewrite (bind_ok _ _ w tt (snd (emit (EvLoad fn) w))) in H by reflexivity.
  unfold bind, get in H. cbv beta iota in H.
  change (stat (snd (emit (EvLoad fn) w)) fn) with (stat w fn) in H.
  destruct (stat w fn) as [[[] [|md0]| | |]|]; inversion H; subst. split; reflexivity.
Qed.


End StopResult.

(** ** A gpg keyid does not pick the preliminary link *)

Section StopGlob.

Context (E : Env).

Lemma stop_checks_with_keyid kid ep bp mdd w :
  truthy_str (Some kid) = true -> keyid_schema_ok E kid = true ->
  exists w1, stop_checks E None (Some kid) ep bp mdd w = (Ok tt, w1).
Proof.
  intros Hg Hs. unfold stop_checks, check_key_formats, check_if, check_match.
  rewrite Hg.
  change (keyid_schema_ok E (default "" (Some kid))) with (keyid_schema_ok E kid).
  rewrite Hs. unfold bind, ret, emit.
  destruct (truthy_list ep), (truthy_str bp), (truthy_str mdd); eexists; reflexivity.
Qed.

(** X17: [in_toto_record_stop] called without a signing key and with a gpg
    keyid that matches [KEYID_SCHEMA] locates the preliminary link by the
    glob for the step name alone; the keyid plays no part in it.  No match
    raises [LinkNotFoundError]; two or more matches raise
    [LinkNotFoundError] naming them all, even if one of them was made with
    that key; a single match is the file loaded, whatever key id its name
    carries. *)
Theorem a_gpg_keyid_does_not_pick_the_preliminary_link
  (step_name : string) (product_list : list string) (kid : string)
  (gpg_use_default : bool) (gpg_home : option string)
  (exclude_patterns : option (list string)) (base_path : option string)
  (normalize_line_endings : bool) (lstrip_paths : option (list string))
  (metadata_directory : option string) (w : World) (r : result unit) (w' : World) :
  kid <> "" -> keyid_schema_ok E kid = true ->
  in_toto_record_stop E step_name product_list None (Some kid) gpg_use_default
    gpg_home exclude_patterns base_path normalize_line_endings lstrip_paths
    metadata_directory w = (r, w') ->
  exists evs,
    trace w' = trace w ++ evs /\
    match glob E (tree w) (cwd w) (UNFINISHED_FILENAME_FORMAT_GLOB step_name "*") with
    | [] =>
        r = Err (LinkNotFoundError
                   ("Could not find a preliminary link for step '" +:+ step_name
                    +:+ "' in the current working directory.")) /\
        List.Forall check_event evs
    | [unfinished_fn] =>
        exists pre post,
          evs = pre ++ EvLoad unfinished_fn :: post /\ List.Forall check_event pre
    | first :: second :: others =>
        r = Err (LinkNotFoundError
                   ("Found more than one preliminary links for step '" +:+ step_name
                    +:+ "' in the current working directory: "
                    +:+ Py.join ", " (first :: second :: others)
                    +:+ ". We need exactly one to stop recording.")) /\
        List.Forall check_event evs
    end.
Proof.
  intros Hne Hs Hrun.
  assert (Hg : truthy_str (Some kid) = true).
  { cbn. apply negb_true_iff. apply String.eqb_neq. exact Hne. }
  assert (Hk : no_key_argument None (Some kid) gpg_use_default = false).
  { unfold no_key_argument. rewrite Hg. rewrite andb_false_r. reflexivity. }
  rewrite record_stop_unfold in Hrun by assumption.
  destruct (stop_checks_with_keyid kid exclude_patterns base_path metadata_directory
              w Hg Hs) as [w1 H1].
  pose proof (stop_checks_frame E None (Some kid) exclude_patterns base_path
                metadata_directory w) as (T1 & C1 & _ & _ & (ev1 & Tr1 & F1)).
  rewrite H1 in *. cbn [snd] in *. specialize (T1 eq_refl). specialize (C1 eq_refl).
  rewrite (bind_ok _ _ _ _ _ H1) in Hrun.
  unfold find_unfinished in Hrun. unfold bind at 1 in Hrun. unfold bind at 1 in Hrun.
  unfold get in Hrun. cbv beta iota in Hrun. rewrite T1, C1 in Hrun.
  destruct (glob E (tree w) (cwd w) (UNFINISHED_FILENAME_FORMAT_GLOB step_name "*"))
    as [|fn [|second others]].
  - unfold raise in Hrun. inversion Hrun; subst. exists ev1.
    split; [assumption|]. split; [reflexivity | assumption].
  - unfold ret in Hrun.
    destruct (stop_with_starts E step_name product_list None (Some kid) gpg_home
                exclude_patterns base_path normalize_line_endings lstrip_paths
                metadata_directory fn w1) as [post Hp].
    rewrite Hrun in Hp. cbn [snd] in Hp.
    exists (ev1 ++ EvLoad fn :: post). split.
    + rewrite Hp, Tr1, <- app_assoc. reflexivity.
    + exists ev1, post. split; [reflexivity | assumption].
  - unfold raise in Hrun. inversion Hrun; subst. exists ev1.
    split; [assumption|]. split; [reflexivity | assumption].
Qed.

End StopGlob.

(** ** A path given twice *)

Section Twice.

Context (E : Env).

Lemma no_prefix_pair_nil : ~ has_prefix_pair [].
Proof. intros (i & j & a & b & _ & Hi & _). discriminate Hi. Qed.

Lemma falsy_no_prefix_pair (lsp : option (list string)) :
  truthy_list lsp = false -> ~ has_prefix_pair (or_nil lsp).
Proof.
  destruct lsp as [[|x l]|]; [intros _; apply no_prefix_pair_nil | discriminate |
                              intros _; apply no_prefix_pair_nil].
Qed.

Lemma stat_kept w w' p : tree w' = tree w -> cwd w' = cwd w -> stat w' p = stat w p.
Proof. intros T C. unfold stat. rewrite T, C. reflexivity. Qed.

Lemma isfile_kept w w' p : tree w' = tree w -> cwd w' = cwd w -> isfile w' p = isfile w p.
Proof. intros T C. unfold isfile. rewrite (stat_kept _ _ _ T C). reflexivity. Qed.

(** The second visit of a file already recorded. *)
Lemma record_one_file_again ep ef fsd nle lsp a c w :
  isfile w a = true ->
  stat w (Py.replace Py.backslash Py.slash a) = Some (File true c) ->
  let d : gmap string (gmap string string) :=
    {[ artifact_key lsp a := {[ "sha256" := digest E "sha256" nle c ]} ]} in
  exists w',
    record_one E ep ef fsd nle lsp a d w
    = (if truthy_list lsp
       then Err (PrefixError
                   ("Prefix selection has resulted in non unique dictionary key '"
                    +:+ artifact_key lsp a +:+ "'"))
       else Ok d, w').
Proof.
  intros Hf Hs d.
  unfold record_one. unfold bind at 1. unfold get. cbv beta iota. rewrite Hf.
  unfold _apply_left_strip, d, artifact_key. cbv zeta.
  destruct (truthy_list lsp).
  - rewrite bool_decide_eq_true_2
      by (rewrite lookup_singleton_eq; eexists; reflexivity).
    exists w. reflexivity.
  - destruct (hash_artifact_ok E _ None nle c w Hs) as (w2 & Hh & _).
    exists w2. unfold bind at 1. unfold ret at 1.
    rewrite (bind_ok _ _ _ _ _ Hh). unfold ret.
    rewrite insert_singleton_eq. reflexivity.
Qed.

(** X18: the same file passed twice (two paths with one normalized form),
    with no base path and no exclude patterns in effect.  Without strip
    prefixes the second visit overwrites the entry of the first and the
    result has the one entry; with strip prefixes, even ones that match
    nothing, the second visit raises [PrefixError] for the key already
    present. *)
Theorem a_path_given_twice_raises_only_with_strip_prefixes
  (first second : string) (exclude_patterns : option (list string))
  (base_path : option string) (follow_symlink_dirs normalize_line_endings : bool)
  (lstrip_paths : option (list string)) (c : content) (w : World) :
  let path := os_path.normpath first in
  os_path.normpath second = path ->
  truthy_str (effective_base_path base_path w) = false ->
  truthy_list (effective_exclude_patterns exclude_patterns w) = false ->
  ~ has_prefix_pair (or_nil lstrip_paths) ->
  isfile w path = true ->
  stat w (Py.replace Py.backslash Py.slash path) = Some (File true c) ->
  exists w',
    record_artifacts_as_dict E [first; second] exclude_patterns base_path
      follow_symlink_dirs normalize_line_endings lstrip_paths w
    = (if truthy_list lstrip_paths
       then Err (PrefixError
                   ("Prefix selection has resulted in non unique dictionary key '"
                    +:+ artifact_key lstrip_paths path +:+ "'"))
       else Ok {[ artifact_key lstrip_paths path
                  := {[ "sha256" := digest E "sha256" normalize_line_endings c ]} ]},
       w').
Proof.
  intros path Hsame Hb Hep Hn Hf Hs.
  destruct (scan_start E (map os_path.normpath [first; second])
              (effective_exclude_patterns exclude_patterns w)
              follow_symlink_dirs normalize_line_endings lstrip_paths w Hn)
    as (w1 & evs & Ha & _ & Hsc).
  rewrite Hep in Hsc. cbn [map] in Hsc. rewrite Hsame in Hsc. fold path in Hsc.
  assert (Hf1 : isfile w1 path = true) by (rewrite (isfile_advanced _ _ _ _ Ha); exact Hf).
  assert (Hs1 : stat w1 (Py.replace Py.backslash Py.slash path) = Some (File true c))
    by (rewrite (stat_advanced _ _ _ _ Ha); exact Hs).
  destruct (record_one_file E (effective_exclude_patterns exclude_patterns w)
              (or_nil (effective_exclude_patterns exclude_patterns w))
              follow_symlink_dirs normalize_line_endings lstrip_paths path c w1 Hf1 Hs1)
    as (w2 & Hr1 & T2 & C2).
  assert (Hf2 : isfile w2 path = true) by (rewrite (isfile_kept _ _ _ T2 C2); exact Hf1).
  assert (Hs2 : stat w2 (Py.replace Py.backslash Py.slash path) = Some (File true c))
    by (rewrite (stat_kept _ _ _ T2 C2); exact Hs1).
  destruct (record_one_file_again (effective_exclude_patterns exclude_patterns w)
              (or_nil (effective_exclude_patterns exclude_patterns w))
              follow_symlink_dirs normalize_line_endings lstrip_paths path c w2 Hf2 Hs2)
    as (w3 & Hr2).
  exists w3. apply record_artifacts_no_base; [exact Hb|].
  cbn [map]. rewrite Hsame. fold path. rewrite Hsc. cbn [for_each].
  rewrite (bind_ok _ _ _ _ _ Hr1). unfold bind at 1. rewrite Hr2.
  destruct (truthy_list lstrip_paths); reflexivity.
Qed.

End Twice.

(** ** Only regular files that are not excluded are recorded *)

Section RegularFiles.

Context (E : Env).
Context (t : node) (c : list string).
Context (pats : list string) (lsp : option (list string)).

(** The key of a regular file that the patterns do not match. *)
Definition file_key (k : string) : Prop :=
  exists path,
    is_file_at t c path = true /\ match_file E pats path = false /\
    k = artifact_key lsp path.

Definition file_dict (d : gmap string (gmap string string)) : Prop :=
  forall k, is_Some (d !! k) -> file_key k.

Lemma file_dict_empty : file_dict ∅.
Proof. intros k [v Hv]. rewrite lookup_empty in Hv. discriminate Hv. Qed.

Lemma file_dict_insert d k h : file_dict d -> file_key k -> file_dict (<[k := h]> d).
Proof.
  intros Hd Hk k' Hs. destruct (decide (k = k')) as [<-|Hne]; [assumption|].
  apply Hd. rewrite lookup_insert_ne in Hs by assumption. exact Hs.
Qed.

Lemma record_path_spec nle filepath hashpath d :
  file_dict d -> is_file_at t c filepath = true -> match_file E pats filepath = false ->
  spec t c
    (key <- _apply_left_strip (Py.replace Py.backslash Py.slash filepath) d lsp ;;
     h <- _hash_artifact E hashpath None nle ;;
     ret (<[key := h]> d))
    file_dict.
Proof.
  intros Hd Hf Hm.
  eapply spec_bind; [apply apply_left_strip_frame | apply apply_left_strip_spec |].
  intros key ->.
  eapply spec_bind; [apply hash_artifact_frame | apply spec_true |].
  intros h _. apply spec_ret. apply file_dict_insert; [assumption|].
  exists filepath. split; [exact Hf|]. split; [exact Hm | reflexivity].
Qed.

Lemma is_file_at_isfile w p : tree w = t -> cwd w = c -> isfile w p = is_file_at t c p.
Proof. intros <- <-. reflexivity. Qed.

Lemma walk_body_files (ep : option (list string)) nle root dirs files d :
  or_nil ep = pats -> file_dict d ->
  spec t c (walk_body E ep (or_nil ep) nle lsp root dirs files d)
    (fun r => file_dict (snd r) /\ List.Forall (fun _ => True) (fst r)).
Proof.
  intros Hp Hd. unfold walk_body.
  eapply spec_bind; [apply preserves_get; exact _ | apply spec_get |].
  intros w [Ht Hc]. cbv zeta.
  eapply spec_bind with (Q1 := file_dict).
  - apply preserves_for_each; [exact _|]. intros x s.
    unfold quiet. pres; [apply apply_left_strip_frame | apply hash_artifact_frame].
  - apply spec_for_each; [assumption | |].
    + intros x s. unfold quiet. pres; [apply apply_left_strip_frame | apply hash_artifact_frame].
    + intros filepath s Hin Hs.
      apply kept_unmatched in Hin as [Hin Hun]. apply filter_In in Hin as [_ Hfile].
      apply record_path_spec; [assumption | | rewrite <- Hp; exact Hun].
      rewrite <- (is_file_at_isfile w _ Ht Hc). exact Hfile.
  - intros d' Hd'. apply spec_ret. split; [exact Hd'|].
    apply List.Forall_forall. intros; exact I.
Qed.

Lemma record_one_files (ep : option (list string)) fsd nle artifact d :
  or_nil ep = pats -> match_file E pats artifact = false -> file_dict d ->
  spec t c (record_one E ep (or_nil ep) fsd nle lsp artifact d) file_dict.
Proof.
  intros Hp Hun Hd. unfold record_one.
  eapply spec_bind; [apply preserves_get; exact _ | apply spec_get |].
  intros w [Ht Hc]. destruct (isfile w artifact) eqn:Hf.
  - apply record_path_spec; [assumption | | assumption].
    rewrite <- (is_file_at_isfile w _ Ht Hc). exact Hf.
  - destruct (isdir w artifact); [|apply spec_ret; assumption].
    destruct (stat w artifact) as [n|]; [|apply spec_ret; assumption].
    apply spec_os_walk with (Adm := fun _ => True).
    + intros. apply walk_body_quiet.
    + intros. apply walk_body_files; assumption.
    + exact I.
    + assumption.
Qed.

Lemma scan_files (ep : option (list string)) arts fsd nle :
  or_nil ep = pats -> spec t c (scan E arts ep fsd nle lsp) file_dict.
Proof.
  intros Hp. unfold scan.
  eapply spec_bind with (Q1 := fun l => forall a, In a l -> match_file E pats a = false).
  - unfold quiet, check_match. pres.
  - destruct (truthy_list ep) eqn:Ht.
    + eapply spec_bind; [unfold quiet, check_match; pres | apply spec_true |].
      intros _ _. apply spec_ret. intros a Ha. rewrite <- Hp.
      apply apply_exclude_in in Ha as [_ Ha]. exact Ha.
    + apply spec_ret. intros a Ha. rewrite <- Hp.
      destruct ep as [[|p l]|]; try discriminate; apply match_file_nil.
  - intros l Hl.
    eapply spec_bind; [apply check_lstrip_paths_frame | apply spec_true |].
    intros _ _. apply spec_for_each.
    + apply file_dict_empty.
    + intros x s. apply record_one_frame.
    + intros x s Hx Hs. apply record_one_files; auto.
Qed.

End RegularFiles.

Section RegularFilesTheorem.

Context (E : Env).

(** X19: every key of the dictionary that [record_artifacts_as_dict] returns
    is the key of a path that was a regular file when it was visited, seen
    from the directory the scan runs in, and that the exclude patterns in
    effect do not match: directories, broken symbolic links and excluded
    files never appear in the result. *)
Theorem only_regular_files_that_are_not_excluded_are_recorded
  (artifacts : list string) (exclude_patterns : option (list string))
  (base_path : option string) (follow_symlink_dirs normalize_line_endings : bool)
  (lstrip_paths : option (list string)) (w : World)
  (d : gmap string (gmap string string)) (w' : World) :
  record_artifacts_as_dict E artifacts exclude_patterns base_path
    follow_symlink_dirs normalize_line_endings lstrip_paths w = (Ok d, w') ->
  forall k, is_Some (d !! k) ->
  exists path,
    is_file_at (tree w) (scan_cwd base_path w) path = true /\
    match_file E (or_nil (effective_exclude_patterns exclude_patterns w)) path = false /\
    k = artifact_key lstrip_paths path.
Proof.
  intros Hrun k Hk.
  destruct artifacts as [|a artifacts].
  { unfold record_artifacts_as_dict, ret in Hrun. inversion Hrun; subst.
    destruct Hk as [v Hv]. rewrite lookup_empty in Hv. discriminate. }
  rewrite record_artifacts_unfold in Hrun. cbv zeta in Hrun.
  set (pats := effective_exclude_patterns exclude_patterns w) in *.
  pose proof (scan_files E (tree w) (scan_cwd base_path w) (or_nil pats) lstrip_paths
                pats (map os_path.normpath (a :: artifacts)) follow_symlink_dirs
                normalize_line_endings eq_refl) as Hs.
  unfold scan_cwd in Hs.
  apply bind_inv in Hrun as [(u & w1 & H1 & Hrun) | (e & _ & Hr)]; [|discriminate].
  apply bind_inv in Hrun as [(d1 & w2 & H2 & Hrun) | (e & _ & Hr)]; [|discriminate].
  apply bind_inv in Hrun as [(u' & w3 & H3 & Hrun) | (e & _ & Hr)]; [|discriminate].
  unfold ret in Hrun. inversion Hrun; subst d1 w3.
  assert (Hgood : file_dict E (tree w) (scan_cwd base_path w) (or_nil pats) lstrip_paths d).
  { unfold scan_cwd.
    destruct (truthy_str (effective_base_path base_path w)) eqn:Ht.
    - unfold try_except in H1.
      destruct (isdir w (default "" (effective_base_path base_path w))) eqn:Hd.
      + rewrite (chdir_ok _ _ Hd) in H1. inversion H1; subst w1.
        eapply Hs; [| |exact H2]; reflexivity.
      + destruct (chdir_err _ _ Hd) as [e He]. rewrite He in H1. discriminate.
    - unfold ret in H1. inversion H1; subst w1.
      eapply Hs; [| |exact H2]; reflexivity. }
  exact (Hgood k Hk).
Qed.

End RegularFilesTheorem.

(** X19 at a concrete input: [Demo.t0] scanned from its root with [ex]
    excluded; the key [sub/y]. *)
Lemma key_sub_y_is_a_regular_file :
  exists path,
    is_file_at (tree Demo.w0) (scan_cwd None Demo.w0) path = true /\
    match_file Demo.env (or_nil (effective_exclude_patterns (Some ["ex"]) Demo.w0)) path
    = false /\
    "sub/y" = artifact_key None path.
Proof.
  apply (only_regular_files_that_are_not_excluded_are_recorded Demo.env ["."]
           (Some ["ex"]) None true false None Demo.w0 Demo.scanned
           (snd (record_artifacts_as_dict Demo.env ["."] (Some ["ex"]) None true false
                   None Demo.w0))).
  - vm_compute. reflexivity.
  - exists {[ "sha256" := "sha256:3" ]}. vm_compute. reflexivity.
Defined.

(** ** Nothing is missed *)

(** Every key of [d] is a key of [d']. *)
Definition grows (d d' : gmap string (gmap string string)) : Prop :=
  forall k, is_Some (d !! k) -> is_Some (d' !! k).

Lemma grows_refl d : grows d d.
Proof. intros k H. exact H. Qed.

Lemma grows_trans d1 d2 d3 : grows d1 d2 -> grows d2 d3 -> grows d1 d3.
Proof. intros H12 H23 k H. apply H23, H12, H. Qed.

Lemma grows_insert d k h : grows d (<[k := h]> d).
Proof.
  intros k' H. destruct (decide (k = k')) as [<-|Hne].
  - rewrite lookup_insert_eq. eexists. reflexivity.
  - rewrite lookup_insert_ne by exact Hne. exact H.
Qed.

(** The entries of a directory, or of the directory a link leads to. *)
Definition entries (n : node) : option (list (string * node)) :=
  match n with
  | Dir es | LinkDir es => Some es
  | _ => None
  end.

Section Cover.

Context (t : node) (c : list string).

Lemma spec_for_each_cover {A} (l : list A)
  (body : A -> gmap string (gmap string string) -> M (gmap string (gmap string string)))
  (C : A -> gmap string (gmap string string) -> Prop) :
  (forall x s, quiet (body x s)) ->
  (forall x s s', C x s -> grows s s' -> C x s') ->
  (forall x s, In x l -> spec t c (body x s) (fun s' => grows s s' /\ C x s')) ->
  forall s,
    spec t c (for_each l body s) (fun s' => grows s s' /\ forall x, In x l -> C x s').
Proof.
  intros Hq Hmono. induction l as [|x l IH]; intros Hb s.
  - apply spec_ret. split; [apply grows_refl | intros x []].
  - cbn [for_each].
    eapply spec_bind with (Q1 := fun s1 => grows s s1 /\ C x s1).
    + apply Hq.
    + apply Hb. left. reflexivity.
    + intros s1 [G1 C1].
      eapply spec_weaken; [|apply IH; intros y s0 Hy; apply Hb; right; exact Hy].
      intros s' [G' C']. split; [eapply grows_trans; eassumption|].
      intros y [<-|Hy]; [eapply Hmono; eassumption | apply C', Hy].
Qed.

End Cover.

Section Walked.

Context (E : Env).
Context (t : node) (c : list string).
Context (ep : option (list string)) (fsd nle : bool) (lsp : option (list string)).

(** The directory names [walk_body] leaves in [dirs], and the file paths it
    records, for a directory [root] with the given entry names. *)
Definition kept_dirs (root : string) (dirs : list string) : list string :=
  let dirpaths :=
    map (fun dirname => os_path.normpath (os_path.join root dirname)) dirs in
  map os_path.basename
    (if truthy_list ep then _apply_exclude_patterns E dirpaths (or_nil ep)
     else dirpaths).

Definition kept_files (root : string) (files : list string) : list string :=
  let filepaths :=
    List.filter (is_file_at t c)
      (map (fun filename => os_path.normpath (os_path.join root filename)) files) in
  if truthy_list ep then _apply_exclude_patterns E filepaths (or_nil ep)
  else filepaths.

(** [walked n top filepath]: the walk of the directory [n] under the name
    [top] comes to record [filepath], in [n] itself or in a directory below
    that it descends into. *)
Inductive walked : node -> string -> string -> Prop :=
| walked_here n es top filepath :
    entries n = Some es ->
    In filepath (kept_files top (nondir_names es)) ->
    walked n top filepath
| walked_below n es top name child filepath :
    entries n = Some es ->
    In name (kept_dirs top (dir_names es)) ->
    find_entry name es = Some child ->
    fsd || negb (is_link_node child) = true ->
    walked child (os_path.join top name) filepath ->
    walked n top filepath.

Definition has_key (d : gmap string (gmap string string)) (filepath : string) : Prop :=
  is_Some (d !! artifact_key lsp filepath).

Lemma has_key_grows d d' fp : has_key d fp -> grows d d' -> has_key d' fp.
Proof. intros H G. apply G, H. Qed.

Lemma record_path_cover filepath hashpath d :
  spec t c
    (key <- _apply_left_strip (Py.replace Py.backslash Py.slash filepath) d lsp ;;
     h <- _hash_artifact E hashpath None nle ;;
     ret (<[key := h]> d))
    (fun d' => grows d d' /\ has_key d' filepath).
Proof.
  eapply spec_bind; [apply apply_left_strip_frame | apply apply_left_strip_spec |].
  intros key ->.
  eapply spec_bind; [apply hash_artifact_frame | apply spec_true |].
  intros h _. apply spec_ret. split; [apply grows_insert|].
  unfold has_key, artifact_key. cbv zeta. rewrite lookup_insert_eq. eexists. reflexivity.
Qed.

Lemma walk_body_cover root dirs files d :
  spec t c (walk_body E ep (or_nil ep) nle lsp root dirs files d)
    (fun r => fst r = kept_dirs root dirs /\ grows d (snd r) /\
              forall filepath, In filepath (kept_files root files) ->
                               has_key (snd r) filepath).
Proof.
  unfold walk_body.
  eapply spec_bind; [apply preserves_get; exact _ | apply spec_get |].
  intros w [Ht Hc]. cbv zeta.
  assert (Hfiles :
            List.filter (isfile w)
              (map (fun filename => os_path.normpath (os_path.join root filename)) files)
            = List.filter (is_file_at t c)
                (map (fun filename => os_path.normpath (os_path.join root filename)) files)).
  { apply List.filter_ext. intros p. apply is_file_at_isfile; assumption. }
  rewrite Hfiles. fold (kept_files root files).
  eapply spec_bind with
    (Q1 := fun d' => grows d d' /\
                     forall filepath, In filepath (kept_files root files) ->
                                      has_key d' filepath).
  - apply preserves_for_each; [exact _|]. intros x s.
    unfold quiet. pres; [apply apply_left_strip_frame | apply hash_artifact_frame].
  - apply spec_for_each_cover.
    + intros x s. unfold quiet. pres; [apply apply_left_strip_frame | apply hash_artifact_frame].
    + intros x s s'. apply has_key_grows.
    + intros x s _. apply record_path_cover.
  - intros d' [G Hk]. apply spec_ret. cbn [fst snd]. split; [reflexivity|].
    split; assumption.
Qed.

Lemma find_walk_entry name es :
  find_walk name (subwalks (walk_body E ep (or_nil ep) nle lsp) fsd es)
  = match find_entry name es with
    | Some child =>
        Some (is_link_node child,
              os_walk (walk_body E ep (or_nil ep) nle lsp) fsd child)
    | None => None
    end.
Proof.
  induction es as [|[n0 ch] r IH]; [reflexivity|].
  cbn. destruct (String.eqb n0 name); [reflexivity | exact IH].
Qed.

Lemma find_entry_in name es child : find_entry name es = Some child -> In (name, child) es.
Proof.
  induction es as [|[n0 ch] r IH]; [discriminate|]. cbn.
  destruct (String.eqb n0 name) eqn:He.
  - intros H. inversion H; subst. apply String.eqb_eq in He. subst. left. reflexivity.
  - intros H. right. apply IH, H.
Qed.

Lemma os_walk_cover n : forall top d,
  spec t c (os_walk (walk_body E ep (or_nil ep) nle lsp) fsd n top d)
    (fun d' => grows d d' /\ forall filepath, walked n top filepath -> has_key d' filepath).
Proof.
  assert (Hdir : forall es n0,
             entries n0 = Some es ->
             List.Forall
               (fun e => forall top d,
                    spec t c (os_walk (walk_body E ep (or_nil ep) nle lsp) fsd (snd e) top d)
                      (fun d' => grows d d' /\
                                 forall filepath, walked (snd e) top filepath ->
                                                  has_key d' filepath)) es ->
             forall top d,
               spec t c
                 (walk_dir (walk_body E ep (or_nil ep) nle lsp) fsd
                    (subwalks (walk_body E ep (or_nil ep) nle lsp) fsd es) es top d)
                 (fun d' => grows d d' /\
                            forall filepath, walked n0 top filepath -> has_key d' filepath)).
  { intros es n0 Hes IH top d. unfold walk_dir.
    eapply spec_bind; [apply walk_body_quiet | apply walk_body_cover |].
    intros r (Hdirs & G1 & Hhere). cbv beta.
    eapply spec_weaken;
      [|apply spec_for_each_cover with
          (C := fun dirname d' =>
                  forall child,
                    find_entry dirname es = Some child ->
                    fsd || negb (is_link_node child) = true ->
                    forall filepath, walked child (os_path.join top dirname) filepath ->
                                     has_key d' filepath)].
    - intros d' [G2 Hbelow]. split; [eapply grows_trans; eassumption|].
      intros filepath Hw. inversion Hw as [? es' ? ? He Hin | ? es' ? name child ? He Hin Hf Hl Hsub];
        subst; rewrite Hes in He; inversion He; subst es'.
      + eapply has_key_grows; [apply Hhere, Hin | exact G2].
      + rewrite <- Hdirs in Hin. exact (Hbelow name Hin child Hf Hl filepath Hsub).
    - intros dirname s'. rewrite find_walk_entry.
      destruct (find_entry dirname es) as [child|]; [|apply preserves_ret; exact _].
      destruct (fsd || negb (is_link_node child)); [|apply preserves_ret; exact _].
      apply preserves_os_walk; [exact _|]. intros. apply walk_body_quiet.
    - intros dirname s1 s2 H G child Hf Hl filepath Hw.
      eapply has_key_grows; [eapply H; eassumption | exact G].
    - intros dirname s' _. rewrite find_walk_entry.
      destruct (find_entry dirname es) as [child|] eqn:Hf.
      + destruct (fsd || negb (is_link_node child)) eqn:Hl.
        * rewrite List.Forall_forall in IH.
          eapply spec_weaken; [|apply (IH (dirname, child) (find_entry_in _ _ _ Hf))].
          cbn [snd]. intros d' [G Hc]. split; [exact G|].
          intros child' Hf' _ filepath Hw. inversion Hf'; subst child'. apply Hc, Hw.
        * apply spec_ret. split; [apply grows_refl|].
          intros child' Hf' Hl' filepath Hw. inversion Hf'; subst child'. congruence.
      + apply spec_ret. split; [apply grows_refl|]. intros child' Hf'. discriminate Hf'. }
  induction n as [r c0| |es IH|es IH] using node_tree_ind; intros top d.
  - apply spec_ret. split; [apply grows_refl|].
    intros filepath Hw. inversion Hw; discriminate.
  - apply spec_ret. split; [apply grows_refl|].
    intros filepath Hw. inversion Hw; discriminate.
  - intros w. rewrite os_walk_dir. apply (Hdir es (Dir es) eq_refl IH).
  - intros w. rewrite os_walk_linkdir. apply (Hdir es (LinkDir es) eq_refl IH).
Qed.

End Walked.

Section Due.

Context (E : Env).
Context (t : node) (c : list string).
Context (ep : option (list string)) (fsd nle : bool) (lsp : option (list string)).

(** What a root has to have contributed to the dictionary: its own key if
    it is a regular file, the keys of the files its walk records if it is a
    directory. *)
Definition root_due (root : string) (d : gmap string (gmap string string)) : Prop :=
  (is_file_at t c root = true -> has_key lsp d root) /\
  (forall n filepath,
     lookup_path t c root = Some n -> walked E t c ep fsd n root filepath ->
     has_key lsp d filepath).

Lemma root_due_grows root d d' : root_due root d -> grows d d' -> root_due root d'.
Proof.
  intros [H1 H2] G. split.
  - intros Hf. eapply has_key_grows; [apply H1, Hf | exact G].
  - intros n fp Hn Hw. eapply has_key_grows; [eapply H2; eassumption | exact G].
Qed.

Lemma walked_entries n top fp :
  walked E t c ep fsd n top fp -> exists es, entries n = Some es.
Proof. intros H. inversion H; subst; eexists; eassumption. Qed.

Lemma record_one_cover artifact d :
  spec t c (record_one E ep (or_nil ep) fsd nle lsp artifact d)
    (fun d' => grows d d' /\ root_due artifact d').
Proof.
  unfold record_one.
  eapply spec_bind; [apply preserves_get; exact _ | apply spec_get |].
  intros w [Ht Hc].
  assert (Hstat : stat w artifact = lookup_path t c artifact).
  { unfold stat. rewrite Ht, Hc. reflexivity. }
  rewrite (is_file_at_isfile t c w artifact Ht Hc).
  unfold isdir. rewrite Hstat. unfold root_due, is_file_at.
  destruct (lookup_path t c artifact) as [[r0 c0| |es|es]|] eqn:Hl.
  - eapply spec_weaken; [|apply record_path_cover].
    intros d' [G Hk]. split; [exact G|]. split; [intros _; exact Hk|].
    intros n fp Hn Hw. injection Hn as <-.
    apply walked_entries in Hw as [es Hes]. discriminate Hes.
  - apply spec_ret. split; [apply grows_refl|]. split; [discriminate|].
    intros n fp Hn Hw. injection Hn as <-.
    apply walked_entries in Hw as [es Hes]. discriminate Hes.
  - eapply spec_weaken; [|apply os_walk_cover].
    intros d' [G Hk]. split; [exact G|]. split; [discriminate|].
    intros n fp Hn Hw. injection Hn as <-. apply Hk, Hw.
  - eapply spec_weaken; [|apply os_walk_cover].
    intros d' [G Hk]. split; [exact G|]. split; [discriminate|].
    intros n fp Hn Hw. injection Hn as <-. apply Hk, Hw.
  - apply spec_ret. split; [apply grows_refl|]. split; [discriminate|].
    intros n fp Hn. discriminate Hn.
Qed.

(** The roots that are left after the exclusion of roots. *)
Definition kept_roots (norm_artifacts : list string) : list string :=
  if truthy_list ep then _apply_exclude_patterns E norm_artifacts (or_nil ep)
  else norm_artifacts.

Lemma scan_cover arts :
  spec t c (scan E arts ep fsd nle lsp)
    (fun d => forall root, In root (kept_roots arts) -> root_due root d).
Proof.
  unfold scan.
  eapply spec_bind with (Q1 := fun l => l = kept_roots arts).
  - unfold quiet, check_match. pres.
  - unfold kept_roots. destruct (truthy_list ep).
    + eapply spec_bind; [unfold quiet, check_match; pres | apply spec_true |].
      intros _ _. apply spec_ret. reflexivity.
    + apply spec_ret. reflexivity.
  - intros l ->.
    eapply spec_bind; [apply check_lstrip_paths_frame | apply spec_true |].
    intros _ _.
    eapply spec_weaken; [|apply spec_for_each_cover with (C := root_due)].
    + intros d [_ H]. exact H.
    + intros x s. apply record_one_frame.
    + intros x s s'. apply root_due_grows.
    + intros x s _. apply record_one_cover.
Qed.

End Due.

Section NothingMissed.

Context (E : Env).

(** X20: when [record_artifacts_as_dict] returns, nothing it came to is
    missing from the dictionary.  For every root that is left after the
    exclusion of roots: if it is a regular file, its key is in the
    dictionary; if it is a directory, the dictionary has the key of every
    file path that the walk records, in the directory itself and in every
    directory below that the walk descends into (a directory that is not
    excluded and, without [follow_symlink_dirs], not a link), where a
    directory records the paths of its entries that are regular files and
    are not excluded. *)
Theorem nothing_the_walk_comes_to_is_missed
  (artifacts : list string) (exclude_patterns : option (list string))
  (base_path : option string) (follow_symlink_dirs normalize_line_endings : bool)
  (lstrip_paths : option (list string)) (w : World)
  (d : gmap string (gmap string string)) (w' : World) :
  record_artifacts_as_dict E artifacts exclude_patterns base_path
    follow_symlink_dirs normalize_line_endings lstrip_paths w = (Ok d, w') ->
  let patterns := effective_exclude_patterns exclude_patterns w in
  forall root,
    In root (kept_roots E patterns (map os_path.normpath artifacts)) ->
    (is_file_at (tree w) (scan_cwd base_path w) root = true ->
     is_Some (d !! artifact_key lstrip_paths root)) /\
    (forall n filepath,
       lookup_path (tree w) (scan_cwd base_path w) root = Some n ->
       walked E (tree w) (scan_cwd base_path w) patterns follow_symlink_dirs n root
         filepath ->
       is_Some (d !! artifact_key lstrip_paths filepath)).
Proof.
  intros Hrun patterns root Hroot.
  destruct artifacts as [|a artifacts].
  { unfold kept_roots in Hroot. cbn [map] in Hroot.
    destruct (truthy_list patterns); [apply apply_exclude_in in Hroot as [[] _] | destruct Hroot]. }
  rewrite record_artifacts_unfold in Hrun. cbv zeta in Hrun. fold patterns in Hrun.
  pose proof (scan_cover E (tree w) (scan_cwd base_path w) patterns follow_symlink_dirs
                normalize_line_endings lstrip_paths
                (map os_path.normpath (a :: artifacts))) as Hs.
  unfold scan_cwd in Hs.
  apply bind_inv in Hrun as [(u & w1 & H1 & Hrun) | (e & _ & Hr)]; [|discriminate].
  apply bind_inv in Hrun as [(d1 & w2 & H2 & Hrun) | (e & _ & Hr)]; [|discriminate].
  apply bind_inv in Hrun as [(u' & w3 & H3 & Hrun) | (e & _ & Hr)]; [|discriminate].
  unfold ret in Hrun. inversion Hrun; subst d1 w3.
  assert (Hdue : root_due E (tree w) (scan_cwd base_path w) patterns follow_symlink_dirs
                   lstrip_paths root d).
  { unfold scan_cwd.
    destruct (truthy_str (effective_base_path base_path w)) eqn:Ht.
    - unfold try_except in H1.
      destruct (isdir w (default "" (effective_base_path base_path w))) eqn:Hd.
      + rewrite (chdir_ok _ _ Hd) in H1. inversion H1; subst w1.
        eapply Hs; [| |exact H2|exact Hroot]; reflexivity.
      + destruct (chdir_err _ _ Hd) as [e He]. rewrite He in H1. discriminate.
    - unfold ret in H1. inversion H1; subst w1.
      eapply Hs; [| |exact H2|exact Hroot]; reflexivity. }
  exact Hdue.
Qed.

End NothingMissed.

(** X20 at a concrete input: [Demo.t0] scanned from its root with [ex]
    excluded; the file [y] in the directory [sub] below. *)
Lemma sub_y_is_not_missed :
  walked Demo.env (tree Demo.w0) (scan_cwd None Demo.w0)
    (effective_exclude_patterns (Some ["ex"]) Demo.w0) true Demo.t0 "." "sub/y" /\
  is_Some (Demo.scanned !! artifact_key None "sub/y").
Proof.
  assert (Hw : walked Demo.env (tree Demo.w0) (scan_cwd None Demo.w0)
                 (effective_exclude_patterns (Some ["ex"]) Demo.w0) true Demo.t0 "."
                 "sub/y").
  { eapply walked_below with (name := "sub").
    - reflexivity.
    - vm_compute. left. reflexivity.
    - reflexivity.
    - reflexivity.
    - eapply walked_here; [reflexivity|]. vm_compute. right. left. reflexivity. }
  split; [exact Hw|].
  refine (proj2 (nothing_the_walk_comes_to_is_missed Demo.env ["."] (Some ["ex"]) None
                   true false None Demo.w0 Demo.scanned
                   (snd (record_artifacts_as_dict Demo.env ["."] (Some ["ex"]) None true
                           false None Demo.w0)) _ "." _) Demo.t0 "sub/y" _ Hw).
  - vm_compute. reflexivity.
  - vm_compute. left. reflexivity.
  - reflexivity.
Defined.

(** ** The further properties at concrete inputs *)

Module Cases.

(** a key with a public part only *)
Definition dave : Key := mkKey "da7e000033" true "" "pub".

(** a signed run of [echo] *)
Definition echo_run : result Metadata * World :=
  in_toto_run Demo.env "step" ["x"] ["sub"] ["echo"] true (Some Demo.alice) None
    false None None None false false false None None false Demo.w0.

(** stopping the recording of [Demo.w_started] with the key it was started
    with *)
Definition stopped : result unit * World :=
  in_toto_record_stop Demo.env "step" ["sub"] (Some Demo.alice) None false None
    None None false None None Demo.w_started.

End Cases.

(** X2 at a concrete input: [slow] with a timeout of twenty units. *)
Lemma slow_child_is_shown_as_returned :
  let run := _subprocess_run_duplicate_streams Demo.env ["slow"] (Some 20%Z) Demo.w0 in
  fst run = Ok (0%Z, "abcdz", "e") /\
  exists evs,
    trace (snd run) = trace Demo.w0 ++ evs /\ out_of evs = "abcdz" /\ err_of evs = "e".
Proof.
  cbv zeta. split; [vm_compute; reflexivity|].
  apply (returned_streams_are_the_streams_shown Demo.env ["slow"] (Some 20%Z) Demo.w0
           0%Z "abcdz" "e").
  vm_compute. reflexivity.
Defined.


(** X4 at a concrete input: [echo] without the recording of streams. *)
Lemma echo_without_streams_returns_its_code :
  exists p stdout_str stderr_str,
    popen Demo.env ["echo"] = Ok p /\
    List.Forall (in_time (LINK_CMD_EXEC_TIMEOUT (settings Demo.w0)) p) (p_ticks p) /\
    (<["stdout" := VStr ""]>
       (<["stderr" := VStr ""]> (<["return-value" := VInt 0]> ∅)) : gmap string pyval)
    = <["stdout" := VStr stdout_str]>
        (<["stderr" := VStr stderr_str]>
           (<["return-value" := VInt (p_returncode p)]> ∅)) /\
    (false = false -> stdout_str = "" /\ stderr_str = "") /\
    tree (snd (execute_link Demo.env ["echo"] false Demo.w0)) = p_effect p (tree Demo.w0).
Proof.
  apply (execute_link_returns_what_the_command_did Demo.env ["echo"] false Demo.w0).
  vm_compute. reflexivity.
Defined.


(** X9 at a concrete input: two paths that [Demo.t0] does not have. *)
Lemma two_missing_paths_give_the_empty_dictionary :
  exists w' evs,
    record_artifacts_as_dict Demo.env ["nope"; "./sub/gone"] None None false false
      None Demo.w0 = (Ok ∅, w') /\
    advanced Demo.w0 w' evs /\ List.Forall check_event evs.
Proof.
  apply (paths_that_do_not_exist_are_skipped Demo.env ["nope"; "./sub/gone"] None None
           false false None Demo.w0).
  - reflexivity.
  - intros (i & j & a & b & _ & Hi & _). discriminate Hi.
  - intros a [<-|[<-|[]]]; split; vm_compute; reflexivity.
Defined.

(** X10 at a concrete input: [./sub/x] with the strip prefix [sub/]. *)
Lemma sub_x_is_recorded_as_x :
  artifact_key (Some ["sub/"]) (os_path.normpath "./sub/x") = "x" /\
  exists w',
    record_artifacts_as_dict Demo.env ["./sub/x"] None None false false
      (Some ["sub/"]) Demo.w0
    = (Ok {[ artifact_key (Some ["sub/"]) (os_path.normpath "./sub/x")
             := {[ "sha256" := digest Demo.env "sha256" false (Raw "2") ]} ]}, w') /\
    tree w' = tree Demo.w0 /\ cwd w' = cwd Demo.w0.
Proof.
  split; [reflexivity|].
  apply (a_file_is_recorded_under_its_normalized_path Demo.env "./sub/x" None None
           false false (Some ["sub/"]) (Raw "2") Demo.w0).
  - reflexivity.
  - reflexivity.
  - intros (i & j & a & b & Hij & Hi & Hj & _).
    destruct j as [|j]; [lia | destruct j; discriminate Hj].
  - reflexivity.
  - reflexivity.
Defined.

(** X11 at a concrete input: a key with a public part only. *)
Lemma public_key_is_refused_by_a_run :
  in_toto_run Demo.env "step" ["x"] ["x"] ["echo"] true (Some Cases.dave) None false
    None None None false false false None None false Demo.w0
  = (Err (FormatError "Signing key needs to be a private key."),
     mkWorld (tree Demo.w0) (cwd Demo.w0) (settings Demo.w0) (temps Demo.w0)
       (next_temp Demo.w0) (trace Demo.w0 ++ [EvCheckMatch "KEY_SCHEMA"])).
Proof.
  apply (a_key_without_private_part_is_refused_first Demo.env Cases.dave "step" ["x"]
           ["x"] ["echo"] true None false None None None false false false None None
           false Demo.w0); reflexivity.
Defined.

(** X12 at a concrete input: a signed run of [echo]. *)
Lemma echo_run_has_the_name_and_the_command :
  match fst Cases.echo_run with
  | Ok md =>
      link_name (get_payload md) = "step" /\ command (get_payload md) = ["echo"] /\
      materials (get_payload md) = {[ "x" := {[ "sha256" := "sha256:1" ]} ]}
  | Err _ => False
  end.
Proof.
  unfold Cases.echo_run.
  destruct (fst _) as [md|e] eqn:Hr.
  - match type of Hr with
    | fst ?run = _ => pose proof (surjective_pairing run) as Hrun
    end.
    rewrite Hr in Hrun.
    destruct (run_records_materials_before_and_products_after_the_command Demo.env
                "step" ["x"] ["sub"] ["echo"] true (Some Demo.alice) None false None
                None None false false false None None false Demo.w0 md _ Hrun)
      as (Hn & Hc & _).
    split; [exact Hn|]. split; [exact Hc|].
    vm_compute in Hr. inversion Hr. vm_compute. reflexivity.
  - vm_compute in Hr. discriminate Hr.
Defined.

(** X13 at a concrete input: the same run. *)
Lemma echo_run_is_signed_once :
  match fst Cases.echo_run with
  | Ok md =>
      exists sg pre,
        sign Demo.env (SSlibSigner Demo.alice) (get_payload md) = Ok sg /\
        get_signatures md = [sg] /\
        trace (snd Cases.echo_run)
        = trace Demo.w0 ++ pre
          ++ [EvSign (SSlibSigner Demo.alice);
              EvDump (FILENAME_FORMAT "step" (sig_keyid sg))] /\
        List.Forall unsigned_event pre
  | Err _ => False
  end.
Proof.
  unfold Cases.echo_run.
  destruct (fst _) as [md|e] eqn:Hr.
  - match type of Hr with
    | fst ?run = _ => pose proof (surjective_pairing run) as Hrun
    end.
    rewrite Hr in Hrun.
    exact (a_signed_run_signs_once_and_dumps_last Demo.env "step" ["x"] ["sub"]
             ["echo"] true (Some Demo.alice) None false None None None false false
             false None None false Demo.w0 md _ (SSlibSigner Demo.alice) eq_refl Hrun).
  - vm_compute in Hr. discriminate Hr.
Defined.

(** X14 at a concrete input: a mock run of [echo]. *)
Lemma mock_run_of_echo :
  let run := in_toto_mock Demo.env "step" ["echo"] false Demo.w0 in
  exists evs,
    trace (snd run) = trace Demo.w0 ++ evs /\
    match fst run with
    | Ok md =>
        get_signatures md = [] /\
        link_name (get_payload md) = "step" /\
        command (get_payload md) = ["echo"] /\
        exists pre,
          evs = pre ++ [EvDump (FILENAME_FORMAT_SHORT "step")] /\
          List.Forall unsigned_event pre
    | Err _ => List.Forall unsigned_event evs
    end.
Proof.
  cbv zeta.
  apply (a_mock_run_writes_one_unsigned_link Demo.env "step" ["echo"] false Demo.w0).
  apply surjective_pairing.
Defined.

(** X15 at a concrete input: the recording that [Demo.w_started] comes
    from. *)
Lemma started_recording_of_demo :
  exists md sg,
    get_signatures md = [sg] /\ sig_keyid sg = "a11ce00011" /\
    products (get_payload md) = ∅ /\ command (get_payload md) = [] /\
    lookup_path (tree Demo.w_started) (cwd Demo.w_started)
      ".step.a11ce000.link-unfinished"
    = Some (File true (Serialized Demo.preliminary)).
Proof.
  destruct (a_started_recording_leaves_the_preliminary_link Demo.env "step" ["x"]
              (Some Demo.alice) None false None None None false false None false
              Demo.w0 Demo.w_started)
    as (md & sg & w0 & w1 & pre & _ & _ & Hp & Hs & Hg & _).
  { vm_compute. reflexivity. }
  exists md, sg. split; [exact Hg|].
  split; [vm_compute in Hs; inversion Hs; reflexivity|].
  rewrite Hp. split; [reflexivity|]. split; [reflexivity|]. vm_compute. reflexivity.
Defined.


(** X17 at a concrete input: two preliminary links, and the key id of one
    of them passed. *)
Lemma keyid_of_bob_does_not_pick_his_link :
  let stop :=
    in_toto_record_stop Demo.env "step" ["x"] None (Some "b0b0000022") false None
      None None false None None Demo.w_started_twice in
  fst stop
  = Err (LinkNotFoundError
           ("Found more than one preliminary links for step 'step' in the current "
            +:+ "working directory: .step.a11ce000.link-unfinished, "
            +:+ ".step.b0b00000.link-unfinished. We need exactly one to stop recording.")).
Proof.
  cbv zeta.
  destruct (a_gpg_keyid_does_not_pick_the_preliminary_link Demo.env "step" ["x"]
              "b0b0000022" false None None None false None None Demo.w_started_twice
              _ _ ltac:(discriminate) eq_refl (surjective_pairing _)) as (evs & _ & H).
  assert (Hg : glob Demo.env (tree Demo.w_started_twice) (cwd Demo.w_started_twice)
                 (UNFINISHED_FILENAME_FORMAT_GLOB "step" "*")
               = [".step.a11ce000.link-unfinished"; ".step.b0b00000.link-unfinished"])
    by (vm_compute; reflexivity).
  rewrite Hg in H. destruct H as [H _]. rewrite H. vm_compute. reflexivity.
Defined.

(** X18 at a concrete input: [x] and [./x], with a strip prefix that matches
    nothing. *)
Lemma x_twice_with_a_strip_prefix_raises :
  exists w',
    record_artifacts_as_dict Demo.env ["x"; "./x"] None None false false
      (Some ["zzz/"]) Demo.w0
    = (if truthy_list (Some ["zzz/"])
       then Err (PrefixError
                   ("Prefix selection has resulted in non unique dictionary key '"
                    +:+ artifact_key (Some ["zzz/"]) (os_path.normpath "x") +:+ "'"))
       else Ok {[ artifact_key (Some ["zzz/"]) (os_path.normpath "x")
                  := {[ "sha256" := digest Demo.env "sha256" false (Raw "1") ]} ]},
       w').
Proof.
  apply (a_path_given_twice_raises_only_with_strip_prefixes Demo.env "x" "./x" None
           None false false (Some ["zzz/"]) (Raw "1") Demo.w0).
  - reflexivity.
  - reflexivity.
  - reflexivity.
  - intros (i & j & a & b & Hij & Hi & Hj & _).
    destruct j as [|j]; [lia | destruct j; discriminate Hj].
  - reflexivity.
  - reflexivity.
Defined.

(** ** Evaluations *)

Example normpath_ex1 : os_path.normpath "./a//b/../c/" = "a/c".
Proof. reflexivity. Qed.
Example normpath_ex2 : os_path.normpath "../x/./y" = "../x/y".
Proof. reflexivity. Qed.
Example normpath_ex3 : os_path.normpath "/../a" = "/a".
Proof. reflexivity. Qed.
Example normpath_ex4 : os_path.normpath "a/.." = ".".
Proof. reflexivity. Qed.
Example join_ex1 : os_path.join "." "sub" = "./sub".
Proof. reflexivity. Qed.
Example basename_ex1 : os_path.basename "a/b/c" = "c".
Proof. reflexivity. Qed.
Example sorted_set_ex : Py.sorted_set ["b"; "a"; "b"; "c"] = ["a"; "b"; "c"].
Proof. reflexivity. Qed.
Example combinations2_ex :
Py.combinations2 ["a"; "b"; "c"] = [("a","b"); ("a","c"); ("b","c")].
Proof. reflexivity. Qed.
Example demo_scan :
  fst (record_artifacts_as_dict Demo.env ["."] (Some ["ex"]) None true false None Demo.w0)
  = Ok Demo.scanned.
Proof. vm_compute. reflexivity. Qed.
